(** * A shallow embedding of the storage core of open-tv (src-tauri/src/sql.rs)

    The SQLite store is modelled as four tables of dynamically typed rows.
    Statements are parameterised: a WHERE clause is a list of conditions,
    and each `?` placeholder is bound from the parameter list in order.
    NULL follows SQL's three-valued logic, with [option bool] as the truth
    value (None is NULL). A WHERE clause keeps a row only when it is true.

    The Rust functions become functions in a state/error monad over the
    connection state. A fallible [tx.execute] on a writing statement
    consults [fault]. This is an arbitrary oracle for engine failures
    (I/O errors, a busy database, a full disk), and every theorem
    quantifies over it. *)

From Stdlib Require Import String Ascii ZArith List Bool Lia.
From stdpp Require Import base gmap strings.
Import ListNotations.

Open Scope Z_scope.

(* ------------------------------------------------------------------ *)
(** ** SQL values, rows and tables *)

Inductive sql_value :=
| VNull
| VInt (z : Z)
| VText (s : string).

(** A row maps column names to values; a missing column reads as NULL. *)
Definition row := list (string * sql_value).

Fixpoint col (r : row) (c : string) : sql_value :=
  match r with
  | [] => VNull
  | (c', v) :: r' => if String.eqb c c' then v else col r' c
  end.

Fixpoint set_col (r : row) (c : string) (v : sql_value) : row :=
  match r with
  | [] => [(c, v)]
  | (c', v') :: r' => if String.eqb c c' then (c', v) :: r' else (c', v') :: set_col r' c v
  end.

Inductive table := Tsources | Tchannels | Tgroups | Tchannel_http_headers.

Record db := mkDb {
  sources : list row;
  channels : list row;
  groups : list row;
  channel_http_headers : list row
}.

(** The state a connection sees: the database, [last_insert_rowid],
    whether the pool has a free connection for [get_conn], and the
    connection's [PRAGMA foreign_keys]. sql.rs never sets that pragma, so
    it is the default of the SQLite library the crate is linked with:
    off in a stock SQLite build, on in a build compiled with
    [SQLITE_DEFAULT_FOREIGN_KEYS=1] (rusqlite's bundled SQLite). *)
Record conn := mkConn {
  cdb : db;
  last_insert_rowid : Z;
  conns_available : bool;
  foreign_keys : bool
}.

Definition get_table (d : db) (t : table) : list row :=
  match t with
  | Tsources => sources d
  | Tchannels => channels d
  | Tgroups => groups d
  | Tchannel_http_headers => channel_http_headers d
  end.

Definition set_table (d : db) (t : table) (rs : list row) : db :=
  match t with
  | Tsources => mkDb rs (channels d) (groups d) (channel_http_headers d)
  | Tchannels => mkDb (sources d) rs (groups d) (channel_http_headers d)
  | Tgroups => mkDb (sources d) (channels d) rs (channel_http_headers d)
  | Tchannel_http_headers => mkDb (sources d) (channels d) (groups d) rs
  end.

(** Unique indexes of the schema after the migration in [apply_migrations]:
    the INTEGER PRIMARY KEY [id], [index_source_name],
    [channels_unique (name, url, source_id)], [index_group_unique] and
    [index_channel_http_headers_channel_id]. *)
Definition unique_indexes (t : table) : list (list string) :=
  match t with
  | Tsources => [["id"]; ["name"]]
  | Tchannels => [["id"]; ["name"; "url"; "source_id"]]
  | Tgroups => [["id"]; ["name"; "source_id"]]
  | Tchannel_http_headers => [["id"]; ["channel_id"]]
  end%string.

(* ------------------------------------------------------------------ *)
(** ** Three-valued comparisons *)

Definition sql_eq (a b : sql_value) : option bool :=
  match a, b with
  | VNull, _ | _, VNull => None
  | VInt x, VInt y => Some (Z.eqb x y)
  | VText x, VText y => Some (String.eqb x y)
  | _, _ => Some false
  end.

Definition and3 (a b : option bool) : option bool :=
  match a, b with
  | Some false, _ | _, Some false => Some false
  | Some true, Some true => Some true
  | _, _ => None
  end.

Definition not3 (a : option bool) : option bool := option_map negb a.

Definition or3 (a b : option bool) : option bool :=
  match a, b with
  | Some true, _ | _, Some true => Some true
  | Some false, Some false => Some false
  | _, _ => None
  end.

(** [x IN (v1, ..., vn)]. SQLite allows an empty list. Then IN is false
    even when [x] is NULL. Otherwise IN is true on a match, NULL if no
    element matched but one comparison was NULL, and false if not. *)
Definition sql_in (x : sql_value) (l : list sql_value) : option bool :=
  match l with
  | [] => Some false
  | _ => fold_right (fun v acc => or3 (sql_eq x v) acc) (Some false) l
  end.

(** Two values collide in a unique index only when both are non-NULL and
    equal: SQLite treats NULLs as distinct in a UNIQUE index. *)
Definition index_collides (idx : list string) (r1 r2 : row) : bool :=
  forallb (fun c => match sql_eq (col r1 c) (col r2 c) with Some true => true | _ => false end) idx.

(* ------------------------------------------------------------------ *)
(** ** LIKE *)

(** SQLite's default LIKE: [%] matches any run of characters, [_] matches
    one character, and ASCII letters compare case-insensitively. *)
Definition ascii_lower (a : ascii) : ascii :=
  let n := nat_of_ascii a in
  if (65 <=? n)%nat && (n <=? 90)%nat then ascii_of_nat (n + 32) else a.

Fixpoint like_list (p s : list ascii) : bool :=
  match p with
  | [] => match s with [] => true | _ => false end
  | c :: p' =>
      if Ascii.eqb c "%"%char then
        (fix go (s : list ascii) : bool :=
           like_list p' s || match s with [] => false | _ :: s' => go s' end) s
      else
        match s with
        | [] => false
        | d :: s' =>
            (Ascii.eqb c "_"%char || Ascii.eqb (ascii_lower c) (ascii_lower d))
            && like_list p' s'
        end
  end.

Definition sql_like (x pat : sql_value) : option bool :=
  match x, pat with
  | VText s, VText p => Some (like_list (list_ascii_of_string p) (list_ascii_of_string s))
  | VNull, _ | _, VNull => None
  | _, _ => Some false
  end.

(* ------------------------------------------------------------------ *)
(** ** WHERE clauses *)

(** A condition and its placeholders. Conditions are joined with AND.
    [Atom] conditions read only the current row. [NotInSelect c s t w] is
    [c NOT IN (SELECT s FROM t WHERE w)]. *)
Inductive atom :=
| ALike (c : string)                  (* c LIKE ?                 *)
| AInParams (c : string) (n : nat)    (* c IN (?,...,?), n of them *)
| ANotNull (c : string)               (* c IS NOT NULL            *)
| AEqLit (c : string) (v : sql_value) (* c = literal              *)
| AEqParam (c : string).              (* c = ?                    *)

Inductive cond :=
| Atom (a : atom)
| NotInSelect (c : string) (s : string) (t : table) (w : list atom).

Definition atom_arity (a : atom) : nat :=
  match a with
  | ALike _ | AEqParam _ => 1
  | AInParams _ n => n
  | ANotNull _ | AEqLit _ _ => 0
  end.

Definition cond_arity (c : cond) : nat :=
  match c with
  | Atom a => atom_arity a
  | NotInSelect _ _ _ w => list_sum (map atom_arity w)
  end.

Definition where_arity (w : list cond) : nat := list_sum (map cond_arity w).

Definition holds (b : option bool) : bool :=
  match b with Some true => true | _ => false end.

Definition eval_atom (a : atom) (ps : list sql_value) (r : row) : option bool :=
  match a with
  | ALike c => sql_like (col r c) (hd VNull ps)
  | AInParams c _ => sql_in (col r c) ps
  | ANotNull c => Some (match col r c with VNull => false | _ => true end)
  | AEqLit c v => sql_eq (col r c) v
  | AEqParam c => sql_eq (col r c) (hd VNull ps)
  end.

(** Placeholders are bound left to right: each condition takes the next
    [arity] parameters. *)
Fixpoint eval_atoms (w : list atom) (ps : list sql_value) (r : row) : option bool :=
  match w with
  | [] => Some true
  | a :: w' =>
      and3 (eval_atom a (firstn (atom_arity a) ps) r)
           (eval_atoms w' (skipn (atom_arity a) ps) r)
  end.

Definition eval_cond (d : db) (c : cond) (ps : list sql_value) (r : row) : option bool :=
  match c with
  | Atom a => eval_atom a ps r
  | NotInSelect x s t w =>
      not3 (sql_in (col r x)
              (map (fun r' => col r' s)
                   (List.filter (fun r' => holds (eval_atoms w ps r')) (get_table d t))))
  end.

Fixpoint eval_where (d : db) (w : list cond) (ps : list sql_value) (r : row) : option bool :=
  match w with
  | [] => Some true
  | c :: w' =>
      and3 (eval_cond d c (firstn (cond_arity c) ps) r)
           (eval_where d w' (skipn (cond_arity c) ps) r)
  end.

(* ------------------------------------------------------------------ *)
(** ** Statements *)

Inductive res (A : Type) :=
| Ok (a : A)
| Err (e : string)
| Panic (msg : string).
Arguments Ok {A} a.
Arguments Err {A} e.
Arguments Panic {A} msg.

(** [Select t w lim] is [SELECT * FROM t WHERE w], plus [LIMIT ?, ?] when
    [lim] holds. [Insert t ignore cols up] is [INSERT [OR IGNORE] INTO t
    (cols) VALUES (?, ...)]. With [up = Some (k, sets)] it also has
    [ON CONFLICT(k) DO UPDATE SET s = ?i] for each [s] in [sets], where
    [?i] is the VALUES parameter of column [s]. [Update t sets w] is
    [UPDATE t SET s1 = ?, ... WHERE w], and [Delete t w] is
    [DELETE FROM t WHERE w]. *)
Inductive stmt :=
| Select (t : table) (w : list cond) (lim : bool)
| Insert (t : table) (or_ignore : bool) (cols : list string) (up : option (string * list string))
| Update (t : table) (sets : list string) (w : list cond)
| Delete (t : table) (w : list cond).

(** rusqlite rejects a parameter list whose length differs from the
    number of placeholders ([InvalidParameterCount]). *)
Definition stmt_arity (s : stmt) : nat :=
  match s with
  | Select _ w lim => where_arity w + (if lim then 2 else 0)
  | Insert _ _ cols _ => length cols
  | Update _ sets w => length sets + where_arity w
  | Delete _ w => where_arity w
  end.

(** [LIMIT off, lim]: skip [off] rows, then keep [lim] of them (all of
    them when [lim] is negative). *)
Definition apply_limit (off lim : sql_value) (rs : list row) : res (list row) :=
  match off, lim with
  | VInt o, VInt l =>
      let rs1 := skipn (Z.to_nat o) rs in
      Ok (if l <? 0 then rs1 else firstn (Z.to_nat l) rs1)
  | _, _ => Err "datatype mismatch"%string
  end.

(** Without ORDER BY, rows come in the engine's scan order. Here that
    order is the order of the table list. *)
Definition select_rows (s : stmt) (ps : list sql_value) (d : db) : res (list row) :=
  if negb (Nat.eqb (length ps) (stmt_arity s)) then Err "InvalidParameterCount"%string else
  match s with
  | Select t w lim =>
      let wps := firstn (where_arity w) ps in
      let rs := List.filter (fun r => holds (eval_where d w wps r)) (get_table d t) in
      if lim then
        match skipn (where_arity w) ps with
        | [off; l] => apply_limit off l rs
        | _ => Err "InvalidParameterCount"%string
        end
      else Ok rs
  | _ => Ok []
  end.

Definition next_rowid (rs : list row) : Z :=
  1 + fold_right (fun r m => match col r "id" with VInt z => Z.max z m | _ => m end) 0 rs.

Definition collides (t : table) (r r' : row) : bool :=
  existsb (fun idx => index_collides idx r r') (unique_indexes t).

Fixpoint unique_ok (t : table) (rs : list row) : bool :=
  match rs with
  | [] => true
  | r :: rs' => forallb (fun r' => negb (collides t r r')) rs' && unique_ok t rs'
  end.

Definition set_cols (r : row) (kvs : list (string * sql_value)) : row :=
  fold_left (fun r kv => set_col r (fst kv) (snd kv)) kvs r.

Definition with_db (c : conn) (d : db) (rid : Z) : conn :=
  mkConn d rid (conns_available c) (foreign_keys c).

(** Column DEFAULTs of the schema: [sources.enabled DEFAULT 1] and
    [channel_http_headers.ignore_ssl DEFAULT 0]. *)
Definition column_defaults (t : table) : list (string * sql_value) :=
  match t with
  | Tsources => [("enabled", VInt 1)]
  | Tchannel_http_headers => [("ignore_ssl", VInt 0)]
  | _ => []
  end%string.

(** The row an INSERT stores: the new rowid, the bound columns, and the
    DEFAULT of each column the statement does not name. *)
Definition insert_row (t : table) (rid : Z) (cols : list string) (ps : list sql_value) : row :=
  ("id"%string, VInt rid) :: combine cols ps
  ++ List.filter (fun kv => negb (existsb (String.eqb (fst kv)) cols)) (column_defaults t).

(** The FOREIGN KEY clauses of the schema, by child table: the child
    column, the parent table (whose key is [id]), and whether the clause
    says ON DELETE CASCADE. *)
Definition foreign_keys_of (t : table) : list (string * table * bool) :=
  match t with
  | Tsources => []
  | Tchannels => [("source_id", Tsources, false); ("group_id", Tgroups, false)]
  | Tgroups => [("source_id", Tsources, false)]
  | Tchannel_http_headers => [("channel_id", Tchannels, true)]
  end%string.

Definition all_tables : list table := [Tsources; Tchannels; Tgroups; Tchannel_http_headers].

Definition sql_value_eqb (a b : sql_value) : bool :=
  match a, b with
  | VNull, VNull => true
  | VInt x, VInt y => Z.eqb x y
  | VText x, VText y => String.eqb x y
  | _, _ => false
  end.

(** A NULL child key satisfies a foreign key; any other key needs a
    parent row with that [id]. *)
Definition has_parent (d : db) (p : table) (v : sql_value) : bool :=
  match v with
  | VNull => true
  | _ => existsb (fun pr => holds (sql_eq (col pr "id") v)) (get_table d p)
  end.

(** SQLite checks a foreign key for the child rows a statement inserts or
    whose key it changes, and for the child rows of the parent rows it
    removes. A child row that keeps its id and key, and already had no
    parent before the statement, is not checked again. *)
Definition fk_row_ok (old new : db) (ct : table) (fk : string * table * bool) (r : row) : bool :=
  let '(k, p, _) := fk in
  has_parent new p (col r k)
  || existsb (fun r0 => sql_value_eqb (col r0 "id") (col r "id")
                        && sql_value_eqb (col r0 k) (col r k)
                        && negb (has_parent old p (col r0 k)))
             (get_table old ct).

Definition fk_ok (old new : db) : bool :=
  forallb (fun ct => forallb (fun fk => forallb (fk_row_ok old new ct fk) (get_table new ct))
                             (foreign_keys_of ct))
          all_tables.

(** ON DELETE CASCADE: a child row whose parent row the statement
    removed is removed with it. *)
Definition cascaded (old new : db) (fk : string * table * bool) (r : row) : bool :=
  let '(k, p, casc) := fk in
  casc && negb (has_parent new p (col r k)) && has_parent old p (col r k).

Definition cascade_table (old new : db) (t : table) : list row :=
  List.filter (fun r => negb (existsb (fun fk => cascaded old new fk r) (foreign_keys_of t)))
              (get_table new t).

Definition cascade (old new : db) : db :=
  mkDb (cascade_table old new Tsources) (cascade_table old new Tchannels)
       (cascade_table old new Tgroups) (cascade_table old new Tchannel_http_headers).

(** One writing statement on the tables, before foreign keys: the rows it
    changed and the new state. *)
Definition execute_statement (s : stmt) (ps : list sql_value) (c : conn) : res (nat * conn) :=
  if negb (Nat.eqb (length ps) (stmt_arity s)) then Err "InvalidParameterCount"%string else
  let d := cdb c in
  match s with
  | Select _ _ _ => Ok (0%nat, c)
  | Insert t or_ignore cols up =>
      let rs := get_table d t in
      let rid := next_rowid rs in
      let r := insert_row t rid cols ps in
      match find (collides t r) rs with
      | None => Ok (1%nat, with_db c (set_table d t (rs ++ [r])) rid)
      | Some r' =>
          match up with
          | Some (k, sets) =>
              if index_collides [k] r r' then
                let upd := set_cols r' (map (fun s => (s, col r s)) sets) in
                Ok (1%nat, with_db c (set_table d t
                      (map (fun x => if holds (sql_eq (col x "id") (col r' "id")) then upd else x) rs))
                      (last_insert_rowid c))
              else Err "UNIQUE constraint failed"%string
          | None =>
              if or_ignore then Ok (0%nat, c) else Err "UNIQUE constraint failed"%string
          end
      end
  | Update t sets w =>
      let vals := firstn (length sets) ps in
      let wps := skipn (length sets) ps in
      let rs := get_table d t in
      let hit r := holds (eval_where d w wps r) in
      let rs' := map (fun r => if hit r then set_cols r (combine sets vals) else r) rs in
      if unique_ok t rs'
      then Ok (length (List.filter hit rs), with_db c (set_table d t rs') (last_insert_rowid c))
      else Err "UNIQUE constraint failed"%string
  | Delete t w =>
      let rs := get_table d t in
      let hit r := holds (eval_where d w ps r) in
      Ok (length (List.filter hit rs),
          with_db c (set_table d t (List.filter (fun r => negb (hit r)) rs)) (last_insert_rowid c))
  end.

(** A writing statement: the rows it changed and the new state. When the
    connection enforces foreign keys, the statement's cascades are
    applied, and a statement that leaves a violation fails as a whole. *)
Definition execute_write (s : stmt) (ps : list sql_value) (c : conn) : res (nat * conn) :=
  match execute_statement s ps c with
  | Ok (n, c') =>
      if foreign_keys c then
        let d' := cascade (cdb c) (cdb c') in
        if fk_ok (cdb c) d' then Ok (n, with_db c' d' (last_insert_rowid c'))
        else Err "FOREIGN KEY constraint failed"%string
      else Ok (n, c')
  | Err e => Err e
  | Panic p => Panic p
  end.

(* ------------------------------------------------------------------ *)
(** ** The connection monad *)

Definition M (A : Type) := conn -> res A * conn.

Definition ret {A} (a : A) : M A := fun c => (Ok a, c).

Definition bind {A B} (m : M A) (k : A -> M B) : M B :=
  fun c =>
    match m c with
    | (Ok a, c') => k a c'
    | (Err e, c') => (Err e, c')
    | (Panic p, c') => (Panic p, c')
    end.

Notation "'let!' x ':=' m 'in' k" := (bind m (fun x => k))
  (at level 200, x name, m at level 100, k at level 200).

Definition fail {A} (e : string) : M A := fun c => (Err e, c).

(** [get_conn]: [CONN.try_get().context("No sqlite conns available")]. *)
Definition get_conn : M unit :=
  fun c => if conns_available c then (Ok tt, c) else (Err "No sqlite conns available"%string, c).

(** A read ([query_row], [query_map]). Engine faults on reads are not
    modelled. *)
Definition query (s : stmt) (ps : list sql_value) : M (list row) :=
  fun c => (select_rows s ps (cdb c), c).

(* ------------------------------------------------------------------ *)
(** ** The Rust data types (crate::types) *)

(** Modelled from the spec: [crate::media_type], [crate::view_type] and
    the structs of [crate::types] are not in src/. Their fields follow
    how sql.rs uses them. For example, [filters.page * PAGE_SIZE] with
    [PAGE_SIZE: u8] makes [page] a [u8]. The media kinds are the spec's
    livestream, movie, series and group, numbered in that order. The browse
    views are all, categories and favorites. Both are [u8]s, so any other
    value can also reach [search]. *)
Module media_type.
Definition LIVESTREAM : Z := 0.
Definition MOVIE : Z := 1.
Definition SERIE : Z := 2.
Definition GROUP : Z := 3.
End media_type.

Module view_type.
Definition ALL : Z := 0.
Definition CATEGORIES : Z := 1.
Definition FAVORITES : Z := 2.
End view_type.

Module Channel.
Record t := mk {
    id : option Z;
    name : string;
    group : option string;
    image : option string;
    url : option string;
    media_type : Z;
    source_id : option Z;
    series_id : option Z;
    group_id : option Z;
    favorite : bool
  }.
End Channel.

Module ChannelHttpHeaders.
Record t := mk {
    id : option Z;
    channel_id : option Z;
    referrer : option string;
    user_agent : option string;
    http_origin : option string;
    ignore_ssl : option bool
  }.
End ChannelHttpHeaders.

Module CustomChannel.
Record t := mk {
    data : Channel.t;
    headers : option ChannelHttpHeaders.t
  }.
End CustomChannel.

Module Source.
Record t := mk {
    id : option Z;
    name : string;
    source_type : Z;
    url : option string;
    username : option string;
    password : option string;
    enabled : bool;
    use_tvg_id : option bool
  }.
End Source.

Module Filters.
Record t := mk {
    page : Z;                        (* u8 *)
    query : option string;
    media_types : option (list Z);   (* Option<Vec<u8>> *)
    source_ids : list Z;             (* Vec<i64> *)
    view_type : Z;                   (* u8 *)
    group_id : option Z;
    series_id : option Z
  }.
End Filters.

(* ------------------------------------------------------------------ *)
(** ** Binding Rust values and reading columns (rusqlite ToSql / FromSql) *)

Definition opt_int (o : option Z) : sql_value :=
  match o with Some z => VInt z | None => VNull end.
Definition opt_text (o : option string) : sql_value :=
  match o with Some s => VText s | None => VNull end.
Definition opt_bool (o : option bool) : sql_value :=
  match o with Some b => VInt (if b then 1 else 0) | None => VNull end.
Definition bool_val (b : bool) : sql_value := VInt (if b then 1 else 0).

(** [row.get(..)]: [None] stands for the [rusqlite::Error] of a value
    that does not convert (NULL into a non-Option, a text into an int, an
    int outside u8). *)
Definition get_i64 (v : sql_value) : option Z :=
  match v with VInt z => Some z | _ => None end.
Definition get_opt_i64 (v : sql_value) : option (option Z) :=
  match v with VInt z => Some (Some z) | VNull => Some None | _ => None end.
Definition get_u8 (v : sql_value) : option Z :=
  match v with VInt z => if (0 <=? z) && (z <=? 255) then Some z else None | _ => None end.
Definition get_string (v : sql_value) : option string :=
  match v with VText s => Some s | _ => None end.
Definition get_opt_string (v : sql_value) : option (option string) :=
  match v with VText s => Some (Some s) | VNull => Some None | _ => None end.
Definition get_bool (v : sql_value) : option bool :=
  match v with VInt z => Some (negb (z =? 0)) | _ => None end.

Definition row_to_group (r : row) : option Channel.t :=
  id ← get_opt_i64 (col r "id");
  name ← get_string (col r "name");
  image ← get_opt_string (col r "image");
  source_id ← get_opt_i64 (col r "source_id");
  Some (Channel.mk id name None image None media_type.GROUP source_id None None false).

Definition row_to_channel (r : row) : option Channel.t :=
  id ← get_opt_i64 (col r "id");
  name ← get_string (col r "name");
  group_id ← get_opt_i64 (col r "group_id");
  image ← get_opt_string (col r "image");
  mt ← get_u8 (col r "media_type");
  source_id ← get_opt_i64 (col r "source_id");
  url ← get_opt_string (col r "url");
  favorite ← get_bool (col r "favorite");
  Some (Channel.mk id name None image url mt source_id None group_id favorite).

(** [.query_map(..)?.filter_map(Result::ok).collect()]: rows that fail to
    convert are dropped. *)
Definition collect_rows (f : row -> option Channel.t) (rs : list row) : list Channel.t :=
  omap f rs.

(* ------------------------------------------------------------------ *)
(** ** The filter-to-query compiler: [search] and [search_group] *)

Definition PAGE_SIZE : Z := 36.

(** Unsigned arithmetic as a release build runs it: overflow wraps.
    A debug build panics on overflow instead. *)
Definition wrap_u8 (z : Z) : Z := z mod 256.
Definition wrap_u16 (z : Z) : Z := z mod 65536.

Definition generate_placeholders (size : nat) : string :=
  String.concat "," (repeat "?"%string size).

Definition to_sql_like (q : option string) : string :=
  match q with
  | Some x => String.append "%" (String.append x "%")
  | None => "%"
  end.

Definition render_atom (a : atom) : string :=
  match a with
  | ALike c => String.append c " LIKE ?"
  | AInParams c n => String.append c (String.append " IN (" (String.append (generate_placeholders n) ")"))
  | ANotNull c => String.append c " IS NOT NULL"
  | AEqLit c (VInt z) => String.append c (String.append " = " (if z =? 1 then "1" else "0"))
  | AEqLit c _ => String.append c " = NULL"
  | AEqParam c => String.append c " = ?"
  end.

Definition table_name (t : table) : string :=
  match t with
  | Tsources => "sources" | Tchannels => "CHANNELS" | Tgroups => "groups"
  | Tchannel_http_headers => "channel_http_headers"
  end.

(** The text of a SELECT with whitespace normalised: the format strings of
    [search] and [search_group] with their [{}] holes filled. *)
Definition render_select (s : stmt) : string :=
  match s with
  | Select t w lim =>
      String.append "SELECT * FROM "
        (String.append (table_name t)
          (String.append " WHERE "
            (String.append
               (String.concat " AND "
                  (map (fun c => match c with Atom a => render_atom a | NotInSelect _ _ _ _ => "" end) w))
               (if lim then " LIMIT ?, ?" else ""))))
  | _ => ""
  end.

Definition search_group_where (filters : Filters.t) : list cond :=
  [Atom (ALike "name"); Atom (AInParams "source_id" (length (Filters.source_ids filters)))].

Definition search_group_where_params (filters : Filters.t) : list sql_value :=
  VText (to_sql_like (Filters.query filters)) :: map VInt (Filters.source_ids filters).

Definition search_group_query (filters : Filters.t) : stmt * list sql_value :=
  let offset := wrap_u8 (wrap_u8 (Filters.page filters * PAGE_SIZE) - PAGE_SIZE) in
  (Select Tgroups (search_group_where filters) true,
   search_group_where_params filters ++ [VInt offset; VInt PAGE_SIZE]).

Definition search_group (filters : Filters.t) : M (list Channel.t) :=
  let! _ := get_conn in
  let (sql, params) := search_group_query filters in
  let! rows := query sql params in
  ret (collect_rows row_to_group rows).

(** [Option::unwrap]. *)
Definition unwrap {A} (o : option A) : M A :=
  match o with
  | Some a => ret a
  | None => fun c => (Panic "called `Option::unwrap()` on a `None` value"%string, c)
  end.

(** The literal of [vec![1]] in [search]: the media type of the episodes
    of a series. *)
Definition episode_media_types : list Z := [1].

Definition is_none {A} (o : option A) : bool :=
  match o with None => true | Some _ => false end.

(** The channel-browse query of [search] for the media-type list chosen
    at lines 323-326: the conditions and the bound parameters, both in
    the order the code appends them. *)
Definition search_channel_where (filters : Filters.t) (media_types : list Z) : list cond :=
  [Atom (ALike "name");
   Atom (AInParams "media_type" (length media_types));
   Atom (AInParams "source_id" (length (Filters.source_ids filters)));
   Atom (ANotNull "url")]
  ++ (if (Filters.view_type filters =? view_type.FAVORITES) && is_none (Filters.series_id filters)
      then [Atom (AEqLit "favorite" (VInt 1))] else [])
  ++ (match Filters.series_id filters, Filters.group_id filters with
      | Some _, _ => [Atom (AEqParam "series_id")]
      | None, Some _ => [Atom (AEqParam "group_id")]
      | None, None => []
      end).

Definition search_channel_where_params (filters : Filters.t) (media_types : list Z) : list sql_value :=
  VText (to_sql_like (Filters.query filters))
    :: map VInt media_types ++ map VInt (Filters.source_ids filters)
    ++ (match Filters.series_id filters, Filters.group_id filters with
        | Some s, _ => [VInt s]
        | None, Some g => [VInt g]
        | None, None => []
        end).

Definition search_channel_query (filters : Filters.t) (media_types : list Z) : stmt * list sql_value :=
  let offset := wrap_u16 (Filters.page filters * PAGE_SIZE - PAGE_SIZE) in
  (Select Tchannels (search_channel_where filters media_types) true,
   search_channel_where_params filters media_types ++ [VInt offset; VInt PAGE_SIZE]).

Definition routes_to_groups (filters : Filters.t) : bool :=
  (Filters.view_type filters =? view_type.CATEGORIES)
  && is_none (Filters.group_id filters) && is_none (Filters.series_id filters).

(** Lines 323-326: a series scope forces [vec![1]], otherwise the caller's
    list is unwrapped. *)
Definition search_media_types (filters : Filters.t) : M (list Z) :=
  match Filters.series_id filters with
  | Some _ => ret episode_media_types
  | None => unwrap (Filters.media_types filters)
  end.

Definition search (filters : Filters.t) : M (list Channel.t) :=
  if routes_to_groups filters then search_group filters else
  let! _ := get_conn in
  let! media_types := search_media_types filters in
  let (sql, params) := search_channel_query filters media_types in
  let! rows := query sql params in
  ret (collect_rows row_to_channel rows).

(* ------------------------------------------------------------------ *)
(** ** Write paths *)

Section Writes.

(** Engine failures of a writing statement, as an arbitrary oracle. *)
Variable fault : stmt -> list sql_value -> conn -> option string.
(** A failing COMMIT (for instance SQLITE_BUSY). *)
Variable commit_fault : conn -> option string.

(** [tx.execute(sql, params)?]: the number of rows changed. A failing
    statement leaves the state as it was (statement-level rollback). *)
Definition exec (s : stmt) (ps : list sql_value) : M nat :=
  fun c =>
    match fault s ps c with
    | Some e => (Err e, c)
    | None =>
        match execute_write s ps c with
        | Ok (n, c') => (Ok n, c')
        | Err e => (Err e, c)
        | Panic p => (Panic p, c)
        end
    end.

Definition get_last_insert_rowid : M Z := fun c => (Ok (last_insert_rowid c), c).

(** ROLLBACK restores the database contents as they were at BEGIN.
    [last_insert_rowid] is connection state, and a rollback does not
    reset it. *)
Definition rollback_to (snapshot : conn) (c : conn) : conn :=
  mkConn (cdb snapshot) (last_insert_rowid c) (conns_available c) (foreign_keys c).

Definition commit : M unit :=
  fun c => match commit_fault c with Some e => (Err e, c) | None => (Ok tt, c) end.

Definition create_or_find_source_by_name (source : Source.t) : M Z :=
  let! found := query (Select Tsources [Atom (AEqParam "name")] false) [VText (Source.name source)] in
  match found with
  | r :: _ =>
      match get_i64 (col r "id") with
      | Some id => ret id
      | None => fail "InvalidColumnType"
      end
  | [] =>
      let! _ := exec (Insert Tsources false
                        ["name"; "source_type"; "url"; "username"; "password"; "use_tvg_id"] None)
                     [VText (Source.name source); VInt (Source.source_type source);
                      opt_text (Source.url source); opt_text (Source.username source);
                      opt_text (Source.password source); opt_bool (Source.use_tvg_id source)] in
      get_last_insert_rowid
  end.

Definition insert_channel (channel : Channel.t) : M unit :=
  let! _ := exec (Insert Tchannels true
                    ["name"; "group_id"; "image"; "url"; "source_id"; "media_type"; "series_id"; "favorite"] None)
                 [VText (Channel.name channel); opt_int (Channel.group_id channel);
                  opt_text (Channel.image channel); opt_text (Channel.url channel);
                  opt_int (Channel.source_id channel); VInt (Channel.media_type channel);
                  opt_int (Channel.series_id channel); bool_val (Channel.favorite channel)] in
  ret tt.

Definition insert_channel_headers (headers : ChannelHttpHeaders.t) : M unit :=
  let! _ := exec (Insert Tchannel_http_headers true
                    ["channel_id"; "referrer"; "user_agent"; "http_origin"] None)
                 [opt_int (ChannelHttpHeaders.channel_id headers);
                  opt_text (ChannelHttpHeaders.referrer headers);
                  opt_text (ChannelHttpHeaders.user_agent headers);
                  opt_text (ChannelHttpHeaders.http_origin headers)] in
  ret tt.

Definition insert_group (group : string) (image : option string) (source_id : Z) : M Z :=
  let! rows_changed := exec (Insert Tgroups true ["name"; "image"; "source_id"] None)
                            [VText group; opt_text image; VInt source_id] in
  if Nat.eqb rows_changed 0
  then fail (String.append "Failed to insert group: " group)
  else get_last_insert_rowid.

Definition with_group_id (channel : Channel.t) (gid : option Z) : Channel.t :=
  Channel.mk (Channel.id channel) (Channel.name channel) (Channel.group channel)
    (Channel.image channel) (Channel.url channel) (Channel.media_type channel)
    (Channel.source_id channel) (Channel.series_id channel) gid (Channel.favorite channel).

(** The [&mut HashMap] cache and the [&mut Channel] are threaded through
    and returned. *)
Definition set_channel_group_id (groups : gmap string Z) (channel : Channel.t) (source_id : Z)
  : M (gmap string Z * Channel.t) :=
  match Channel.group channel with
  | None => ret (groups, channel)
  | Some g =>
      match groups !! g with
      | None =>
          let! id := insert_group g (Channel.image channel) source_id in
          ret (<[g := id]> groups, with_group_id channel (Some id))
      | Some id => ret (groups, with_group_id channel (Some id))
      end
  end.

Definition channel_headers_empty (headers : ChannelHttpHeaders.t) : bool :=
  is_none (ChannelHttpHeaders.ignore_ssl headers)
  && is_none (ChannelHttpHeaders.http_origin headers)
  && is_none (ChannelHttpHeaders.referrer headers)
  && is_none (ChannelHttpHeaders.user_agent headers).

Definition with_channel_id (h : ChannelHttpHeaders.t) (cid : option Z) : ChannelHttpHeaders.t :=
  ChannelHttpHeaders.mk (ChannelHttpHeaders.id h) cid (ChannelHttpHeaders.referrer h)
    (ChannelHttpHeaders.user_agent h) (ChannelHttpHeaders.http_origin h)
    (ChannelHttpHeaders.ignore_ssl h).

Definition add_custom_channel (channel : CustomChannel.t) : M unit :=
  let! _ := insert_channel (CustomChannel.data channel) in
  match CustomChannel.headers channel with
  | Some headers =>
      if channel_headers_empty headers then ret tt else
      let! rowid := get_last_insert_rowid in
      insert_channel_headers (with_channel_id headers (Some rowid))
  | None => ret tt
  end.

Definition edit_custom_channel_tx (channel : CustomChannel.t) : M unit :=
  let data := CustomChannel.data channel in
  let! _ := exec (Update Tchannels ["name"; "image"; "url"; "media_type"; "group_id"]
                         [Atom (AEqParam "id")])
                 [VText (Channel.name data); opt_text (Channel.image data);
                  opt_text (Channel.url data); VInt (Channel.media_type data);
                  opt_int (Channel.group_id data); opt_int (Channel.id data)] in
  match CustomChannel.headers channel with
  | Some headers0 =>
      let headers := with_channel_id headers0 (Channel.id data) in
      let! _ := exec (Insert Tchannel_http_headers false
                        ["referrer"; "user_agent"; "http_origin"; "ignore_ssl"; "channel_id"]
                        (Some ("channel_id"%string,
                               ["referrer"; "user_agent"; "http_origin"; "ignore_ssl"]%string)))
                     [opt_text (ChannelHttpHeaders.referrer headers);
                      opt_text (ChannelHttpHeaders.user_agent headers);
                      opt_text (ChannelHttpHeaders.http_origin headers);
                      opt_bool (ChannelHttpHeaders.ignore_ssl headers);
                      opt_int (ChannelHttpHeaders.channel_id headers)] in
      ret tt
  | None =>
      let! _ := exec (Delete Tchannel_http_headers [Atom (AEqParam "channel_id")])
                     [opt_int (Channel.id data)] in
      ret tt
  end.

(** [edit_custom_channel]: BEGIN, run the body, then COMMIT on success or
    ROLLBACK on error. A failed COMMIT drops the [Transaction], and
    rusqlite's default drop behaviour rolls it back. A failed ROLLBACK is
    only logged. SQLite still ends the transaction without its writes, so
    the snapshot is restored in both cases. *)
Definition edit_custom_channel (channel : CustomChannel.t) : M unit :=
  let! _ := get_conn in
  fun snapshot =>
    match edit_custom_channel_tx channel snapshot with
    | (Ok _, c') =>
        match commit c' with
        | (Ok _, c'') => (Ok tt, c'')
        | (Err e, c'') => (Err e, rollback_to snapshot c'')
        | (Panic p, c'') => (Panic p, rollback_to snapshot c'')
        end
    | (Err e, c') => (Err e, rollback_to snapshot c')
    | (Panic p, c') => (Panic p, rollback_to snapshot c')
    end.

(** [delete_channels_by_source] binds [source_id.to_string()]. The
    column [source_id] has INTEGER affinity, so SQLite converts that text
    back to the integer before comparing. The bound value is therefore the
    integer itself. *)
Definition delete_channels_by_source (source_id : Z) : M unit :=
  let! _ := get_conn in
  let! _ := exec (Delete Tchannels [Atom (AEqParam "source_id"); Atom (AEqLit "favorite" (VInt 0))])
                 [VInt source_id] in
  ret tt.

(** [... AND ID not in (SELECT group_id FROM channels WHERE favorite = 1)]
    (column names are case-insensitive: [ID] is [id]). *)
Definition delete_groups_by_source (source_id : Z) : M unit :=
  let! _ := get_conn in
  let! _ := exec (Delete Tgroups
                    [Atom (AEqParam "source_id");
                     NotInSelect "id" "group_id" Tchannels [AEqLit "favorite" (VInt 1)]])
                 [VInt source_id] in
  ret tt.

(** The source-scoped refresh: [delete_channels_by_source] followed by
    [delete_groups_by_source] for the same source. *)
Definition refresh_source_cleanup (source_id : Z) : M unit :=
  let! _ := delete_channels_by_source source_id in
  delete_groups_by_source source_id.

End Writes.

Definition no_fault : stmt -> list sql_value -> conn -> option string := fun _ _ _ => None.
Definition no_commit_fault : conn -> option string := fun _ => None.

(* ------------------------------------------------------------------ *)
(** ** The other repository functions of sql.rs *)

(** Modelled from the spec: [crate::types::Group] and [crate::types::IdName]
    are not in src/. Their fields follow how sql.rs binds and reads them:
    [add_custom_group] binds [group.source_id] as a nullable value and
    [get_custom_groups] sets [id] and [source_id] to [None]. *)
Module Group.
Record t := mk {
  id : option Z;
  name : string;
  image : option string;
  source_id : option Z
}.
End Group.

Module IdName.
Record t := mk {
  id : Z;
  name : string
}.
End IdName.

(** Lines 810-817. *)
Definition row_to_custom_group (r : row) : option Group.t :=
  id ← get_opt_i64 (col r "id");
  name ← get_string (col r "name");
  image ← get_opt_string (col r "image");
  source_id ← get_opt_i64 (col r "source_id");
  Some (Group.mk id name image source_id).

(** Lines 778-783. *)
Definition row_to_id_name (r : row) : option IdName.t :=
  id ← get_i64 (col r "id");
  name ← get_string (col r "name");
  Some (IdName.mk id name).

(** [query_row("SELECT 1 ...", ..).optional()?.is_some()]: whether the
    query has a row. The literal [1] always converts to [u8]. *)
Definition exists_query (s : stmt) (ps : list sql_value) : M bool :=
  let! rs := query s ps in
  ret (match rs with [] => false | _ :: _ => true end).

(** Lines 531-545. *)
Definition source_name_exists (name : string) : M bool :=
  let! _ := get_conn in
  exists_query (Select Tsources [Atom (AEqParam "name")] false) [VText name].

(** Lines 718-732. *)
Definition group_exists (name : string) (source_id : Z) : M bool :=
  let! _ := get_conn in
  exists_query (Select Tgroups [Atom (AEqParam "name"); Atom (AEqParam "source_id")] false)
               [VText name; VInt source_id].

(** Lines 734-748: [name = ? AND source_id = ? AND url = ?]. *)
Definition channel_exists (name url : string) (source_id : Z) : M bool :=
  let! _ := get_conn in
  exists_query (Select Tchannels [Atom (AEqParam "name"); Atom (AEqParam "source_id");
                                  Atom (AEqParam "url")] false)
               [VText name; VInt source_id; VText url].

(** Lines 854-868. *)
Definition group_not_empty (id : Z) : M bool :=
  let! _ := get_conn in
  exists_query (Select Tchannels [Atom (AEqParam "group_id")] false) [VInt id].

(** Lines 521-529: the row count of [SELECT ... FROM channels WHERE source_id = ?]. *)
Definition get_channel_count_by_source (id : Z) : M Z :=
  let! _ := get_conn in
  let! rs := query (Select Tchannels [Atom (AEqParam "source_id")] false) [VInt id] in
  ret (Z.of_nat (length rs)).

(** Lines 798-808: the first row, if any, through [row_to_custom_group]. *)
Definition get_group_by_id (id : Z) : M (option Group.t) :=
  let! _ := get_conn in
  let! rs := query (Select Tgroups [Atom (AEqParam "id")] false) [VInt id] in
  match rs with
  | [] => ret None
  | r :: _ =>
      match row_to_custom_group r with
      | Some g => ret (Some g)
      | None => fail "InvalidColumnType"
      end
  end.

(** Lines 761-776: [SELECT id, name FROM groups WHERE name LIKE ? AND
    source_id = ?], keeping the rows that convert ([filter_map(Result::ok)]). *)
Definition group_auto_complete (q : option string) (source_id : Z) : M (list IdName.t) :=
  let! _ := get_conn in
  let! rs := query (Select Tgroups [Atom (ALike "name"); Atom (AEqParam "source_id")] false)
                   [VText (to_sql_like q); VInt source_id] in
  ret (omap row_to_id_name rs).

Section Catalog.

Variable fault : stmt -> list sql_value -> conn -> option string.
Variable commit_fault : conn -> option string.

(** Lines 492-519. The three DELETEs run on the pooled connection in
    autocommit mode, with no transaction around them. *)
Definition delete_source (id : Z) : M unit :=
  let! _ := get_conn in
  let! _ := exec fault (Delete Tchannels [Atom (AEqParam "source_id")]) [VInt id] in
  let! _ := exec fault (Delete Tgroups [Atom (AEqParam "source_id")]) [VInt id] in
  let! count := exec fault (Delete Tsources [Atom (AEqParam "id")]) [VInt id] in
  if negb (Nat.eqb count 1) then fail "No sources were deleted" else ret tt.

(** Lines 547-558: [UPDATE channels SET favorite = ?1 WHERE id = ?2]. *)
Definition favorite_channel (channel_id : Z) (favorite : bool) : M unit :=
  let! _ := get_conn in
  let! _ := exec fault (Update Tchannels ["favorite"] [Atom (AEqParam "id")])
                 [bool_val favorite; VInt channel_id] in
  ret tt.

(** Lines 712-716. The [ON DELETE CASCADE] of [channel_http_headers]
    fires only on a connection that enforces foreign keys (see [conn]);
    on one that does not, the channel's headers row stays. *)
Definition delete_custom_channel (id : Z) : M unit :=
  let! _ := get_conn in
  let! _ := exec fault (Delete Tchannels [Atom (AEqParam "id")]) [VInt id] in
  ret tt.

(** Lines 750-759: a plain INSERT (no OR IGNORE) inside the caller's
    transaction. *)
Definition add_custom_group (group : Group.t) : M Z :=
  let! _ := exec fault (Insert Tgroups false ["name"; "image"; "source_id"] None)
                 [VText (Group.name group); opt_text (Group.image group);
                  opt_int (Group.source_id group)] in
  get_last_insert_rowid.

(** Lines 785-796. *)
Definition edit_custom_group (group : Group.t) : M unit :=
  let! _ := get_conn in
  let! _ := exec fault (Update Tgroups ["name"; "image"] [Atom (AEqParam "id")])
                 [VText (Group.name group); opt_text (Group.image group);
                  opt_int (Group.id group)] in
  ret tt.

(** Lines 832-852. On a connection that enforces foreign keys both
    statements are checked: the UPDATE needs [new_id] to name a group,
    and the DELETE fails while a channel still points at the group. *)
Definition delete_custom_group (id : Z) (new_id : option Z) (do_channels_update : bool) : M unit :=
  let! _ := get_conn in
  let! _ := (if do_channels_update
             then exec fault (Update Tchannels ["group_id"] [Atom (AEqParam "group_id")])
                           [opt_int new_id; VInt id]
             else ret 0%nat) in
  let! _ := exec fault (Delete Tgroups [Atom (AEqParam "id")]) [VInt id] in
  ret tt.

(** Lines 952-961. [f(&tx)?] drops the [Transaction] on error, and
    rusqlite's default drop behaviour rolls it back. A failed COMMIT
    drops it too (see [edit_custom_channel]). *)
Definition do_tx {T} (f : M T) : M T :=
  let! _ := get_conn in
  fun snapshot =>
    match f snapshot with
    | (Ok r, c') =>
        match commit commit_fault c' with
        | (Ok _, c'') => (Ok r, c'')
        | (Err e, c'') => (Err e, rollback_to snapshot c'')
        | (Panic p, c'') => (Panic p, rollback_to snapshot c'')
        end
    | (Err e, c') => (Err e, rollback_to snapshot c')
    | (Panic p, c') => (Panic p, rollback_to snapshot c')
    end.

(** Lines 606-617: a plain [execute] on the pooled connection, outside
    any transaction. *)
Definition set_source_enabled (value : bool) (source_id : Z) : M unit :=
  let! _ := get_conn in
  let! _ := exec fault (Update Tsources ["enabled"] [Atom (AEqParam "id")])
                 [bool_val value; VInt source_id] in
  ret tt.

End Catalog.

(** The [settings] table ([key] PRIMARY KEY, [value]) as a list of rows.
    It is separate from [db]; the functions below take the pool's
    availability for [get_conn] and the rows. *)

(** [INSERT INTO Settings (key, value) VALUES (?1, ?2) ON CONFLICT(key)
    DO UPDATE SET value = ?2]. [key] is the primary key, so the rows
    with that key are the one conflicting row. *)
Definition settings_upsert (key value : string) (rs : list row) : list row :=
  if existsb (fun r => holds (sql_eq (col r "key") (VText key))) rs
  then map (fun r => if holds (sql_eq (col r "key") (VText key))
                     then set_col r "value" (VText value) else r) rs
  else rs ++ [[("key", VText key); ("value", VText value)]%string].

(** Lines 297-312: one upsert per entry of the [HashMap], in its
    iteration order (here [map_to_list]), then COMMIT. A TEXT key and
    value never make the upsert fail. *)
Definition update_settings (available : bool) (m : gmap string string) (rs : list row)
  : res unit * list row :=
  if available
  then (Ok tt, fold_left (fun acc kv => settings_upsert kv.1 kv.2 acc) (map_to_list m) rs)
  else (Err "No sqlite conns available", rs).

(** One row of [get_settings]: kept when both columns read as [String],
    dropped otherwise ([filter_map(Result::ok)]). A later row overwrites
    an earlier one when the map is collected. *)
Definition settings_step (acc : gmap string string) (r : row) : gmap string string :=
  match get_string (col r "key"), get_string (col r "value") with
  | Some k, Some v => <[k := v]> acc
  | _, _ => acc
  end.

(** Lines 283-295. *)
Definition get_settings (available : bool) (rs : list row) : res (gmap string string) :=
  if available then Ok (fold_left settings_step rs ∅)
  else Err "No sqlite conns available".

(** [row.get::<_, Option<bool>>(..)]: NULL is [None], an integer is
    [Some (z <> 0)]. *)
Definition get_opt_bool (v : sql_value) : option (option bool) :=
  match v with VInt z => Some (Some (negb (z =? 0))) | VNull => Some None | _ => None end.

(** Lines 580-592. [url_origin] is not a column and is not part of the
    model of [Source]; [source_type] is read as a [u8]. *)
Definition row_to_source (r : row) : option Source.t :=
  id ← get_opt_i64 (col r "id");
  name ← get_string (col r "name");
  username ← get_opt_string (col r "username");
  password ← get_opt_string (col r "password");
  url ← get_opt_string (col r "url");
  source_type ← get_u8 (col r "source_type");
  enabled ← get_bool (col r "enabled");
  use_tvg_id ← get_opt_bool (col r "use_tvg_id");
  Some (Source.mk id name source_type url username password enabled use_tvg_id).

(** Lines 560-568. *)
Definition get_sources : M (list Source.t) :=
  let! _ := get_conn in
  let! rs := query (Select Tsources [] false) [] in
  ret (omap row_to_source rs).

(** Lines 570-578: [WHERE enabled = 1]. *)
Definition get_enabled_sources : M (list Source.t) :=
  let! _ := get_conn in
  let! rs := query (Select Tsources [Atom (AEqLit "enabled" (VInt 1))] false) [] in
  ret (omap row_to_source rs).

(** Lines 272-281. *)
Definition row_to_channel_headers (r : row) : option ChannelHttpHeaders.t :=
  id ← get_opt_i64 (col r "id");
  channel_id ← get_opt_i64 (col r "channel_id");
  http_origin ← get_opt_string (col r "http_origin");
  referrer ← get_opt_string (col r "referrer");
  user_agent ← get_opt_string (col r "user_agent");
  ignore_ssl ← get_opt_bool (col r "ignore_ssl");
  Some (ChannelHttpHeaders.mk id channel_id referrer user_agent http_origin ignore_ssl).

(** Lines 260-270: [query_row(..).optional()?]. No row is [None]; a first
    row that does not convert is an error. *)
Definition get_channel_headers_by_id (id : Z) : M (option ChannelHttpHeaders.t) :=
  let! _ := get_conn in
  let! rs := query (Select Tchannel_http_headers [Atom (AEqParam "channel_id")] false) [VInt id] in
  match rs with
  | [] => ret None
  | r :: _ =>
      match row_to_channel_headers r with
      | Some h => ret (Some h)
      | None => fail "InvalidColumnType"
      end
  end.

(* ------------------------------------------------------------------ *)
(** ** Sample states *)

(** A [channels] row as [insert_channel] writes it: livestream, no series. *)
Definition sample_channel_row (id : Z) (name : string) (source_id : Z) (favorite : bool)
  (group_id : option Z) : row :=
  [("id", VInt id); ("name", VText name); ("image", VNull);
   ("url", VText (String.append "http://" name)); ("media_type", VInt media_type.LIVESTREAM);
   ("source_id", VInt source_id); ("favorite", bool_val favorite); ("series_id", VNull);
   ("group_id", opt_int group_id)]%string.

Definition sample_group_row (id : Z) (name : string) (source_id : Z) : row :=
  [("id", VInt id); ("name", VText name); ("image", VNull); ("source_id", VInt source_id)]%string.

(** A [sources] row, enabled. *)
Definition sample_source_row (id : Z) (name : string) : row :=
  [("id", VInt id); ("name", VText name); ("source_type", VInt 2);
   ("enabled", VInt 1)]%string.

(** Source 1 with a favorite channel A that has no group, and a
    non-favorite channel B in group 10 ("News"). *)
Definition sample_db : db :=
  mkDb [sample_source_row 1 "Provider"]
    [sample_channel_row 1 "A" 1 true None; sample_channel_row 2 "B" 1 false (Some 10)]
    [sample_group_row 10 "News" 1] [].

Definition sample_conn : conn := mkConn sample_db 0 true true.

(** Forty groups of source 1: category browse has two pages of 36. *)
Definition forty_groups_conn : conn :=
  mkConn (mkDb [sample_source_row 1 "Provider"] []
                (map (fun i => sample_group_row (Z.of_nat i) "G" 1) (seq 1 40)) []) 0 true true.

Definition sample_channel (id : Z) (name : string) (url : string) : Channel.t :=
  Channel.mk (Some id) name None None (Some url) media_type.LIVESTREAM (Some 1) None None false.

Definition empty_headers : ChannelHttpHeaders.t := ChannelHttpHeaders.mk None None None None None None.

Definition sample_filters (page : Z) (view : Z) (media : option (list Z)) (sources : list Z)
  (group : option Z) (series : option Z) : Filters.t :=
  Filters.mk page None media sources view group series.

Definition sample_source : Source.t := Source.mk None "S" 0 None None None true None.

(* ================================================================== *)
(** * Lemmas *)

Lemma and3_assoc (a b c : option bool) : and3 (and3 a b) c = and3 a (and3 b c).
Proof. destruct a as [[|]|], b as [[|]|], c as [[|]|]; reflexivity. Qed.

Lemma and3_true_l (a : option bool) : and3 (Some true) a = a.
Proof. destruct a as [[|]|]; reflexivity. Qed.

Lemma and3_false_r (a : option bool) : and3 a (Some false) = Some false.
Proof. destruct a as [[|]|]; reflexivity. Qed.

Lemma holds_and3 (a b : option bool) : holds (and3 a b) = holds a && holds b.
Proof. destruct a as [[|]|], b as [[|]|]; reflexivity. Qed.

Lemma eval_where_app (d : db) (w1 w2 : list cond) (ps : list sql_value) (r : row) :
  eval_where d (w1 ++ w2) ps r
  = and3 (eval_where d w1 ps r) (eval_where d w2 (skipn (where_arity w1) ps) r).
Proof.
  revert ps. induction w1 as [|c w1 IH]; intros ps.
  - change (skipn (where_arity []) ps) with ps. simpl. destruct (eval_where d w2 ps r) as [[|]|]; reflexivity.
  - simpl. rewrite IH, and3_assoc, skipn_skipn. unfold where_arity. simpl.
    rewrite Nat.add_comm. reflexivity.
Qed.

Lemma firstn_length_app {A} (l1 l2 : list A) : firstn (length l1) (l1 ++ l2) = l1.
Proof. induction l1; simpl; [reflexivity | now rewrite IHl1]. Qed.

Lemma skipn_length_app {A} (l1 l2 : list A) : skipn (length l1) (l1 ++ l2) = l2.
Proof. induction l1; simpl; [reflexivity | exact IHl1]. Qed.

Lemma in_firstn_skipn {A} (x : A) (n m : nat) (l : list A) :
  In x (firstn n (skipn m l)) -> In x l.
Proof.
  revert n m. induction l as [|y l IH]; intros n m H.
  - destruct n, m; simpl in H; contradiction.
  - destruct m as [|m].
    + destruct n as [|n]; simpl in H; [contradiction|].
      destruct H as [H|H]; [left; exact H | right; apply (IH n 0%nat), H].
    + right. apply (IH n m), H.
Qed.

(** A LIMIT query whose WHERE parameters come first, followed by the
    offset and the row count. *)
Lemma select_limit_ok (t : table) (w : list cond) (wps : list sql_value) (o l : Z) (d : db) :
  length wps = where_arity w ->
  select_rows (Select t w true) (wps ++ [VInt o; VInt l]) d
  = apply_limit (VInt o) (VInt l) (List.filter (fun r => holds (eval_where d w wps r)) (get_table d t)).
Proof.
  intros Hlen. unfold select_rows. simpl stmt_arity.
  rewrite length_app, Hlen. simpl length. rewrite Nat.eqb_refl. simpl negb. cbv iota.
  rewrite <- Hlen, firstn_length_app, skipn_length_app. reflexivity.
Qed.

Lemma in_apply_limit (o l : Z) (rs out : list row) (r : row) :
  apply_limit (VInt o) (VInt l) rs = Ok out -> In r out -> In r rs.
Proof.
  simpl. intros H Hin. injection H as <-.
  destruct (l <? 0); [| apply in_firstn_skipn in Hin; exact Hin].
  revert rs Hin. induction (Z.to_nat o) as [|k IH]; intros rs Hin; [exact Hin|].
  destruct rs as [|y rs]; simpl in Hin; [contradiction | right; apply IH, Hin].
Qed.

Lemma in_collect_rows (f : row -> option Channel.t) (rs : list row) (ch : Channel.t) :
  In ch (collect_rows f rs) -> exists r, In r rs /\ f r = Some ch.
Proof.
  unfold collect_rows. induction rs as [|r rs IH]; simpl; [contradiction|].
  destruct (f r) as [ch'|] eqn:E.
  - intros [<-|H]; [exists r; auto | destruct (IH H) as (r' & ? & ?); exists r'; auto].
  - intros H. destruct (IH H) as (r' & ? & ?). exists r'. auto.
Qed.

Lemma eval_where_false_atom (d : db) (w1 : list cond) (a : atom) (w2 : list cond)
  (ps : list sql_value) (r : row) :
  (forall qs, eval_atom a (firstn (atom_arity a) qs) r = Some false) ->
  eval_where d (w1 ++ Atom a :: w2) ps r = Some false.
Proof.
  intros Ha. rewrite eval_where_app. simpl eval_where at 2. simpl eval_cond.
  rewrite Ha. simpl and3 at 2. apply and3_false_r.
Qed.

Lemma holds_where_atom (d : db) (w1 : list cond) (a : atom) (w2 : list cond)
  (ps : list sql_value) (r : row) :
  holds (eval_where d (w1 ++ Atom a :: w2) ps r) = true ->
  holds (eval_atom a (firstn (atom_arity a) (skipn (where_arity w1) ps)) r) = true.
Proof.
  rewrite eval_where_app, holds_and3. intros H. apply andb_prop in H as [_ H].
  simpl in H. rewrite holds_and3 in H. apply andb_prop in H as [H _]. exact H.
Qed.

Lemma holds_sql_eq_int (v : sql_value) (z : Z) : holds (sql_eq v (VInt z)) = true -> v = VInt z.
Proof.
  destruct v as [|x|x]; simpl; try discriminate.
  destruct (Z.eqb_spec x z); [intros _; subst; reflexivity | discriminate].
Qed.

Lemma holds_sql_in_single (v : sql_value) (z : Z) : holds (sql_in v [VInt z]) = true -> v = VInt z.
Proof.
  simpl. destruct (sql_eq v (VInt z)) as [[|]|] eqn:E; simpl; try discriminate.
  intros _. apply holds_sql_eq_int. rewrite E. reflexivity.
Qed.

Lemma search_group_where_arity (f : Filters.t) :
  length (search_group_where_params f) = where_arity (search_group_where f).
Proof.
  unfold search_group_where_params, search_group_where, where_arity. simpl.
  rewrite length_map. lia.
Qed.

Lemma search_channel_where_arity (f : Filters.t) (mts : list Z) :
  length (search_channel_where_params f mts) = where_arity (search_channel_where f mts).
Proof.
  unfold search_channel_where_params, search_channel_where, where_arity.
  destruct (_ && _), (Filters.series_id f), (Filters.group_id f);
    simpl; rewrite ?length_app, ?length_map; simpl; lia.
Qed.

Lemma search_media_types_series (f : Filters.t) (c : conn) (sid : Z) :
  Filters.series_id f = Some sid -> search_media_types f c = (Ok episode_media_types, c).
Proof. intros Hs. unfold search_media_types. rewrite Hs. reflexivity. Qed.

Lemma search_media_types_given (f : Filters.t) (c : conn) (m : list Z) :
  Filters.series_id f = None -> Filters.media_types f = Some m -> search_media_types f c = (Ok m, c).
Proof. intros Hs Hm. unfold search_media_types. rewrite Hs, Hm. reflexivity. Qed.

(** What the group browse returns: the mapped rows of a window of the
    [groups] rows that satisfy its WHERE clause. *)
Lemma search_group_rows (f : Filters.t) (c : conn) :
  conns_available c = true ->
  exists rows, search_group f c = (Ok (collect_rows row_to_group rows), c) /\
    forall r, In r rows -> In r (groups (cdb c)) /\
      holds (eval_where (cdb c) (search_group_where f) (search_group_where_params f) r) = true.
Proof.
  intros Hc. unfold search_group, bind, get_conn. rewrite Hc.
  unfold search_group_query, query. cbn beta iota.
  rewrite select_limit_ok by apply search_group_where_arity.
  destruct (apply_limit _ _ _) as [rows| |] eqn:E.
  - exists rows. split; [reflexivity|]. intros r Hin.
    apply (in_apply_limit _ _ _ _ r E), filter_In in Hin. exact Hin.
  - simpl in E. discriminate.
  - simpl in E. discriminate.
Qed.

(** What the channel browse returns, once the media-type list is chosen. *)
Lemma search_channel_rows (f : Filters.t) (c : conn) (mts : list Z) :
  conns_available c = true ->
  routes_to_groups f = false ->
  search_media_types f c = (Ok mts, c) ->
  exists rows, search f c = (Ok (collect_rows row_to_channel rows), c) /\
    forall r, In r rows -> In r (channels (cdb c)) /\
      holds (eval_where (cdb c) (search_channel_where f mts) (search_channel_where_params f mts) r) = true.
Proof.
  intros Hc Hr Hm. unfold search. rewrite Hr. unfold bind at 1, get_conn. rewrite Hc.
  unfold bind at 1. rewrite Hm.
  unfold search_channel_query, query, bind. cbn beta iota.
  rewrite select_limit_ok by apply search_channel_where_arity.
  destruct (apply_limit _ _ _) as [rows| |] eqn:E.
  - exists rows. split; [reflexivity|]. intros r Hin.
    apply (in_apply_limit _ _ _ _ r E), filter_In in Hin. exact Hin.
  - simpl in E. discriminate.
  - simpl in E. discriminate.
Qed.

Lemma row_to_group_kind (r : row) (ch : Channel.t) :
  row_to_group r = Some ch -> Channel.media_type ch = media_type.GROUP /\ Channel.url ch = None.
Proof.
  intros Hr. unfold row_to_group, mbind, option_bind in Hr.
  repeat case_match; simplify_eq; split; reflexivity.
Qed.

Lemma row_to_channel_url (r : row) (ch : Channel.t) :
  row_to_channel r = Some ch -> col r "url" <> VNull ->
  exists u, col r "url" = VText u /\ Channel.url ch = Some u.
Proof.
  intros Hr Hn. unfold row_to_channel, mbind, option_bind in Hr.
  repeat case_match; simplify_eq.
  match goal with
  | Hu : get_opt_string (col r "url"%string) = Some _ |- _ =>
      destruct (col r "url"%string) as [| |u]; simpl in Hu; simplify_eq; try congruence;
      exists u; split; reflexivity
  end.
Qed.

Lemma skipn_where_params (q : string) (l1 l2 : list Z) (extra : list sql_value) :
  skipn (1 + length l1 + length l2) (VText q :: map VInt l1 ++ map VInt l2 ++ extra) = extra.
Proof.
  simpl. rewrite app_assoc.
  replace (length l1 + length l2)%nat with (length (map VInt l1 ++ map VInt l2))
    by (rewrite length_app, !length_map; reflexivity).
  apply skipn_length_app.
Qed.

(** *** Foreign keys *)

Lemma filter_all_true {A} (p : A -> bool) (l : list A) :
  (forall x, In x l -> p x = true) -> List.filter p l = l.
Proof.
  induction l as [|x l IH]; intros H; simpl; [reflexivity|].
  rewrite (H x (or_introl eq_refl)), IH; [reflexivity|]. intros y Hy. apply H. right. exact Hy.
Qed.

Lemma filter_all_false {A} (p : A -> bool) (l : list A) :
  (forall x, In x l -> p x = false) -> List.filter p l = [].
Proof.
  induction l as [|x l IH]; intros H; simpl; [reflexivity|].
  rewrite (H x (or_introl eq_refl)). apply IH. intros y Hy. apply H. right. exact Hy.
Qed.

Lemma sql_value_eqb_refl (v : sql_value) : sql_value_eqb v v = true.
Proof. destruct v; simpl; [reflexivity | apply Z.eqb_refl | apply String.eqb_refl]. Qed.

Lemma with_db_same (c : conn) : with_db c (cdb c) (last_insert_rowid c) = c.
Proof. destruct c; reflexivity. Qed.

(** Whether a key has a parent depends only on the parents' ids. *)
Lemma has_parent_ids (old new : db) :
  (forall p r, In r (get_table old p) -> exists r', In r' (get_table new p) /\ col r' "id" = col r "id") ->
  forall p v, has_parent old p v = true -> has_parent new p v = true.
Proof.
  intros H p v. destruct v as [|z|z]; simpl; [reflexivity| |];
    intros Hp; apply existsb_exists in Hp as (pr & Hin & Hh);
    destruct (H p pr Hin) as (r' & Hin' & Hid); apply existsb_exists; exists r';
    rewrite Hid; auto.
Qed.

(** A statement that keeps every parent key cascades nothing. *)
Lemma cascade_keep (old new : db) :
  (forall p v, has_parent old p v = true -> has_parent new p v = true) ->
  cascade old new = new.
Proof.
  intros H.
  assert (Hc : forall t, cascade_table old new t = get_table new t).
  { intros t. unfold cascade_table. apply filter_all_true. intros r _.
    apply negb_true_iff. induction (foreign_keys_of t) as [|[[k p] casc] fks IH]; [reflexivity|].
    simpl. rewrite IH, orb_false_r.
    destruct (has_parent old p (col r k)) eqn:E; [rewrite (H _ _ E)|];
      destruct casc; simpl; rewrite ?andb_false_r; reflexivity. }
  unfold cascade. rewrite !Hc. destruct new; reflexivity.
Qed.

(** A statement that keeps every parent key and every child key passes
    the foreign-key check. *)
Lemma fk_ok_keep (old new : db) :
  (forall p v, has_parent old p v = true -> has_parent new p v = true) ->
  (forall ct k p casc r, In (k, p, casc) (foreign_keys_of ct) -> In r (get_table new ct) ->
     exists r0, In r0 (get_table old ct) /\ col r0 "id" = col r "id" /\ col r0 k = col r k) ->
  fk_ok old new = true.
Proof.
  intros Hp Hr. unfold fk_ok. apply forallb_forall. intros ct _.
  apply forallb_forall. intros [[k p] casc] Hfk. apply forallb_forall. intros r Hin.
  destruct (Hr ct k p casc r Hfk Hin) as (r0 & Hin0 & Hid & Hk). unfold fk_row_ok.
  destruct (has_parent old p (col r0 k)) eqn:E.
  - rewrite Hk in E. rewrite (Hp _ _ E). reflexivity.
  - apply orb_true_iff. right. apply existsb_exists. exists r0. split; [exact Hin0|].
    rewrite E, Hid, Hk, !sql_value_eqb_refl. reflexivity.
Qed.

(** Such a statement behaves the same whether or not the connection
    enforces foreign keys. *)
Lemma execute_write_keep (s : stmt) (ps : list sql_value) (c c' : conn) (n : nat) :
  execute_statement s ps c = Ok (n, c') ->
  (forall p v, has_parent (cdb c) p v = true -> has_parent (cdb c') p v = true) ->
  (forall ct k p casc r, In (k, p, casc) (foreign_keys_of ct) -> In r (get_table (cdb c') ct) ->
     exists r0, In r0 (get_table (cdb c) ct) /\ col r0 "id" = col r "id" /\ col r0 k = col r k) ->
  execute_write s ps c = Ok (n, c').
Proof.
  intros Hs Hp Hr. unfold execute_write. rewrite Hs.
  destruct (foreign_keys c); [|reflexivity].
  cbv zeta. rewrite (cascade_keep _ _ Hp), (fk_ok_keep _ _ Hp Hr), with_db_same. reflexivity.
Qed.

Lemma execute_write_same (s : stmt) (ps : list sql_value) (c : conn) (n : nat) :
  execute_statement s ps c = Ok (n, c) -> execute_write s ps c = Ok (n, c).
Proof.
  intros Hs. apply (execute_write_keep _ _ _ _ _ Hs); [tauto|].
  intros ct k p casc r _ Hr. exists r. auto.
Qed.

Lemma execute_write_fk_off (s : stmt) (ps : list sql_value) (c : conn) :
  foreign_keys c = false -> execute_write s ps c = execute_statement s ps c.
Proof.
  intros H. unfold execute_write.
  destruct (execute_statement s ps c) as [[n c']| |]; try rewrite H; reflexivity.
Qed.

Lemma execute_write_err (s : stmt) (ps : list sql_value) (c : conn) (e : string) :
  execute_statement s ps c = Err e -> execute_write s ps c = Err e.
Proof. intros H. unfold execute_write. rewrite H. reflexivity. Qed.

Lemma execute_write_ok_inv (s : stmt) (ps : list sql_value) (c c' : conn) (n : nat) :
  execute_write s ps c = Ok (n, c') ->
  exists c0, execute_statement s ps c = Ok (n, c0) /\
    c' = if foreign_keys c then with_db c0 (cascade (cdb c) (cdb c0)) (last_insert_rowid c0) else c0.
Proof.
  unfold execute_write. destruct (execute_statement s ps c) as [[n0 c0]| |]; try discriminate.
  destruct (foreign_keys c); [destruct (fk_ok _ _); [|discriminate]|];
    intros H; injection H as <- <-; eexists; split; reflexivity.
Qed.

Lemma get_set_table_eq (d : db) (t : table) (l : list row) : get_table (set_table d t l) t = l.
Proof. destruct t; reflexivity. Qed.

Lemma get_set_table_ne (d : db) (t p : table) (l : list row) :
  p <> t -> get_table (set_table d t l) p = get_table d p.
Proof. destruct t, p; intros H; try reflexivity; congruence. Qed.

(** A plain INSERT either changes nothing or appends one row. *)
Lemma execute_insert_shape (t : table) (b : bool) (cols : list string) (ps : list sql_value)
  (c c0 : conn) (n : nat) :
  execute_statement (Insert t b cols None) ps c = Ok (n, c0) ->
  c0 = c \/ exists r rid, c0 = with_db c (set_table (cdb c) t (get_table (cdb c) t ++ [r])) rid.
Proof.
  unfold execute_statement. destruct (negb _); [discriminate|]. cbv zeta.
  destruct (find _ _); [destruct b; [|discriminate]|];
    intros H; injection H as <- <-; [left; reflexivity | right; eexists _, _; reflexivity].
Qed.

(** Appending rows keeps every parent key. *)
Lemma append_parents (d : db) (t : table) (l : list row) :
  forall p v, has_parent d p v = true -> has_parent (set_table d t (get_table d t ++ l)) p v = true.
Proof.
  apply has_parent_ids. intros p r Hin. exists r. split; [|reflexivity].
  destruct t, p; simpl in *; try apply in_or_app; auto.
Qed.

(** An INSERT into a table that no foreign key refers from behaves the
    same whether or not the connection enforces foreign keys. *)
Lemma execute_write_insert_unchecked (t : table) (b : bool) (cols : list string)
  (ps : list sql_value) (c : conn) :
  (forall ct k p casc, In (k, p, casc) (foreign_keys_of ct) -> ct <> t) ->
  execute_write (Insert t b cols None) ps c = execute_statement (Insert t b cols None) ps c.
Proof.
  intros Ht. destruct (execute_statement (Insert t b cols None) ps c) as [[n c0]| |] eqn:E.
  - apply (execute_write_keep _ _ _ _ _ E).
    + destruct (execute_insert_shape _ _ _ _ _ _ _ E) as [->|(r & rid & ->)]; [tauto|].
      apply append_parents.
    + intros ct k p casc r Hfk Hr. exists r. split; [|auto].
      destruct (execute_insert_shape _ _ _ _ _ _ _ E) as [->|(r' & rid & ->)]; [exact Hr|].
      cbn [cdb with_db] in Hr. rewrite get_set_table_ne in Hr; [exact Hr | exact (Ht _ _ _ _ Hfk)].
  - apply execute_write_err, E.
  - unfold execute_write. rewrite E. reflexivity.
Qed.

Lemma sources_unchecked (ct : table) (k : string) (p : table) (casc : bool) :
  In (k, p, casc) (foreign_keys_of ct) -> ct <> Tsources.
Proof. destruct ct; simpl; intros H; [contradiction | discriminate ..]. Qed.

(** [INSERT OR IGNORE] of a row that meets an existing row in a unique
    index changes nothing. *)
Lemma execute_insert_ignore_collision (t : table) (cols : list string) (ps : list sql_value)
  (c : conn) (r : row) :
  length ps = length cols -> In r (get_table (cdb c) t) ->
  collides t (insert_row t (next_rowid (get_table (cdb c) t)) cols ps) r = true ->
  execute_write (Insert t true cols None) ps c = Ok (0%nat, c).
Proof.
  intros Hl Hin Hc. apply execute_write_same. unfold execute_statement. simpl stmt_arity. rewrite Hl, Nat.eqb_refl. simpl negb.
  cbn beta iota zeta.
  destruct (find _ _) as [r'|] eqn:Hf; [reflexivity|].
  apply (find_none _ _ Hf) in Hin. congruence.
Qed.

(** The lookup of [create_or_find_source_by_name] keeps the rows whose
    name equals the bound name. *)
Lemma select_source_by_name (n : string) (d : db) :
  select_rows (Select Tsources [Atom (AEqParam "name")] false) [VText n] d
  = Ok (List.filter (fun r => holds (sql_eq (col r "name") (VText n))) (sources d)).
Proof.
  unfold select_rows. simpl. f_equal.
  induction (sources d) as [|r rs IH]; [reflexivity|]. simpl. rewrite IH.
  destruct (sql_eq (col r "name") (VText n)) as [[|]|]; reflexivity.
Qed.

Lemma holds_sql_eq_text (v : sql_value) (n : string) :
  holds (sql_eq v (VText n)) = true -> v = VText n.
Proof.
  destruct v as [|z|m]; simpl; try discriminate.
  destruct (String.eqb m n) eqn:E; [|discriminate]. apply String.eqb_eq in E. now subst.
Qed.

(** Under the [index_source_name] invariant, at most one source row has
    a given name. *)
Lemma unique_sources_by_name (n : string) (rs : list row) :
  unique_ok Tsources rs = true ->
  (length (List.filter (fun r => holds (sql_eq (col r "name") (VText n))) rs) <= 1)%nat.
Proof.
  induction rs as [|r rs IH]; simpl; [lia|].
  intros Hu. apply andb_true_iff in Hu as [Hall Hu].
  destruct (holds (sql_eq (col r "name") (VText n))) eqn:Hr; [|exact (IH Hu)].
  enough (List.filter (fun r0 => holds (sql_eq (col r0 "name") (VText n))) rs = []) as ->
    by (simpl; lia).
  apply holds_sql_eq_text in Hr. clear IH.
  induction rs as [|r' rs IH']; [reflexivity|]. simpl in Hall |- *.
  apply andb_true_iff in Hall as [Hr' Hall]. simpl in Hu. apply andb_true_iff in Hu as [_ Hu].
  destruct (holds (sql_eq (col r' "name") (VText n))) eqn:E.
  - apply holds_sql_eq_text in E. unfold collides, index_collides in Hr'. simpl in Hr'.
    rewrite Hr, E in Hr'. simpl in Hr'. rewrite String.eqb_refl, orb_true_r in Hr'. discriminate.
  - exact (IH' Hall Hu).
Qed.

(* ================================================================== *)
(** * Claims *)

(** Claim C1. Custom-channel edit is atomic: when any step of
    [edit_custom_channel_tx] fails (the channel UPDATE, the header upsert
    or the header DELETE), [edit_custom_channel] returns that single error.
    The database is then exactly as before the call: no channel column and
    no header row is changed. This holds for every engine-failure oracle. *)
Theorem edit_custom_channel_atomic
  (fault : stmt -> list sql_value -> conn -> option string) (commit_fault : conn -> option string)
  (channel : CustomChannel.t) (c : conn) (e : string) :
  conns_available c = true ->
  fst (edit_custom_channel_tx fault channel c) = Err e ->
  fst (edit_custom_channel fault commit_fault channel c) = Err e /\
  cdb (snd (edit_custom_channel fault commit_fault channel c)) = cdb c.
Proof.
  intros Hc Hbody. unfold edit_custom_channel, bind, get_conn. rewrite Hc.
  destruct (edit_custom_channel_tx fault channel c) as [r c'] eqn:E.
  simpl in Hbody. subst r. split; reflexivity.
Qed.

Lemma edit_custom_channel_atomic_witness :
  conns_available sample_conn = true /\
  fst (edit_custom_channel_tx no_fault
         (CustomChannel.mk (sample_channel 1 "B" "http://B") None) sample_conn)
    = Err "UNIQUE constraint failed"%string /\
  fst (edit_custom_channel no_fault no_commit_fault
         (CustomChannel.mk (sample_channel 1 "B" "http://B") None) sample_conn)
    = Err "UNIQUE constraint failed"%string /\
  cdb (snd (edit_custom_channel no_fault no_commit_fault
              (CustomChannel.mk (sample_channel 1 "B" "http://B") None) sample_conn))
    = cdb sample_conn.
Proof.
  assert (H1 : conns_available sample_conn = true) by reflexivity.
  assert (H2 : fst (edit_custom_channel_tx no_fault
                      (CustomChannel.mk (sample_channel 1 "B" "http://B") None) sample_conn)
               = Err "UNIQUE constraint failed"%string) by (vm_compute; reflexivity).
  split; [exact H1 | split; [exact H2 |]].
  exact (edit_custom_channel_atomic no_fault no_commit_fault _ sample_conn _ H1 H2).
Defined.

(** Claim C10. [search] is not total: when the media-kinds set is
    [None], the series scope is [None], and the query does not go to the
    group browse (the view is not categories, or a group scope is set),
    [search] panics in [Option::unwrap]. It does not return an error value.
    The state is a connection from the pool. *)
Theorem search_unwrap_panics (f : Filters.t) (c : conn) :
  conns_available c = true ->
  Filters.media_types f = None ->
  Filters.series_id f = None ->
  (Filters.view_type f <> view_type.CATEGORIES \/ Filters.group_id f <> None) ->
  search f c = (Panic "called `Option::unwrap()` on a `None` value"%string, c).
Proof.
  intros Hc Hm Hs Hshape.
  assert (Hr : routes_to_groups f = false).
  { unfold routes_to_groups. rewrite Hs. simpl.
    destruct Hshape as [Hv | Hg].
    - apply Z.eqb_neq in Hv. rewrite Hv. reflexivity.
    - destruct (Filters.group_id f); [|congruence]. rewrite andb_false_r. reflexivity. }
  unfold search. rewrite Hr. unfold bind, get_conn. rewrite Hc.
  unfold search_media_types. rewrite Hs, Hm. reflexivity.
Qed.

Lemma search_unwrap_panics_witness :
  search (sample_filters 1 view_type.ALL None [1] None None) sample_conn
  = (Panic "called `Option::unwrap()` on a `None` value"%string, sample_conn).
Proof.
  apply search_unwrap_panics; [reflexivity | reflexivity | reflexivity |].
  left. unfold sample_filters, view_type.ALL, view_type.CATEGORIES. simpl. lia.
Defined.

(** The channel browse computes its offset in u16, which is exact for
    every page 1..255: [(page - 1) * 36]. *)
Lemma search_channel_offset (f : Filters.t) (mts : list Z) :
  1 <= Filters.page f <= 255 ->
  exists wps, snd (search_channel_query f mts)
              = wps ++ [VInt ((Filters.page f - 1) * PAGE_SIZE); VInt PAGE_SIZE].
Proof.
  intros Hp. unfold search_channel_query. cbn [snd].
  assert (Ho : wrap_u16 (Filters.page f * PAGE_SIZE - PAGE_SIZE) = (Filters.page f - 1) * PAGE_SIZE)
    by (unfold wrap_u16, PAGE_SIZE; rewrite Z.mod_small; lia).
  rewrite Ho. eexists. reflexivity.
Qed.

(** Claim C2 (code_bug). The group browse computes its offset in u8:
    [page * PAGE_SIZE - PAGE_SIZE]. In a release build this wraps
    modulo 256, so page 9 binds offset 32 instead of 288. With forty
    groups, page 9 is past the last page, yet it returns the eight
    groups 33..40. *)
Theorem search_group_page_9_offset_wraps :
  snd (search_group_query (sample_filters 9 view_type.CATEGORIES None [1] None None))
    = [VText "%"; VInt 1; VInt 32; VInt 36] /\
  search (sample_filters 9 view_type.CATEGORIES None [1] None None) forty_groups_conn
    = (Ok (collect_rows row_to_group (skipn 32 (groups (cdb forty_groups_conn)))), forty_groups_conn) /\
  length (skipn 32 (groups (cdb forty_groups_conn))) = 8%nat.
Proof. vm_compute. repeat split; reflexivity. Qed.

(** Claim C4 (code_bug). In [sample_db], source 1 has a favorite channel
    A that has no group (group_id NULL) and a non-favorite channel B in
    group 10. Channel B is deleted and channel A is kept. Group 10 is not
    referenced by any favorite channel, yet it survives: the subquery
    yields NULL for A, so [id NOT IN (NULL)] is NULL for every group, and
    no group is deleted. *)
Theorem refresh_keeps_unreferenced_group :
  refresh_source_cleanup no_fault 1 sample_conn
  = (Ok tt, mkConn (mkDb [sample_source_row 1 "Provider"] [sample_channel_row 1 "A" 1 true None]
                         [sample_group_row 10 "News" 1] [])
                   0 true true).
Proof. vm_compute. reflexivity. Qed.

Lemma exec_insert_channels_headers
  (fault : stmt -> list sql_value -> conn -> option string) b cols ps (c : conn) :
  channel_http_headers (cdb (snd (exec fault (Insert Tchannels b cols None) ps c)))
  = channel_http_headers (cdb c).
Proof.
  unfold exec. destruct (fault _ ps c); [reflexivity|].
  destruct (execute_write _ ps c) as [[n c']| |] eqn:E; [|reflexivity|reflexivity].
  apply execute_write_ok_inv in E as (c0 & E & ->).
  apply execute_insert_shape in E as [-> | (r & rid & ->)]; destruct (foreign_keys c); try reflexivity.
  - cbn [snd]. unfold with_db. cbn [cdb]. rewrite cascade_keep by tauto. reflexivity.
  - cbn [snd]. unfold with_db. cbn [cdb]. rewrite cascade_keep by apply append_parents. reflexivity.
Qed.

(** The insert path keeps the header table as it is when the header set
    is all empty: [add_custom_channel] returns before
    [insert_channel_headers]. *)
Lemma add_custom_channel_empty_headers
  (fault : stmt -> list sql_value -> conn -> option string)
  (channel : CustomChannel.t) (h : ChannelHttpHeaders.t) (c : conn) :
  CustomChannel.headers channel = Some h ->
  channel_headers_empty h = true ->
  channel_http_headers (cdb (snd (add_custom_channel fault channel c)))
  = channel_http_headers (cdb c).
Proof.
  intros Hh He. unfold add_custom_channel, insert_channel, bind at 1.
  pose proof (exec_insert_channels_headers fault true
    ["name"; "group_id"; "image"; "url"; "source_id"; "media_type"; "series_id"; "favorite"]%string
    [VText (Channel.name (CustomChannel.data channel)); opt_int (Channel.group_id (CustomChannel.data channel));
     opt_text (Channel.image (CustomChannel.data channel)); opt_text (Channel.url (CustomChannel.data channel));
     opt_int (Channel.source_id (CustomChannel.data channel)); VInt (Channel.media_type (CustomChannel.data channel));
     opt_int (Channel.series_id (CustomChannel.data channel)); bool_val (Channel.favorite (CustomChannel.data channel))]
    c) as Hx.
  unfold bind in *.
  destruct (exec _ _ _ c) as [[n| e | p] c'] eqn:E; simpl in Hx |- *; try exact Hx.
  rewrite Hh, He. exact Hx.
Qed.

(** Claim C9 (code_bug). The edit path persists an all-empty header set.
    [edit_custom_channel_tx] has no [channel_headers_empty] check, so
    editing channel 1 with [Some] of an all-[None] header set inserts a
    [channel_http_headers] row for channel 1 whose fields are all NULL. *)
Theorem edit_custom_channel_persists_empty_headers :
  channel_headers_empty empty_headers = true /\
  channel_http_headers
    (cdb (snd (edit_custom_channel no_fault no_commit_fault
                 (CustomChannel.mk (sample_channel 1 "A" "http://A") (Some empty_headers)) sample_conn)))
  = [[("id", VInt 1); ("referrer", VNull); ("user_agent", VNull); ("http_origin", VNull);
      ("ignore_ssl", VNull); ("channel_id", VInt 1)]%string].
Proof. vm_compute. split; reflexivity. Qed.

(** Claim C3, counterexample. The compiler does not special-case an empty
    source set. [generate_placeholders 0] is empty, and the channel query
    for [source_ids = []] contains the literal text [source_id IN ()]. *)
Lemma search_empty_sources_not_special_cased :
  generate_placeholders 0 = ""%string /\
  render_select (fst (search_channel_query (sample_filters 1 view_type.ALL (Some [0]) [] None None) [0]))
  = "SELECT * FROM CHANNELS WHERE name LIKE ? AND media_type IN (?) AND source_id IN () AND url IS NOT NULL LIMIT ?, ?"%string.
Proof. vm_compute. split; reflexivity. Qed.

(** Claim C3, as amended. [search] emits [source_id IN ()] for an empty
    source set, and SQLite accepts that as false for every row. So with
    a connection available, [search] returns an empty list whenever the
    query goes to the group browse, or a series scope or a media-kinds
    set is given. In the remaining shape, [search] panics in [unwrap]
    before any query is built. *)
Theorem search_empty_sources_empty (f : Filters.t) (c : conn) :
  conns_available c = true ->
  Filters.source_ids f = [] ->
  (routes_to_groups f = true \/ Filters.series_id f <> None \/ Filters.media_types f <> None) ->
  search f c = (Ok [], c).
Proof.
  intros Hc Hs Hshape.
  destruct (routes_to_groups f) eqn:Hr.
  - unfold search. rewrite Hr.
    destruct (search_group_rows f c Hc) as (rows & Heq & Hrows). rewrite Heq.
    destruct rows as [|r rows]; [reflexivity|]. exfalso.
    destruct (Hrows r (or_introl eq_refl)) as [_ Hh].
    unfold search_group_where in Hh. rewrite Hs in Hh.
    change [Atom (ALike "name"); Atom (AInParams "source_id" (length (@nil Z)))]
      with ([Atom (ALike "name")] ++ Atom (AInParams "source_id" 0) :: []) in Hh.
    rewrite eval_where_false_atom in Hh; [discriminate | reflexivity].
  - assert (Hm : exists mts, search_media_types f c = (Ok mts, c)).
    { destruct (Filters.series_id f) as [sid|] eqn:Hsid.
      - exists episode_media_types. exact (search_media_types_series f c sid Hsid).
      - destruct (Filters.media_types f) as [m|] eqn:Hmt.
        + exists m. exact (search_media_types_given f c m Hsid Hmt).
        + destruct Hshape as [H | [H | H]]; [discriminate | congruence | congruence]. }
    destruct Hm as [mts Hm].
    destruct (search_channel_rows f c mts Hc Hr Hm) as (rows & Heq & Hrows). rewrite Heq.
    destruct rows as [|r rows]; [reflexivity|]. exfalso.
    destruct (Hrows r (or_introl eq_refl)) as [_ Hh].
    assert (Hw : search_channel_where f mts
                 = [Atom (ALike "name"); Atom (AInParams "media_type" (length mts))]
                   ++ Atom (AInParams "source_id" 0)
                   :: Atom (ANotNull "url")
                   :: (if (Filters.view_type f =? view_type.FAVORITES) && is_none (Filters.series_id f)
                       then [Atom (AEqLit "favorite" (VInt 1))] else [])
                   ++ (match Filters.series_id f, Filters.group_id f with
                       | Some _, _ => [Atom (AEqParam "series_id")]
                       | None, Some _ => [Atom (AEqParam "group_id")]
                       | None, None => []
                       end)).
    { unfold search_channel_where. rewrite Hs. reflexivity. }
    rewrite Hw, eval_where_false_atom in Hh; [discriminate | reflexivity].
Qed.

Lemma search_empty_sources_empty_witness :
  search (sample_filters 1 view_type.ALL (Some [0]) [] None None) sample_conn = (Ok [], sample_conn).
Proof.
  apply search_empty_sources_empty; [reflexivity | reflexivity |].
  right. right. discriminate.
Defined.

(** Claim C6, counterexample. A group scope with the categories view
    and no media-kinds set does not go to the group browse, and it does
    not return channel rows either: [search] panics. *)
Lemma search_group_scope_without_media_panics :
  search (sample_filters 1 view_type.CATEGORIES None [1] (Some 10) None) sample_conn
  = (Panic "called `Option::unwrap()` on a `None` value"%string, sample_conn).
Proof. vm_compute. reflexivity. Qed.

(** Claim C6, as amended. [search] runs the group browse exactly when
    the view is categories and both scopes are unset. That query returns
    entries of media type [GROUP] with url [None]. Every other shape that
    has a series scope or a media-kinds set runs the channel browse. That
    query returns [row_to_channel] images of stored [channels] rows whose
    url is non-NULL, so each returned url is [Some]. The remaining shape
    panics (claim C10). *)
Theorem search_query_shape (f : Filters.t) (c : conn) :
  conns_available c = true ->
  (routes_to_groups f = true ->
     search f c = search_group f c /\
     exists l, fst (search f c) = Ok l /\
       Forall (fun ch => Channel.media_type ch = media_type.GROUP /\ Channel.url ch = None) l) /\
  (routes_to_groups f = false ->
   (Filters.series_id f <> None \/ Filters.media_types f <> None) ->
     exists l, fst (search f c) = Ok l /\
       Forall (fun ch => exists r u, In r (channels (cdb c)) /\ col r "url" = VText u /\
                                     row_to_channel r = Some ch /\ Channel.url ch = Some u) l).
Proof.
  intros Hc. split.
  - intros Hr. assert (Hg : search f c = search_group f c) by (unfold search; rewrite Hr; reflexivity).
    split; [exact Hg|]. rewrite Hg.
    destruct (search_group_rows f c Hc) as (rows & Heq & _). rewrite Heq.
    exists (collect_rows row_to_group rows). split; [reflexivity|].
    apply List.Forall_forall. intros ch Hin.
    destruct (in_collect_rows _ _ _ Hin) as (r & _ & Hr2). exact (row_to_group_kind r ch Hr2).
  - intros Hr Hshape.
    assert (Hm : exists mts, search_media_types f c = (Ok mts, c)).
    { destruct (Filters.series_id f) as [sid|] eqn:Hsid.
      - exists episode_media_types. exact (search_media_types_series f c sid Hsid).
      - destruct (Filters.media_types f) as [m|] eqn:Hmt.
        + exists m. exact (search_media_types_given f c m Hsid Hmt).
        + destruct Hshape; congruence. }
    destruct Hm as [mts Hm].
    destruct (search_channel_rows f c mts Hc Hr Hm) as (rows & Heq & Hrows). rewrite Heq.
    exists (collect_rows row_to_channel rows). split; [reflexivity|].
    apply List.Forall_forall. intros ch Hin.
    destruct (in_collect_rows _ _ _ Hin) as (r & Hinr & Hch).
    destruct (Hrows r Hinr) as [Hstored Hh].
    assert (Hw : search_channel_where f mts
                 = [Atom (ALike "name"); Atom (AInParams "media_type" (length mts));
                    Atom (AInParams "source_id" (length (Filters.source_ids f)))]
                   ++ Atom (ANotNull "url")
                   :: (if (Filters.view_type f =? view_type.FAVORITES) && is_none (Filters.series_id f)
                       then [Atom (AEqLit "favorite" (VInt 1))] else [])
                   ++ (match Filters.series_id f, Filters.group_id f with
                       | Some _, _ => [Atom (AEqParam "series_id")]
                       | None, Some _ => [Atom (AEqParam "group_id")]
                       | None, None => []
                       end)) by reflexivity.
    rewrite Hw in Hh. apply holds_where_atom in Hh. simpl in Hh.
    assert (Hn : col r "url" <> VNull) by (destruct (col r "url"); discriminate).
    destruct (row_to_channel_url r ch Hch Hn) as (u & Hu & Hcu).
    exists r, u. repeat split; assumption.
Qed.

Lemma search_query_shape_witness :
  exists l, fst (search (sample_filters 1 view_type.ALL (Some [0]) [1] None None) sample_conn) = Ok l /\
    Forall (fun ch => exists r u, In r (channels (cdb sample_conn)) /\ col r "url" = VText u /\
                                  row_to_channel r = Some ch /\ Channel.url ch = Some u) l.
Proof.
  apply (proj2 (search_query_shape (sample_filters 1 view_type.ALL (Some [0]) [1] None None)
                  sample_conn eq_refl)); [reflexivity | right; discriminate].
Defined.

(** Claim C8. Series and group scoping of the channel browse. With a
    series scope [sid], the media-type list is [[1]] whatever the caller
    passed. The query has the [series_id = ?] predicate and no
    [group_id = ?] predicate, and a row it selects has [series_id = sid]
    and [media_type = 1]. Without a series scope, there is no
    [series_id = ?] predicate. A group scope [g] then adds [group_id = ?]
    and a selected row has [group_id = g]; without one, neither predicate
    is added. *)
Theorem search_scope_predicates (f : Filters.t) (c : conn) (mts : list Z) (d : db) (r : row) :
  search_media_types f c = (Ok mts, c) ->
  match Filters.series_id f with
  | Some sid =>
      mts = [1] /\
      In (Atom (AEqParam "series_id")) (search_channel_where f mts) /\
      ~ In (Atom (AEqParam "group_id")) (search_channel_where f mts) /\
      (holds (eval_where d (search_channel_where f mts) (search_channel_where_params f mts) r) = true ->
       col r "series_id" = VInt sid /\ col r "media_type" = VInt 1)
  | None =>
      ~ In (Atom (AEqParam "series_id")) (search_channel_where f mts) /\
      match Filters.group_id f with
      | Some g =>
          In (Atom (AEqParam "group_id")) (search_channel_where f mts) /\
          (holds (eval_where d (search_channel_where f mts) (search_channel_where_params f mts) r) = true ->
           col r "group_id" = VInt g)
      | None => ~ In (Atom (AEqParam "group_id")) (search_channel_where f mts)
      end
  end.
Proof.
  intros Hm. set (srcs := Filters.source_ids f).
  destruct (Filters.series_id f) as [sid|] eqn:Hs.
  - unfold search_media_types in Hm. rewrite Hs in Hm. injection Hm as Hm. unfold episode_media_types in Hm. subst mts.
    assert (Hw : search_channel_where f [1]
                 = [Atom (ALike "name"); Atom (AInParams "media_type" 1);
                    Atom (AInParams "source_id" (length srcs)); Atom (ANotNull "url")]
                   ++ Atom (AEqParam "series_id") :: []).
    { unfold search_channel_where. rewrite Hs. cbn [is_none]. rewrite andb_false_r. reflexivity. }
    assert (Hp : search_channel_where_params f [1]
                 = VText (to_sql_like (Filters.query f)) :: map VInt [1] ++ map VInt srcs ++ [VInt sid]).
    { unfold search_channel_where_params. rewrite Hs. reflexivity. }
    split; [reflexivity|]. rewrite Hw, Hp.
    split; [apply in_or_app; right; left; reflexivity|].
    split; [simpl; intuition discriminate|].
    intros Hh. split.
    + apply holds_where_atom in Hh.
      replace (where_arity _) with (1 + length [1%Z] + length srcs)%nat in Hh
        by (unfold where_arity; simpl; lia).
      rewrite skipn_where_params in Hh. simpl in Hh. apply holds_sql_eq_int, Hh.
    + change ([Atom (ALike "name"); Atom (AInParams "media_type" 1);
               Atom (AInParams "source_id" (length srcs)); Atom (ANotNull "url")]
              ++ [Atom (AEqParam "series_id")])
        with ([Atom (ALike "name")] ++ Atom (AInParams "media_type" 1)
              :: [Atom (AInParams "source_id" (length srcs)); Atom (ANotNull "url");
                  Atom (AEqParam "series_id")]) in Hh.
      apply holds_where_atom in Hh. simpl in Hh. apply holds_sql_in_single, Hh.
  - set (fav := if (Filters.view_type f =? view_type.FAVORITES) && is_none (@None Z)
                then [Atom (AEqLit "favorite" (VInt 1))] else []).
    assert (Hfav : where_arity fav = 0%nat).
    { unfold fav. destruct (_ && _); reflexivity. }
    assert (Hfav_in : forall a, In (Atom a) fav -> a = AEqLit "favorite" (VInt 1)).
    { intros a. unfold fav. destruct (_ && _); simpl; [intros [H|[]]; congruence | intros []]. }
    destruct (Filters.group_id f) as [g|] eqn:Hg.
    + assert (Hw : search_channel_where f mts
                   = ([Atom (ALike "name"); Atom (AInParams "media_type" (length mts));
                       Atom (AInParams "source_id" (length srcs)); Atom (ANotNull "url")] ++ fav)
                     ++ Atom (AEqParam "group_id") :: []).
      { unfold search_channel_where, fav. rewrite Hs, Hg, <- app_assoc. reflexivity. }
      assert (Hp : search_channel_where_params f mts
                   = VText (to_sql_like (Filters.query f)) :: map VInt mts ++ map VInt srcs ++ [VInt g]).
      { unfold search_channel_where_params. rewrite Hs, Hg. reflexivity. }
      rewrite Hw, Hp. split; [|split].
      * intros Hin. rewrite <- app_assoc in Hin. apply in_app_or in Hin as [Hin|Hin].
        -- simpl in Hin. intuition discriminate.
        -- apply in_app_or in Hin as [Hin|Hin].
           ++ apply Hfav_in in Hin. discriminate.
           ++ simpl in Hin. intuition discriminate.
      * apply in_or_app. right. left. reflexivity.
      * intros Hh. apply holds_where_atom in Hh.
        replace (where_arity _) with (1 + length mts + length srcs)%nat in Hh
          by (unfold where_arity; rewrite map_app, list_sum_app; fold (where_arity fav);
              rewrite Hfav; simpl; lia).
        rewrite skipn_where_params in Hh. simpl in Hh. apply holds_sql_eq_int, Hh.
    + assert (Hw : search_channel_where f mts
                   = [Atom (ALike "name"); Atom (AInParams "media_type" (length mts));
                      Atom (AInParams "source_id" (length srcs)); Atom (ANotNull "url")] ++ fav).
      { unfold search_channel_where, fav. rewrite Hs, Hg, app_nil_r. reflexivity. }
      rewrite Hw.
      split; intros Hin; apply in_app_or in Hin as [Hin|Hin];
        solve [simpl in Hin; intuition discriminate | apply Hfav_in in Hin; discriminate].
Qed.


Lemma search_scope_predicates_witness :
  search_media_types (sample_filters 1 view_type.ALL (Some [0]) [1] None (Some 7)) sample_conn
    = (Ok [1], sample_conn) /\
  In (Atom (AEqParam "series_id"))
     (search_channel_where (sample_filters 1 view_type.ALL (Some [0]) [1] None (Some 7)) [1]).
Proof.
  split; [reflexivity|].
  exact (proj1 (proj2 (search_scope_predicates
                         (sample_filters 1 view_type.ALL (Some [0]) [1] None (Some 7))
                         sample_conn [1] sample_db (sample_channel_row 1 "A" 1 true None) eq_refl))).
Defined.

(** Claim C5, counterexample. The cache is empty, and group "News" of
    source 1 is already stored. [set_channel_group_id] then fails with
    [Failed to insert group: News] and assigns no group id. *)
Lemma set_channel_group_id_existing_group_fails :
  fst (set_channel_group_id no_fault ∅
         (Channel.mk None "C" (Some "News") None (Some "http://C") media_type.LIVESTREAM
            (Some 1) None None false) 1 sample_conn)
  = Err "Failed to insert group: News".
Proof. vm_compute. reflexivity. Qed.

(** Claim C5, as the code behaves. The group name [g] is missing from
    the cache, and a [groups] row with that name and source is already
    stored. Then [INSERT OR IGNORE] changes no row, and
    [set_channel_group_id] returns the error
    [Failed to insert group: g] (any error, when a statement fails
    first). It assigns no id, and the connection state is left
    unchanged. Only a name already in the cache reuses an existing id:
    then the call returns that id, touches no table, and leaves the
    cache as it was. *)
Theorem set_channel_group_id_uncached_existing_fails
  (fault : stmt -> list sql_value -> conn -> option string)
  (cache : gmap string Z) (channel : Channel.t) (g : string) (s : Z) (c : conn) (r : row) :
  Channel.group channel = Some g -> cache !! g = None ->
  In r (groups (cdb c)) -> col r "name" = VText g -> col r "source_id" = VInt s ->
  set_channel_group_id no_fault cache channel s c
    = (Err (String.append "Failed to insert group: " g), c) /\
  (exists e, set_channel_group_id fault cache channel s c = (Err e, c)) /\
  (forall cache' id, cache' !! g = Some id ->
     set_channel_group_id fault cache' channel s c = (Ok (cache', with_group_id channel (Some id)), c)).
Proof.
  intros Hg Hcache Hin Hn Hs.
  split; [|split].
  - unfold set_channel_group_id, insert_group, bind, exec, no_fault. rewrite Hg, Hcache. cbn beta iota.
    rewrite (execute_insert_ignore_collision Tgroups _ _ c r); [reflexivity | reflexivity | exact Hin|].
    unfold collides, index_collides. simpl. rewrite Hn, Hs. simpl.
    rewrite String.eqb_refl, Z.eqb_refl. rewrite !orb_true_r. reflexivity.
  - unfold set_channel_group_id, insert_group, bind, exec. rewrite Hg, Hcache. cbn beta iota.
    destruct (fault _ _ c) as [e|]; [eexists; reflexivity|].
    rewrite (execute_insert_ignore_collision Tgroups _ _ c r); [eexists; reflexivity | reflexivity | exact Hin|].
    unfold collides, index_collides. simpl. rewrite Hn, Hs. simpl.
    rewrite String.eqb_refl, Z.eqb_refl. rewrite !orb_true_r. reflexivity.
  - intros cache' id Hid. unfold set_channel_group_id. rewrite Hg, Hid. reflexivity.
Qed.

Lemma set_channel_group_id_uncached_existing_fails_witness :
  let ch := Channel.mk None "C" (Some "News") None (Some "http://C") media_type.LIVESTREAM
              (Some 1) None None false in
  set_channel_group_id no_fault ∅ ch 1 sample_conn = (Err "Failed to insert group: News", sample_conn) /\
  set_channel_group_id no_fault {[ "News"%string := 10 ]} ch 1 sample_conn
  = (Ok ({[ "News"%string := 10 ]}, with_group_id ch (Some 10)), sample_conn).
Proof.
  intros ch.
  destruct (set_channel_group_id_uncached_existing_fails no_fault ∅ ch "News" 1 sample_conn
              (sample_group_row 10 "News" 1) eq_refl ltac:(apply lookup_empty) (or_introl eq_refl) eq_refl eq_refl)
    as (H1 & _ & H2).
  split; [exact H1 | apply H2; reflexivity].
Defined.

(** Claim C7. Sources are found or created by name. Assume the
    [index_source_name] invariant holds, and two calls with the same
    source both succeed. Then the second call returns the id of the first
    and leaves the state unchanged. The first call adds at most one row,
    and afterwards exactly one [sources] row has that name, with that
    id. *)
Theorem create_or_find_source_by_name_idempotent
  (fault : stmt -> list sql_value -> conn -> option string)
  (source : Source.t) (c c1 c2 : conn) (id1 id2 : Z) :
  unique_ok Tsources (sources (cdb c)) = true ->
  create_or_find_source_by_name fault source c = (Ok id1, c1) ->
  create_or_find_source_by_name fault source c1 = (Ok id2, c2) ->
  id2 = id1 /\ c2 = c1 /\
  (length (sources (cdb c1)) <= length (sources (cdb c)) + 1)%nat /\
  exists r, select_rows (Select Tsources [Atom (AEqParam "name")] false)
              [VText (Source.name source)] (cdb c1) = Ok [r] /\ col r "id" = VInt id1.
Proof.
  intros Hu H1 H2.
  unfold create_or_find_source_by_name, bind, query in H1, H2. cbv beta in H1, H2.
  rewrite !select_source_by_name in H1, H2. rewrite select_source_by_name.
  revert H1 H2.
  destruct (List.filter _ (sources (cdb c))) as [|r0 rest] eqn:Hf.
  - intros H1 H2.
    unfold exec in H1. destruct (fault _ _ c) as [e|]; [discriminate|].
    rewrite execute_write_insert_unchecked in H1 by apply sources_unchecked.
    unfold execute_statement in H1. simpl in H1.
    revert H1 H2. destruct (find _ _) as [r'|]; [discriminate|].
    intros H1 H2. simpl in H1. injection H1 as <- <-.
    simpl in H2 |- *. rewrite List.filter_app, Hf in H2 |- *. simpl in H2 |- *.
    rewrite String.eqb_refl in H2 |- *. simpl in H2 |- *.
    injection H2 as <- <-.
    repeat split; [rewrite length_app; simpl; lia|].
    eexists. split; reflexivity.
  - intros H1 H2. 
    assert (rest = []) as ->.
    { pose proof (unique_sources_by_name (Source.name source) _ Hu) as Hl.
      rewrite Hf in Hl. destruct rest; [reflexivity|simpl in Hl; lia]. }
    destruct (get_i64 (col r0 "id")) as [z|] eqn:Hid; [|discriminate].
    injection H1 as <- <-. rewrite Hf in H2. rewrite Hid in H2. injection H2 as <- <-.
    repeat split; [lia|]. exists r0. split; [rewrite Hf; reflexivity|].
    destruct (col r0 "id"); simpl in Hid; congruence.
Qed.

Lemma create_or_find_source_by_name_idempotent_witness :
  let c1 := snd (create_or_find_source_by_name no_fault sample_source sample_conn) in
  let c2 := snd (create_or_find_source_by_name no_fault sample_source c1) in
  create_or_find_source_by_name no_fault sample_source sample_conn = (Ok 2, c1) /\
  create_or_find_source_by_name no_fault sample_source c1 = (Ok 2, c2) /\ c2 = c1.
Proof.
  intros c1 c2.
  assert (H0 : unique_ok Tsources (sources (cdb sample_conn)) = true) by reflexivity.
  assert (H1 : create_or_find_source_by_name no_fault sample_source sample_conn = (Ok 2, c1))
    by reflexivity.
  assert (H2 : create_or_find_source_by_name no_fault sample_source c1 = (Ok 2, c2))
    by reflexivity.
  split; [exact H1|]. split; [exact H2|].
  exact (proj1 (proj2 (create_or_find_source_by_name_idempotent no_fault sample_source
                         sample_conn c1 c2 2 2 H0 H1 H2))).
Defined.

(* ================================================================== *)
(** * The other repository functions *)

(** ** Helper lemmas *)

Lemma holds_where_single (d : db) (a : atom) (ps : list sql_value) (r : row) :
  holds (eval_where d [Atom a] ps r) = holds (eval_atom a (firstn (atom_arity a) ps) r).
Proof. simpl. rewrite holds_and3, andb_true_r. reflexivity. Qed.

Lemma col_set_col_eq (r : row) (k : string) (v : sql_value) : col (set_col r k v) k = v.
Proof.
  induction r as [|[k' v'] r IH]; simpl.
  - rewrite String.eqb_refl. reflexivity.
  - destruct (String.eqb k k') eqn:E; simpl; rewrite E; [reflexivity | exact IH].
Qed.

Lemma col_set_col_ne (r : row) (k k2 : string) (v : sql_value) :
  k2 <> k -> col (set_col r k v) k2 = col r k2.
Proof.
  intros Hne. assert (Hf : String.eqb k2 k = false) by (apply String.eqb_neq; exact Hne).
  induction r as [|[k' v'] r IH]; simpl.
  - rewrite Hf. reflexivity.
  - destruct (String.eqb k k') eqn:E; simpl.
    + apply String.eqb_eq in E. subst k'. rewrite Hf. reflexivity.
    + rewrite IH. reflexivity.
Qed.

Lemma sql_eq_sym (a b : sql_value) : sql_eq a b = sql_eq b a.
Proof.
  destruct a, b; simpl; try reflexivity; [rewrite Z.eqb_sym | rewrite String.eqb_sym]; reflexivity.
Qed.

Lemma collides_sym (t : table) (a b : row) : collides t a b = collides t b a.
Proof.
  unfold collides. induction (unique_indexes t) as [|idx idxs IH]; simpl; [reflexivity|].
  rewrite IH. f_equal. unfold index_collides.
  induction idx as [|k idx IHk]; simpl; [reflexivity|]. rewrite sql_eq_sym, IHk. reflexivity.
Qed.

Lemma index_collides_ext (idx : list string) (a b a' b' : row) :
  (forall k, In k idx -> col a' k = col a k /\ col b' k = col b k) ->
  index_collides idx a' b' = index_collides idx a b.
Proof.
  induction idx as [|k idx IH]; intros H; simpl; [reflexivity|].
  destruct (H k (or_introl eq_refl)) as [-> ->].
  rewrite IH; [reflexivity|]. intros k' Hk'. apply H. right. exact Hk'.
Qed.

Lemma collides_ext (t : table) (a b a' b' : row) :
  (forall idx k, In idx (unique_indexes t) -> In k idx -> col a' k = col a k /\ col b' k = col b k) ->
  collides t a' b' = collides t a b.
Proof.
  unfold collides. generalize (unique_indexes t) as idxs.
  induction idxs as [|idx idxs IH]; intros H; simpl; [reflexivity|].
  rewrite (index_collides_ext idx a b a' b'); [| intros k Hk; apply (H idx k); [left|]; auto].
  rewrite IH; [reflexivity|]. intros idx' k Hi Hk. apply (H idx' k); [right|]; auto.
Qed.

Lemma forallb_collides_map (t : table) (f : row -> row) (r : row) (rs : list row) :
  (forall r idx k, In idx (unique_indexes t) -> In k idx -> col (f r) k = col r k) ->
  forallb (fun r' => negb (collides t (f r) r')) (map f rs)
  = forallb (fun r' => negb (collides t r r')) rs.
Proof.
  intros H. induction rs as [|r' rs IH]; simpl; [reflexivity|].
  rewrite IH, (collides_ext t r r' (f r) (f r')); [reflexivity|].
  intros idx k Hi Hk. split; apply (H _ idx k); assumption.
Qed.

(** An update that leaves every indexed column alone keeps the unique
    indexes satisfied or violated exactly as before. *)
Lemma unique_ok_map_cols (t : table) (f : row -> row) (rs : list row) :
  (forall r idx k, In idx (unique_indexes t) -> In k idx -> col (f r) k = col r k) ->
  unique_ok t (map f rs) = unique_ok t rs.
Proof.
  intros H. induction rs as [|r rs IH]; simpl; [reflexivity|].
  rewrite IH, forallb_collides_map by exact H. reflexivity.
Qed.

Lemma unique_ok_distinct (t : table) (rs : list row) (a b : row) :
  unique_ok t rs = true -> In a rs -> In b rs -> a <> b -> collides t a b = false.
Proof.
  induction rs as [|x rs IH]; simpl; [tauto|].
  intros Hu Ha Hb Hne. apply andb_true_iff in Hu as [Hall Hu].
  destruct Ha as [<-|Ha], Hb as [<-|Hb].
  - congruence.
  - apply negb_true_iff. exact (proj1 (List.forallb_forall _ _) Hall b Hb).
  - rewrite collides_sym. apply negb_true_iff. exact (proj1 (List.forallb_forall _ _) Hall a Ha).
  - exact (IH Hu Ha Hb Hne).
Qed.

(** The rowid of a plain INSERT is larger than every integer id in the
    table. *)
Lemma next_rowid_gt (rs : list row) (r : row) (z : Z) :
  In r rs -> col r "id" = VInt z -> z < next_rowid rs.
Proof.
  unfold next_rowid. induction rs as [|x rs IH]; simpl; [tauto|].
  intros [<-|Hin] Hz.
  - rewrite Hz. lia.
  - specialize (IH Hin Hz). destruct (col x "id"); lia.
Qed.

Lemma execute_delete_eq (t : table) (k : string) (v : sql_value) (c : conn) :
  execute_statement (Delete t [Atom (AEqParam k)]) [v] c =
  Ok (length (List.filter (fun r => holds (sql_eq (col r k) v)) (get_table (cdb c) t)),
      with_db c (set_table (cdb c) t
                   (List.filter (fun r => negb (holds (sql_eq (col r k) v))) (get_table (cdb c) t)))
              (last_insert_rowid c)).
Proof.
  assert (E1 : forall rs, List.filter (fun r => holds (eval_where (cdb c) [Atom (AEqParam k)] [v] r)) rs
                          = List.filter (fun r => holds (sql_eq (col r k) v)) rs)
    by (intros; apply List.filter_ext; intro r; rewrite holds_where_single; reflexivity).
  assert (E2 : forall rs, List.filter (fun r => negb (holds (eval_where (cdb c) [Atom (AEqParam k)] [v] r))) rs
                          = List.filter (fun r => negb (holds (sql_eq (col r k) v))) rs)
    by (intros; apply List.filter_ext; intro r; rewrite holds_where_single; reflexivity).
  unfold execute_statement. cbn -[eval_where]. rewrite E1, E2. reflexivity.
Qed.

Lemma execute_delete_shape (t : table) (w : list cond) (ps : list sql_value) (c c0 : conn) (n : nat) :
  execute_statement (Delete t w) ps c = Ok (n, c0) ->
  exists keep, c0 = with_db c (set_table (cdb c) t (List.filter keep (get_table (cdb c) t)))
                            (last_insert_rowid c).
Proof.
  unfold execute_statement. destruct (negb _); [discriminate|].
  intros H. injection H as _ <-. eexists. reflexivity.
Qed.

Lemma cascade_sources (old new : db) : sources (cascade old new) = sources new.
Proof. apply filter_all_true. intros; reflexivity. Qed.

Lemma cascade_channels (old new : db) : channels (cascade old new) = channels new.
Proof. apply filter_all_true. intros; reflexivity. Qed.

Lemma cascade_groups (old new : db) : groups (cascade old new) = groups new.
Proof. apply filter_all_true. intros; reflexivity. Qed.

Lemma cascade_incl (old new : db) (t : table) (r : row) :
  In r (get_table (cascade old new) t) -> In r (get_table new t).
Proof.
  intros H. assert (E : get_table (cascade old new) t = cascade_table old new t) by (destruct t; reflexivity).
  rewrite E in H. unfold cascade_table in H. apply filter_In in H. exact (proj1 H).
Qed.

Lemma fk_parent_table (ct : table) (k : string) (p : table) (casc : bool) :
  In (k, p, casc) (foreign_keys_of ct) -> p <> Tchannel_http_headers.
Proof. destruct ct; simpl; intuition congruence. Qed.

Lemma has_parent_cascade (old new : db) (p : table) (v : sql_value) :
  p <> Tchannel_http_headers -> has_parent (cascade old new) p v = has_parent new p v.
Proof.
  intros Hp. unfold has_parent. destruct v; [reflexivity| |]; f_equal;
    destruct p; solve [apply cascade_sources | apply cascade_channels | apply cascade_groups | congruence].
Qed.

(** A statement that only removes rows passes the foreign-key check once
    its cascades are applied, as long as every child row under a
    constraint without ON DELETE CASCADE keeps its parent. *)
Lemma fk_ok_shrink (old new : db) :
  (forall t r, In r (get_table new t) -> In r (get_table old t)) ->
  (forall ct k p r, In (k, p, false) (foreign_keys_of ct) -> In r (get_table new ct) ->
     has_parent old p (col r k) = true -> has_parent new p (col r k) = true) ->
  fk_ok old (cascade old new) = true.
Proof.
  intros Hsub Hnc. unfold fk_ok. apply forallb_forall. intros ct _.
  apply forallb_forall. intros [[k p] casc] Hfk. apply forallb_forall. intros r Hr.
  pose proof (fk_parent_table _ _ _ _ Hfk) as Hp.
  assert (Hr' : In r (cascade_table old new ct)) by (destruct ct; exact Hr).
  unfold cascade_table in Hr'. apply filter_In in Hr' as [Hrn Hnot].
  assert (Hstale : has_parent old p (col r k) = false -> fk_row_ok old (cascade old new) ct (k, p, casc) r = true).
  { intros E. unfold fk_row_ok. apply orb_true_iff. right. apply existsb_exists. exists r.
    split; [exact (Hsub _ _ Hrn)|]. rewrite E, !sql_value_eqb_refl. reflexivity. }
  destruct (has_parent old p (col r k)) eqn:Eo; [|exact (Hstale eq_refl)].
  unfold fk_row_ok. rewrite has_parent_cascade by exact Hp.
  destruct casc.
  - apply negb_true_iff in Hnot.
    assert (Hc : cascaded old new (k, p, true) r = false).
    { destruct (cascaded old new (k, p, true) r) eqn:Ec; [|reflexivity].
      rewrite <- Hnot. symmetry. apply existsb_exists. exists (k, p, true). auto. }
    simpl in Hc. rewrite Eo, andb_true_r in Hc. apply negb_false_iff in Hc. rewrite Hc. reflexivity.
  - rewrite (Hnc ct k p r Hfk Hrn Eo). reflexivity.
Qed.

(** Deleting channels never breaks a foreign key: the only constraint
    that refers to [channels] is the header table's, which cascades. *)
Lemma execute_write_delete_channels (w : list cond) (ps : list sql_value) (c c0 : conn) (n : nat) :
  execute_statement (Delete Tchannels w) ps c = Ok (n, c0) ->
  execute_write (Delete Tchannels w) ps c
  = Ok (n, if foreign_keys c then with_db c0 (cascade (cdb c) (cdb c0)) (last_insert_rowid c0) else c0).
Proof.
  intros H. unfold execute_write. rewrite H. destruct (foreign_keys c); [|reflexivity].
  destruct (execute_delete_shape _ _ _ _ _ _ H) as [keep ->]. cbn zeta.
  rewrite fk_ok_shrink; [reflexivity| |].
  - intros t r. cbn [cdb with_db]. destruct t; simpl; try (intros Hr; apply filter_In in Hr); tauto.
  - intros ct k p r Hfk _ Hh. cbn [cdb with_db].
    assert (Hp : p <> Tchannels) by (destruct ct; simpl in Hfk; intuition congruence).
    unfold has_parent in *. destruct (col r k); [reflexivity| |];
      rewrite get_set_table_ne by exact Hp; exact Hh.
Qed.

Lemma select_eq1 (t : table) (k : string) (v : sql_value) (d : db) :
  select_rows (Select t [Atom (AEqParam k)] false) [v] d
  = Ok (List.filter (fun r => holds (sql_eq (col r k) v)) (get_table d t)).
Proof.
  unfold select_rows. cbn -[eval_where]. f_equal.
  apply List.filter_ext. intro r. rewrite holds_where_single. reflexivity.
Qed.

Lemma filter_nil_none {A} (p : A -> bool) (l : list A) :
  List.filter p l = [] -> forall x, In x l -> p x = false.
Proof.
  intros H x Hx. destruct (p x) eqn:E; [|reflexivity].
  assert (In x (List.filter p l)) by (apply filter_In; auto). rewrite H in *. contradiction.
Qed.

Lemma in_filter_neq (rs : list row) (k : string) (v : Z) (x : row) :
  In x (List.filter (fun r => negb (holds (sql_eq (col r k) (VInt v)))) rs) -> col x k <> VInt v.
Proof.
  intros H Heq. apply filter_In in H as [_ H]. rewrite Heq in H. simpl in H.
  rewrite Z.eqb_refl in H. discriminate.
Qed.

(** ** delete_source *)

Lemma in_set_table_filter (d : db) (t t' : table) (keep : row -> bool) (r : row) :
  In r (get_table (set_table d t (List.filter keep (get_table d t))) t') -> In r (get_table d t').
Proof. destruct t, t'; simpl; intros H; try (apply filter_In in H; tauto); exact H. Qed.

Lemma has_parent_set_ne (d : db) (t p : table) (l : list row) (v : sql_value) :
  p <> t -> has_parent (set_table d t l) p v = has_parent d p v.
Proof.
  intros Hp. unfold has_parent. destruct v; [reflexivity| |]; rewrite get_set_table_ne by exact Hp;
    reflexivity.
Qed.

Lemma holds_sql_eq_same (a b : sql_value) : holds (sql_eq a b) = true -> a = b /\ a <> VNull.
Proof.
  destruct a as [|x|x], b as [|y|y]; simpl; try discriminate;
    [destruct (Z.eqb_spec x y) | destruct (String.eqb_spec x y)]; intros H; try discriminate;
    subst; split; congruence.
Qed.

Lemma execute_write_delete (t : table) (w : list cond) (ps : list sql_value) (c c0 : conn) (n : nat) :
  execute_statement (Delete t w) ps c = Ok (n, c0) ->
  (forall ct k p r, In (k, p, false) (foreign_keys_of ct) -> In r (get_table (cdb c0) ct) ->
     has_parent (cdb c) p (col r k) = true -> has_parent (cdb c0) p (col r k) = true) ->
  execute_write (Delete t w) ps c
  = Ok (n, if foreign_keys c then with_db c0 (cascade (cdb c) (cdb c0)) (last_insert_rowid c0) else c0).
Proof.
  intros H Hnc. unfold execute_write. rewrite H. destruct (foreign_keys c); [|reflexivity].
  destruct (execute_delete_shape _ _ _ _ _ _ H) as [keep Hc0]. cbn zeta.
  rewrite fk_ok_shrink; [reflexivity| |exact Hnc].
  intros t' r. rewrite Hc0. apply in_set_table_filter.
Qed.

Lemma execute_write_delete_channels_eq (w : list cond) (ps : list sql_value) (c : conn) :
  length ps = where_arity w ->
  execute_write (Delete Tchannels w) ps c
  = Ok (length (List.filter (fun r => holds (eval_where (cdb c) w ps r)) (channels (cdb c))),
        with_db c (let d' := set_table (cdb c) Tchannels
                               (List.filter (fun r => negb (holds (eval_where (cdb c) w ps r)))
                                            (channels (cdb c))) in
                   if foreign_keys c then cascade (cdb c) d' else d')
                (last_insert_rowid c)).
Proof.
  intros Hl.
  assert (Hs : execute_statement (Delete Tchannels w) ps c
               = Ok (length (List.filter (fun r => holds (eval_where (cdb c) w ps r)) (channels (cdb c))),
                     with_db c (set_table (cdb c) Tchannels
                                  (List.filter (fun r => negb (holds (eval_where (cdb c) w ps r)))
                                               (channels (cdb c))))
                             (last_insert_rowid c)))
    by (unfold execute_statement; simpl stmt_arity; rewrite Hl, Nat.eqb_refl; reflexivity).
  rewrite (execute_write_delete_channels w ps c _ _ Hs). destruct (foreign_keys c); reflexivity.
Qed.

(** A DELETE by one column: it removes the matching rows, then, when the
    connection enforces foreign keys, their cascades. It succeeds when no
    constraint without ON DELETE CASCADE loses a parent. *)
Lemma exec_delete_eq_ok (t : table) (k : string) (v : sql_value) (c : conn) :
  (forall ct k' p r, In (k', p, false) (foreign_keys_of ct) ->
     In r (get_table (set_table (cdb c) t (List.filter (fun r => negb (holds (sql_eq (col r k) v)))
                                                       (get_table (cdb c) t))) ct) ->
     has_parent (cdb c) p (col r k') = true ->
     has_parent (set_table (cdb c) t (List.filter (fun r => negb (holds (sql_eq (col r k) v)))
                                                  (get_table (cdb c) t))) p (col r k') = true) ->
  exec no_fault (Delete t [Atom (AEqParam k)]) [v] c
  = (Ok (length (List.filter (fun r => holds (sql_eq (col r k) v)) (get_table (cdb c) t))),
     with_db c (let d' := set_table (cdb c) t (List.filter (fun r => negb (holds (sql_eq (col r k) v)))
                                                          (get_table (cdb c) t)) in
                if foreign_keys c then cascade (cdb c) d' else d')
             (last_insert_rowid c)).
Proof.
  intros Hnc. unfold exec, no_fault.
  rewrite (execute_write_delete _ _ _ _ _ _ (execute_delete_eq t k v c)) by exact Hnc.
  destruct (foreign_keys c); reflexivity.
Qed.

Lemma exec_delete_channels_ok (k : string) (v : sql_value) (c : conn) :
  exec no_fault (Delete Tchannels [Atom (AEqParam k)]) [v] c
  = (Ok (length (List.filter (fun r => holds (sql_eq (col r k) v)) (channels (cdb c)))),
     with_db c (let d' := set_table (cdb c) Tchannels
                            (List.filter (fun r => negb (holds (sql_eq (col r k) v))) (channels (cdb c))) in
                if foreign_keys c then cascade (cdb c) d' else d')
             (last_insert_rowid c)).
Proof.
  apply (exec_delete_eq_ok Tchannels). intros ct k' p r Hfk _ Hh.
  assert (Hp : p <> Tchannels) by (destruct ct; simpl in Hfk; intuition congruence).
  rewrite has_parent_set_ne by exact Hp. exact Hh.
Qed.

(** Whatever a DELETE does, it only removes rows, and it keeps the
    connection's flags. *)
Lemma exec_delete_incl (fault : stmt -> list sql_value -> conn -> option string)
  (t : table) (w : list cond) (ps : list sql_value) (c : conn) :
  conns_available (snd (exec fault (Delete t w) ps c)) = conns_available c /\
  foreign_keys (snd (exec fault (Delete t w) ps c)) = foreign_keys c /\
  forall t' r, In r (get_table (cdb (snd (exec fault (Delete t w) ps c))) t') -> In r (get_table (cdb c) t').
Proof.
  unfold exec. destruct (fault _ _ _); [simpl; auto|].
  destruct (execute_write (Delete t w) ps c) as [[n c']| |] eqn:E; [|simpl; auto ..].
  apply execute_write_ok_inv in E as (c0 & E & ->). apply execute_delete_shape in E as [keep ->].
  destruct (foreign_keys c) eqn:Hf; cbn [snd cdb with_db conns_available foreign_keys];
    (split; [reflexivity | split; [rewrite ?Hf; reflexivity|]]); intros t' r Hr.
  - apply cascade_incl in Hr. exact (in_set_table_filter _ _ _ _ _ Hr).
  - exact (in_set_table_filter _ _ _ _ _ Hr).
Qed.

Lemma cascade_headers_same (old new : db) :
  channels new = channels old -> channel_http_headers (cascade old new) = channel_http_headers new.
Proof.
  intros Hch. apply filter_all_true. intros r _. cbn [foreign_keys_of existsb cascaded].
  unfold has_parent. cbn [get_table]. rewrite Hch.
  destruct (col r "channel_id"); [reflexivity| |];
    destruct (existsb _ (channels old)); reflexivity.
Qed.

Lemma in_filter_neq_iff (rs : list row) (k : string) (v : Z) (x : row) :
  In x (List.filter (fun r => negb (holds (sql_eq (col r k) (VInt v)))) rs) <->
  In x rs /\ holds (sql_eq (col x k) (VInt v)) = false.
Proof. rewrite filter_In, negb_true_iff. reflexivity. Qed.

(** The run of [delete_source] when no channel of another source is in
    a group of this source: every DELETE succeeds, with or without
    foreign keys. *)
Lemma delete_source_run (id : Z) (c : conn) :
  conns_available c = true ->
  (forall x g, In x (channels (cdb c)) -> In g (groups (cdb c)) -> col g "source_id" = VInt id ->
     holds (sql_eq (col g "id") (col x "group_id")) = true -> col x "source_id" = VInt id) ->
  exists d,
    delete_source no_fault id c =
    ((if Nat.eqb (length (List.filter (fun r => holds (sql_eq (col r "id") (VInt id))) (sources (cdb c)))) 1
      then Ok tt else Err "No sources were deleted"),
     with_db c d (last_insert_rowid c)) /\
    sources d = List.filter (fun r => negb (holds (sql_eq (col r "id") (VInt id)))) (sources (cdb c)) /\
    channels d = List.filter (fun r => negb (holds (sql_eq (col r "source_id") (VInt id)))) (channels (cdb c)) /\
    groups d = List.filter (fun r => negb (holds (sql_eq (col r "source_id") (VInt id)))) (groups (cdb c)) /\
    channel_http_headers d
    = (if foreign_keys c
       then cascade_table (cdb c)
              (set_table (cdb c) Tchannels
                 (List.filter (fun r => negb (holds (sql_eq (col r "source_id") (VInt id)))) (channels (cdb c))))
              Tchannel_http_headers
       else channel_http_headers (cdb c)).
Proof.
  intros Hc Hx. unfold delete_source, bind, get_conn. rewrite Hc.
  rewrite exec_delete_channels_ok. cbv beta iota zeta.
  set (chs := List.filter (fun r => negb (holds (sql_eq (col r "source_id") (VInt id)))) (channels (cdb c))).
  set (d1 := if foreign_keys c then cascade (cdb c) (set_table (cdb c) Tchannels chs)
             else set_table (cdb c) Tchannels chs).
  assert (S1 : sources d1 = sources (cdb c))
    by (subst d1; destruct (foreign_keys c); [rewrite cascade_sources|]; reflexivity).
  assert (C1 : channels d1 = chs)
    by (subst d1; destruct (foreign_keys c); [rewrite cascade_channels|]; reflexivity).
  assert (G1 : groups d1 = groups (cdb c))
    by (subst d1; destruct (foreign_keys c); [rewrite cascade_groups|]; reflexivity).
  rewrite (exec_delete_eq_ok Tgroups).
  2:{ intros ct k p r Hfk Hr Hh. cbn [cdb with_db] in *.
      destruct ct; simpl in Hfk; try contradiction;
        repeat (destruct Hfk as [Hfk|Hfk]; [inversion Hfk; subst; clear Hfk|]); try contradiction;
        try (rewrite has_parent_set_ne by discriminate; exact Hh).
      (* a channel's group keeps its row *)
      unfold has_parent in Hh |- *. cbn [get_table set_table channels groups] in Hr, Hh |- *.
      rewrite C1 in Hr. rewrite G1 in *.
      destruct (col r "group_id") as [|z|z] eqn:Eg; [reflexivity| |];
        apply existsb_exists in Hh as (g & Hg & Hgh); apply existsb_exists; exists g;
        (split; [|exact Hgh]); apply filter_In; (split; [exact Hg|]); apply negb_true_iff;
        destruct (holds (sql_eq (col g "source_id") (VInt id))) eqn:Es; auto;
        apply holds_sql_eq_int in Es; apply in_filter_neq_iff in Hr as [Hr Hne];
        rewrite (Hx r g Hr Hg Es) in Hne by (rewrite Eg; exact Hgh); simpl in Hne;
        rewrite Z.eqb_refl in Hne; discriminate. }
  cbv beta iota zeta. cbn [cdb with_db last_insert_rowid foreign_keys get_table].
  set (grs := List.filter (fun r => negb (holds (sql_eq (col r "source_id") (VInt id)))) (groups d1)).
  set (d2 := if foreign_keys c then cascade d1 (set_table d1 Tgroups grs) else set_table d1 Tgroups grs).
  assert (S2 : sources d2 = sources (cdb c))
    by (subst d2; destruct (foreign_keys c); [rewrite cascade_sources|]; exact S1).
  assert (C2 : channels d2 = chs)
    by (subst d2; destruct (foreign_keys c); [rewrite cascade_channels|]; exact C1).
  assert (G2 : groups d2 = grs)
    by (subst d2; destruct (foreign_keys c); [rewrite cascade_groups|]; reflexivity).
  assert (H2 : channel_http_headers d2 = channel_http_headers d1)
    by (subst d2; destruct (foreign_keys c); [rewrite cascade_headers_same|]; reflexivity).
  rewrite (exec_delete_eq_ok Tsources).
  2:{ intros ct k p r Hfk Hr Hh. cbn [cdb with_db] in *.
      destruct ct; simpl in Hfk; try contradiction;
        repeat (destruct Hfk as [Hfk|Hfk]; [inversion Hfk; subst; clear Hfk|]); try contradiction;
        try (rewrite has_parent_set_ne by discriminate; exact Hh);
        cbn [get_table set_table channels groups sources] in Hr |- *;
        [rewrite C2 in Hr | rewrite G2 in Hr; subst grs; rewrite G1 in Hr];
        apply in_filter_neq in Hr;
        unfold has_parent in Hh |- *; destruct (col r "source_id") as [|z|z] eqn:Es; try reflexivity;
        apply existsb_exists in Hh as (s0 & Hs & Hsh); apply existsb_exists; exists s0; split; auto;
        apply filter_In; split; auto; apply negb_true_iff;
        destruct (holds (sql_eq (col s0 "id") (VInt id))) eqn:Ei; auto;
        apply holds_sql_eq_int in Ei; apply holds_sql_eq_same in Hsh as [Hsh _]; congruence. }
  cbv beta iota zeta. cbn [cdb with_db last_insert_rowid foreign_keys get_table]. rewrite S2.
  set (srs := List.filter (fun r => negb (holds (sql_eq (col r "id") (VInt id)))) (sources (cdb c))).
  exists (if foreign_keys c then cascade d2 (set_table d2 Tsources srs) else set_table d2 Tsources srs).
  split.
  - unfold fail, ret. destruct (Nat.eqb _ 1); reflexivity.
  - destruct (foreign_keys c) eqn:Hf;
      rewrite ?cascade_sources, ?cascade_channels, ?cascade_groups, ?cascade_headers_same by reflexivity;
      cbn [set_table sources channels groups channel_http_headers];
      (split; [reflexivity|]);
      (split; [exact C2|]); (split; [rewrite G2; subst grs; rewrite G1; reflexivity|]);
      rewrite H2; subst d1; rewrite ?Hf; reflexivity.
Qed.

(** [delete_source] runs its three DELETEs without a transaction.
    Suppose every statement succeeds at the engine level, channel ids
    are unique, and no channel of another source is in a group of this
    source. Then [delete_source] returns [Ok] exactly when one [sources]
    row had the id, and otherwise the error "No sources were deleted".
    Either way, afterwards no channel, group or source row of that id is
    left. Without foreign keys the [channel_http_headers] rows are left
    as they were. With foreign keys, ON DELETE CASCADE removes the header
    rows of the deleted channels. *)
Theorem delete_source_removes_all (id : Z) (c : conn) :
  conns_available c = true ->
  unique_ok Tchannels (channels (cdb c)) = true ->
  (forall x g, In x (channels (cdb c)) -> In g (groups (cdb c)) -> col g "source_id" = VInt id ->
     holds (sql_eq (col g "id") (col x "group_id")) = true -> col x "source_id" = VInt id) ->
  (fst (delete_source no_fault id c) = Ok tt <->
   length (List.filter (fun r => holds (sql_eq (col r "id") (VInt id))) (sources (cdb c))) = 1%nat) /\
  (fst (delete_source no_fault id c) <> Ok tt ->
   fst (delete_source no_fault id c) = Err "No sources were deleted") /\
  (forall x, In x (channels (cdb (snd (delete_source no_fault id c)))) -> col x "source_id" <> VInt id) /\
  (forall x, In x (groups (cdb (snd (delete_source no_fault id c)))) -> col x "source_id" <> VInt id) /\
  (forall x, In x (sources (cdb (snd (delete_source no_fault id c)))) -> col x "id" <> VInt id) /\
  (foreign_keys c = false ->
   channel_http_headers (cdb (snd (delete_source no_fault id c))) = channel_http_headers (cdb c)) /\
  (foreign_keys c = true ->
   forall h x, In h (channel_http_headers (cdb (snd (delete_source no_fault id c)))) ->
     In x (channels (cdb c)) -> col x "source_id" = VInt id ->
     holds (sql_eq (col x "id") (col h "channel_id")) = false).
Proof.
  intros Hc Hu Hx. destruct (delete_source_run id c Hc Hx) as (d & -> & Hs & Hch & Hg & Hh).
  cbn [fst snd cdb with_db]. rewrite Hs, Hch, Hg.
  split; [|split; [|split; [|split; [|split; [|split]]]]].
  - destruct (Nat.eqb_spec (length (List.filter (fun r => holds (sql_eq (col r "id") (VInt id)))
                                                   (sources (cdb c)))) 1); split; congruence.
  - destruct (Nat.eqb _ 1); congruence.
  - apply in_filter_neq.
  - apply in_filter_neq.
  - apply in_filter_neq.
  - intros Hf. rewrite Hh, Hf. reflexivity.
  - intros Hf h x Hin Hxin Hxs. rewrite Hh, Hf in Hin.
    destruct (holds (sql_eq (col x "id") (col h "channel_id"))) eqn:E; [|reflexivity]. exfalso.
    unfold cascade_table in Hin. apply filter_In in Hin as [_ Hin].
    cbn [foreign_keys_of existsb cascaded] in Hin. rewrite orb_false_r in Hin.
    pose proof E as [Ex Hnn]%holds_sql_eq_same.
    assert (Hold : has_parent (cdb c) Tchannels (col h "channel_id") = true).
    { rewrite <- Ex. unfold has_parent. destruct (col x "id") as [|z|z] eqn:Ez; [congruence| |];
        apply existsb_exists; exists x; (split; [exact Hxin|]); rewrite Ez; simpl;
        rewrite ?Z.eqb_refl, ?String.eqb_refl; reflexivity. }
    rewrite Hold, andb_true_r in Hin. cbn [andb] in Hin. apply negb_true_iff, negb_false_iff in Hin.
    unfold has_parent in Hin. cbn [get_table set_table channels] in Hin. rewrite <- Ex in Hin.
    destruct (col x "id") as [|z|z] eqn:Ez; [congruence| |];
      apply existsb_exists in Hin as (y & Hy & Hyh); apply filter_In in Hy as [Hyc Hyn];
      apply holds_sql_eq_same in Hyh as [Hyid _];
      assert (Hne : x <> y) by (intros <-; rewrite Hxs in Hyn; simpl in Hyn; rewrite Z.eqb_refl in Hyn;
                                discriminate);
      pose proof (unique_ok_distinct _ _ _ _ Hu Hxin Hyc Hne) as Hcol;
      unfold collides, index_collides in Hcol; cbn [unique_indexes existsb forallb] in Hcol;
      rewrite Ez, Hyid in Hcol; simpl in Hcol;
      rewrite ?Z.eqb_refl, ?String.eqb_refl in Hcol; discriminate.
Qed.

Lemma delete_source_removes_all_witness :
  conns_available sample_conn = true /\
  unique_ok Tchannels (channels (cdb sample_conn)) = true /\
  fst (delete_source no_fault 1 sample_conn) = Ok tt /\
  channels (cdb (snd (delete_source no_fault 1 sample_conn))) = [].
Proof.
  assert (Hc : conns_available sample_conn = true) by reflexivity.
  assert (Hu : unique_ok Tchannels (channels (cdb sample_conn)) = true) by reflexivity.
  assert (Hx : forall x g, In x (channels (cdb sample_conn)) -> In g (groups (cdb sample_conn)) ->
                 col g "source_id" = VInt 1 ->
                 holds (sql_eq (col g "id") (col x "group_id")) = true -> col x "source_id" = VInt 1).
  { intros x g Hxin _ _ _. simpl in Hxin. destruct Hxin as [<-|[<-|[]]]; reflexivity. }
  pose proof (delete_source_removes_all 1 sample_conn Hc Hu Hx) as [H _].
  split; [exact Hc|]. split; [exact Hu|].
  split; [apply H; reflexivity | vm_compute; reflexivity].
Defined.

(** After [delete_source id], [get_channel_count_by_source id] is 0,
    whether [delete_source] returned [Ok] or an error. *)
Theorem delete_source_then_count_zero (id : Z) (c : conn) :
  conns_available c = true ->
  get_channel_count_by_source id (snd (delete_source no_fault id c))
  = (Ok 0, snd (delete_source no_fault id c)).
Proof.
  intros Hc.
  assert (Hfin : conns_available (snd (delete_source no_fault id c)) = true /\
                 forall x, In x (channels (cdb (snd (delete_source no_fault id c)))) ->
                   col x "source_id" <> VInt id).
  { unfold delete_source, bind, get_conn. rewrite Hc.
    rewrite exec_delete_channels_ok. cbv beta iota zeta.
    set (c1 := with_db c _ (last_insert_rowid c)).
    assert (Hc1 : conns_available c1 = true /\
                  forall x, In x (channels (cdb c1)) -> col x "source_id" <> VInt id).
    { split; [exact Hc|]. intros x Hx. subst c1. cbn [cdb with_db] in Hx.
      destruct (foreign_keys c); [rewrite cascade_channels in Hx|]; exact (in_filter_neq _ _ _ _ Hx). }
    assert (Hstep : forall t w ps c', conns_available c' = true /\
                      (forall x, In x (channels (cdb c')) -> col x "source_id" <> VInt id) ->
                      conns_available (snd (exec no_fault (Delete t w) ps c')) = true /\
                      (forall x, In x (channels (cdb (snd (exec no_fault (Delete t w) ps c')))) ->
                                 col x "source_id" <> VInt id)).
    { intros t w ps c' [Ha Hch]. destruct (exec_delete_incl no_fault t w ps c') as (Ha' & _ & Hi).
      split; [congruence|]. intros x Hx. exact (Hch x (Hi Tchannels x Hx)). }
    pose proof (Hstep Tgroups [Atom (AEqParam "source_id")] [VInt id] c1 Hc1) as Hc2.
    destruct (exec no_fault (Delete Tgroups _) _ c1) as [[n2|e2|p2] c2]; cbn [snd] in Hc2; try exact Hc2.
    pose proof (Hstep Tsources [Atom (AEqParam "id")] [VInt id] c2 Hc2) as Hc3.
    destruct (exec no_fault (Delete Tsources _) _ c2) as [[n3|e3|p3] c3]; cbn [snd] in Hc3; try exact Hc3.
    unfold fail, ret. destruct (negb _); exact Hc3. }
  destruct Hfin as [Ha Hch]. revert Ha Hch. generalize (snd (delete_source no_fault id c)) as c'.
  intros c' Ha Hch.
  unfold get_channel_count_by_source, bind, get_conn, query. rewrite Ha. cbv beta iota.
  rewrite select_eq1. cbn [get_table]. unfold ret.
  enough (E : List.filter (fun r => holds (sql_eq (col r "source_id") (VInt id))) (channels (cdb c')) = [])
    by (rewrite E; reflexivity).
  apply filter_all_false. intros r Hr. specialize (Hch r Hr).
  destruct (holds (sql_eq (col r "source_id") (VInt id))) eqn:E; [|reflexivity].
  apply holds_sql_eq_int in E. contradiction.
Qed.

Lemma delete_source_then_count_zero_witness :
  conns_available sample_conn = true /\
  get_channel_count_by_source 1 (snd (delete_source no_fault 1 sample_conn))
  = (Ok 0, snd (delete_source no_fault 1 sample_conn)).
Proof. split; [reflexivity | apply delete_source_then_count_zero; reflexivity]. Defined.

(** ** favorite_channel *)

Lemma execute_update_eq (t : table) (s k : string) (x v : sql_value) (c : conn) :
  execute_statement (Update t [s] [Atom (AEqParam k)]) [x; v] c =
  let rs' := map (fun r => if holds (sql_eq (col r k) v) then set_col r s x else r)
                 (get_table (cdb c) t) in
  if unique_ok t rs'
  then Ok (length (List.filter (fun r => holds (sql_eq (col r k) v)) (get_table (cdb c) t)),
           with_db c (set_table (cdb c) t rs') (last_insert_rowid c))
  else Err "UNIQUE constraint failed".
Proof.
  assert (E0 : forall rs, map (fun r => if holds (eval_where (cdb c) [Atom (AEqParam k)] [v] r)
                                       then set_col r s x else r) rs
                          = map (fun r => if holds (sql_eq (col r k) v) then set_col r s x else r) rs)
    by (intros; apply List.map_ext; intro r; rewrite holds_where_single; reflexivity).
  assert (E1 : forall rs, List.filter (fun r => holds (eval_where (cdb c) [Atom (AEqParam k)] [v] r)) rs
                          = List.filter (fun r => holds (sql_eq (col r k) v)) rs)
    by (intros; apply List.filter_ext; intro r; rewrite holds_where_single; reflexivity).
  unfold execute_statement. cbn -[eval_where unique_ok]. rewrite E0, E1. reflexivity.
Qed.

Lemma in_set_table_map (d : db) (t p : table) (f : row -> row) (r : row) :
  In r (get_table d p) ->
  exists r', In r' (get_table (set_table d t (map f (get_table d t))) p) /\ (r' = r \/ r' = f r).
Proof.
  destruct t, p; simpl; intros H;
    solve [exists r; auto | exists (f r); split; [apply in_map; exact H | right; reflexivity]].
Qed.

Lemma in_set_table_map_inv (d : db) (t ct : table) (f : row -> row) (r : row) :
  In r (get_table (set_table d t (map f (get_table d t))) ct) ->
  exists r0, In r0 (get_table d ct) /\ (r = r0 \/ (ct = t /\ r = f r0)).
Proof.
  destruct t, ct; simpl; intros H;
    solve [exists r; auto | apply in_map_iff in H as (r0 & <- & H); exists r0; auto].
Qed.

(** An UPDATE of one column that is neither the id nor a foreign key of
    its table keeps every key, so foreign keys never reject it. *)
Lemma execute_write_update_plain (t : table) (s k : string) (x v : sql_value) (c : conn) :
  s <> "id"%string -> (forall k' p casc, In (k', p, casc) (foreign_keys_of t) -> k' <> s) ->
  execute_write (Update t [s] [Atom (AEqParam k)]) [x; v] c
  = execute_statement (Update t [s] [Atom (AEqParam k)]) [x; v] c.
Proof.
  intros Hid Hfk.
  destruct (execute_statement (Update t [s] [Atom (AEqParam k)]) [x; v] c) as [[n c0]| |] eqn:E.
  - apply (execute_write_keep _ _ _ _ _ E); rewrite execute_update_eq in E; cbv zeta in E;
      (destruct (unique_ok _ _) in E; [|discriminate]); injection E as _ <-; cbn [cdb with_db].
    + apply has_parent_ids. intros p r Hr.
      destruct (in_set_table_map (cdb c) t p
                  (fun r => if holds (sql_eq (col r k) v) then set_col r s x else r) r Hr)
        as (r' & Hr' & Hor); exists r'; (split; [exact Hr'|]).
      destruct Hor as [-> | ->]; [reflexivity|].
      destruct (holds _); [apply col_set_col_ne; congruence | reflexivity].
    + intros ct k' p casc r Hfk' Hr.
      destruct (in_set_table_map_inv _ _ _ _ _ Hr) as (r0 & Hr0 & [-> | [-> ->]]); exists r0;
        (split; [exact Hr0|]); [auto|].
      destruct (holds _); [|auto].
      pose proof (Hfk _ _ _ Hfk') as Hk.
      split; symmetry; apply col_set_col_ne; congruence.
  - apply execute_write_err, E.
  - unfold execute_write. rewrite E. reflexivity.
Qed.

Lemma favorite_channel_run (channel_id : Z) (fav : bool) (c : conn) :
  conns_available c = true -> unique_ok Tchannels (channels (cdb c)) = true ->
  favorite_channel no_fault channel_id fav c =
  (Ok tt, mkConn (mkDb (sources (cdb c))
                       (map (fun r => if holds (sql_eq (col r "id") (VInt channel_id))
                                      then set_col r "favorite" (bool_val fav) else r)
                            (channels (cdb c)))
                       (groups (cdb c)) (channel_http_headers (cdb c)))
                 (last_insert_rowid c) (conns_available c) (foreign_keys c)).
Proof.
  intros Hc Hu. unfold favorite_channel, bind, get_conn, exec, no_fault. rewrite Hc.
  cbn beta iota.
  rewrite execute_write_update_plain
    by (discriminate || (intros k' p casc H; simpl in H; intuition congruence)).
  rewrite execute_update_eq. cbn zeta.
  rewrite unique_ok_map_cols.
  - cbn [get_table]. rewrite Hu. unfold with_db, ret. rewrite Hc. reflexivity.
  - intros r idx k Hidx Hk. destruct (holds _); [|reflexivity].
    apply col_set_col_ne. simpl in Hidx.
    destruct Hidx as [<-|[<-|[]]]; simpl in Hk;
      repeat (destruct Hk as [<-|Hk]; [discriminate|]); contradiction.
Qed.

(** Favoriting protects a channel from the source-scoped cleanup. After
    [favorite_channel id true], [delete_channels_by_source] for any source
    keeps that channel's row, now with [favorite = 1]. *)
Theorem favorite_survives_delete_channels_by_source (channel_id s : Z) (c : conn) (r : row) :
  conns_available c = true -> unique_ok Tchannels (channels (cdb c)) = true ->
  In r (channels (cdb c)) -> col r "id" = VInt channel_id ->
  In (set_col r "favorite" (VInt 1))
     (channels (cdb (snd (delete_channels_by_source no_fault s
                            (snd (favorite_channel no_fault channel_id true c)))))).
Proof.
  intros Hc Hu Hin Hid. rewrite favorite_channel_run by assumption. cbn [snd].
  unfold delete_channels_by_source, bind, get_conn, exec, no_fault. cbn [conns_available]. rewrite Hc.
  rewrite execute_write_delete_channels_eq by reflexivity. unfold ret, with_db.
  cbn [snd cdb foreign_keys last_insert_rowid conns_available].
  destruct (foreign_keys c); [rewrite cascade_channels|]; cbn [set_table channels cdb];
  apply filter_In; (split; [|simpl; rewrite col_set_col_eq; simpl; rewrite and3_false_r; reflexivity]).
  all: apply in_map_iff; exists r; split; [|exact Hin];
    rewrite Hid; simpl; rewrite Z.eqb_refl; reflexivity.
Qed.

Lemma favorite_survives_delete_channels_by_source_witness :
  conns_available sample_conn = true /\ unique_ok Tchannels (channels (cdb sample_conn)) = true /\
  In (sample_channel_row 2 "B" 1 false (Some 10)) (channels (cdb sample_conn)) /\
  In (set_col (sample_channel_row 2 "B" 1 false (Some 10)) "favorite" (VInt 1))
     (channels (cdb (snd (delete_channels_by_source no_fault 1
                            (snd (favorite_channel no_fault 2 true sample_conn)))))).
Proof.
  split; [reflexivity|]. split; [reflexivity|]. split; [right; left; reflexivity|].
  apply (favorite_survives_delete_channels_by_source 2 1 sample_conn); [reflexivity | reflexivity | right; left; reflexivity | reflexivity].
Defined.

(** ** insert_channel and channel_exists *)

Lemma index_collides_true (idx : list string) (a b : row) :
  index_collides idx a b = true -> forall k, In k idx -> col a k = col b k.
Proof.
  unfold index_collides. intros H k Hk.
  pose proof (proj1 (List.forallb_forall _ _) H k Hk) as E. simpl in E.
  destruct (col a k) as [|x|x], (col b k) as [|y|y]; simpl in E; try discriminate.
  - destruct (Z.eqb_spec x y); [congruence | discriminate].
  - destruct (String.eqb_spec x y); [congruence | discriminate].
Qed.

Lemma collides_true (t : table) (a b : row) :
  collides t a b = true ->
  exists idx, In idx (unique_indexes t) /\ forall k, In k idx -> col a k = col b k.
Proof.
  unfold collides. intros H. apply existsb_exists in H as [idx [Hi H]].
  exists idx. split; [exact Hi | exact (index_collides_true idx a b H)].
Qed.

Lemma exists_query_true (t : table) (w : list cond) (ps : list sql_value) (c : conn) (r : row) :
  length ps = where_arity w -> In r (get_table (cdb c) t) -> holds (eval_where (cdb c) w ps r) = true ->
  exists_query (Select t w false) ps c = (Ok true, c).
Proof.
  intros Hl Hin Hr. unfold exists_query, bind, query, select_rows. simpl stmt_arity.
  rewrite Nat.add_0_r, Hl, Nat.eqb_refl. simpl negb. cbv iota.
  rewrite <- Hl, firstn_all.
  destruct (List.filter _ _) as [|x l] eqn:E; [|reflexivity].
  exfalso. rewrite (filter_nil_none _ _ E r Hin) in Hr. discriminate.
Qed.

Lemma execute_statement_flags (s : stmt) (ps : list sql_value) (c c0 : conn) (n : nat) :
  execute_statement s ps c = Ok (n, c0) ->
  conns_available c0 = conns_available c /\ foreign_keys c0 = foreign_keys c.
Proof.
  unfold execute_statement. destruct (negb _); [discriminate|].
  destruct s; cbv zeta; repeat case_match; intros Hr; try discriminate;
    injection Hr as _ <-; split; reflexivity.
Qed.

(** A successful write: the statement's own result, with the header rows
    of removed channels dropped when foreign keys are enforced. *)
Lemma execute_write_ok_tables (s : stmt) (ps : list sql_value) (c c' : conn) (n : nat) :
  execute_write s ps c = Ok (n, c') ->
  exists c0, execute_statement s ps c = Ok (n, c0) /\
    conns_available c' = conns_available c /\ foreign_keys c' = foreign_keys c /\
    last_insert_rowid c' = last_insert_rowid c0 /\
    sources (cdb c') = sources (cdb c0) /\ channels (cdb c') = channels (cdb c0) /\
    groups (cdb c') = groups (cdb c0) /\
    (forall h, In h (channel_http_headers (cdb c')) -> In h (channel_http_headers (cdb c0))).
Proof.
  intros H. apply execute_write_ok_inv in H as (c0 & Hs & ->). exists c0. split; [exact Hs|].
  destruct (execute_statement_flags _ _ _ _ _ Hs) as [Ha Hf].
  destruct (foreign_keys c); cbn [cdb with_db conns_available foreign_keys last_insert_rowid];
    rewrite ?cascade_sources, ?cascade_channels, ?cascade_groups; repeat split; auto.
  intros h Hh. exact (cascade_incl _ _ Tchannel_http_headers h Hh).
Qed.

(** [insert_channel] is INSERT OR IGNORE. Once it has returned [Ok],
    [channel_exists] finds the channel's (name, url, source), whether the
    row was inserted or ignored as a duplicate. *)
Theorem insert_channel_then_exists (fault : stmt -> list sql_value -> conn -> option string)
  (channel : Channel.t) (u : string) (s : Z) (c c' : conn) :
  conns_available c = true ->
  Channel.url channel = Some u -> Channel.source_id channel = Some s ->
  insert_channel fault channel c = (Ok tt, c') ->
  channel_exists (Channel.name channel) u s c' = (Ok true, c').
Proof.
  intros Hc Hu Hs H. unfold insert_channel, bind, exec in H.
  destruct (fault _ _ c) as [e|]; [discriminate|].
  destruct (execute_write _ _ c) as [[n c1]| |] eqn:Ew; [|discriminate|discriminate].
  injection H as <-.
  apply execute_write_ok_tables in Ew as (cs & Es & Ha & _ & _ & _ & Hch & _ & _).
  unfold execute_statement in Es. simpl in Es. rewrite Hu, Hs in Es. simpl in Es.
  assert (Hrow : forall c0 r, conns_available c0 = true -> In r (channels (cdb c0)) ->
                 col r "name" = VText (Channel.name channel) -> col r "url" = VText u ->
                 col r "source_id" = VInt s ->
                 channel_exists (Channel.name channel) u s c0 = (Ok true, c0)).
  { intros c0 r Hc0 Hin Hn Hur Hsr. unfold channel_exists, bind, get_conn.
    rewrite Hc0. cbv beta iota.
    apply (exists_query_true Tchannels _ _ c0 r); [reflexivity | exact Hin |].
    simpl. rewrite Hn, Hur, Hsr. simpl. rewrite !String.eqb_refl, Z.eqb_refl. reflexivity. }
  revert Es. destruct (find _ _) as [r'|] eqn:Hf; intros Es; injection Es as _ <-.
  - apply find_some in Hf as [Hin Hcol].
    apply collides_true in Hcol as [idx [Hidx Hk]]. simpl in Hidx.
    destruct Hidx as [<-|[<-|[]]].
    + exfalso. specialize (Hk "id"%string (or_introl eq_refl)). simpl in Hk.
      symmetry in Hk. pose proof (next_rowid_gt _ _ _ Hin Hk). lia.
    + apply (Hrow c1 r'); [congruence | rewrite Hch; exact Hin | ..].
      * rewrite <- (Hk "name"%string); [reflexivity | simpl; auto].
      * rewrite <- (Hk "url"%string); [reflexivity | simpl; auto].
      * rewrite <- (Hk "source_id"%string); [reflexivity | simpl; auto].
  - eapply Hrow; [congruence | rewrite Hch; simpl; apply in_or_app; right; left; reflexivity
                 | reflexivity | reflexivity | reflexivity].
Qed.

Lemma insert_channel_then_exists_witness :
  let ch := Channel.mk None "A" None None (Some "http://A") media_type.LIVESTREAM (Some 1) None None false in
  insert_channel no_fault ch sample_conn = (Ok tt, sample_conn) /\
  channel_exists "A" "http://A" 1 sample_conn = (Ok true, sample_conn).
Proof.
  intros ch. assert (H : insert_channel no_fault ch sample_conn = (Ok tt, sample_conn)) by reflexivity.
  split; [exact H|].
  exact (insert_channel_then_exists no_fault ch "http://A" 1 sample_conn sample_conn eq_refl eq_refl eq_refl H).
Defined.

(** ** create_or_find_source_by_name and source_name_exists *)

(** Once [create_or_find_source_by_name] has returned an id,
    [source_name_exists] finds the source's name, whether the source was
    found or inserted. *)
Theorem create_or_find_source_then_name_exists
  (fault : stmt -> list sql_value -> conn -> option string)
  (source : Source.t) (c c' : conn) (id : Z) :
  conns_available c = true ->
  create_or_find_source_by_name fault source c = (Ok id, c') ->
  source_name_exists (Source.name source) c' = (Ok true, c').
Proof.
  intros Hc H.
  unfold create_or_find_source_by_name, bind, query in H. cbv beta in H.
  rewrite select_source_by_name in H. revert H.
  destruct (List.filter _ (sources (cdb c))) as [|r0 rest] eqn:Hf; intros H.
  - unfold exec in H. destruct (fault _ _ c) as [e|]; [discriminate|].
    rewrite execute_write_insert_unchecked in H by apply sources_unchecked.
    unfold execute_statement in H. simpl in H.
    revert H. destruct (find _ _) as [r'|]; [discriminate|].
    intros H. simpl in H. injection H as _ <-.
    unfold source_name_exists, bind, get_conn. cbn [with_db conns_available]. rewrite Hc.
    cbv beta iota.
    eapply exists_query_true; [reflexivity | simpl; apply in_or_app; right; left; reflexivity |].
    simpl. rewrite String.eqb_refl. reflexivity.
  - destruct (get_i64 (col r0 "id")) as [z|]; [|discriminate].
    injection H as _ <-.
    assert (Hin : In r0 (List.filter (fun r => holds (sql_eq (col r "name") (VText (Source.name source))))
                                     (sources (cdb c)))) by (rewrite Hf; left; reflexivity).
    apply filter_In in Hin as [Hin Hn]. apply holds_sql_eq_text in Hn.
    unfold source_name_exists, bind, get_conn. rewrite Hc. cbv beta iota.
    eapply exists_query_true; [reflexivity | exact Hin |].
    simpl. rewrite Hn. simpl. rewrite String.eqb_refl. reflexivity.
Qed.

Lemma create_or_find_source_then_name_exists_witness :
  let c1 := snd (create_or_find_source_by_name no_fault sample_source sample_conn) in
  create_or_find_source_by_name no_fault sample_source sample_conn = (Ok 2, c1) /\
  source_name_exists "S" c1 = (Ok true, c1).
Proof.
  intros c1.
  assert (H : create_or_find_source_by_name no_fault sample_source sample_conn = (Ok 2, c1))
    by reflexivity.
  split; [exact H|].
  exact (create_or_find_source_then_name_exists no_fault sample_source sample_conn c1 2 eq_refl H).
Defined.

(** ** add_custom_group, get_group_by_id and group_exists *)

Lemma filter_fresh_id (rs : list row) :
  List.filter (fun r => holds (sql_eq (col r "id") (VInt (next_rowid rs)))) rs = [].
Proof.
  apply filter_all_false. intros r Hin.
  destruct (holds (sql_eq (col r "id") (VInt (next_rowid rs)))) eqn:E; [|reflexivity].
  apply holds_sql_eq_int in E. pose proof (next_rowid_gt rs r _ Hin E). lia.
Qed.

(** [add_custom_group] followed by [get_group_by_id] on the id it
    returned gives back the group, with that id. [group_exists] then
    finds the group's (name, source). *)
Theorem add_custom_group_round_trip (fault : stmt -> list sql_value -> conn -> option string)
  (group : Group.t) (c c' : conn) (gid : Z) :
  conns_available c = true ->
  add_custom_group fault group c = (Ok gid, c') ->
  get_group_by_id gid c'
    = (Ok (Some (Group.mk (Some gid) (Group.name group) (Group.image group) (Group.source_id group))), c') /\
  (forall s, Group.source_id group = Some s -> group_exists (Group.name group) s c' = (Ok true, c')).
Proof.
  intros Hc H. unfold add_custom_group, bind, exec in H.
  destruct (fault _ _ c) as [e|]; [discriminate|].
  destruct (execute_write _ _ c) as [[n c1]| |] eqn:Ew; [|discriminate|discriminate].
  apply execute_write_ok_tables in Ew as (cs & Es & Ha & _ & Hl & _ & _ & Hg & _).
  unfold execute_statement in Es. simpl in Es.
  revert Es. destruct (find _ _) as [r'|]; [discriminate|].
  intros Es. injection Es as _ <-. cbn in H. injection H as <- <-.
  rewrite Hl. cbn [last_insert_rowid with_db].
  split.
  - unfold get_group_by_id, bind, get_conn, query. rewrite Ha, Hc.
    cbv beta iota. rewrite select_eq1. cbn [get_table]. rewrite Hg. cbn [with_db cdb set_table groups].
    rewrite List.filter_app, filter_fresh_id. simpl. rewrite Z.eqb_refl. simpl.
    unfold row_to_custom_group. simpl.
    destruct (Group.image group), (Group.source_id group); reflexivity.
  - intros s Hs. unfold group_exists, bind, get_conn. rewrite Ha, Hc.
    cbv beta iota.
    eapply exists_query_true; [reflexivity | cbn [get_table]; rewrite Hg; simpl; apply in_or_app; right; left; reflexivity |].
    simpl. rewrite Hs. simpl. rewrite String.eqb_refl, Z.eqb_refl. reflexivity.
Qed.

Lemma add_custom_group_round_trip_witness :
  let g := Group.mk None "Movies" None (Some 1) in
  let c1 := snd (add_custom_group no_fault g sample_conn) in
  add_custom_group no_fault g sample_conn = (Ok 11, c1) /\
  get_group_by_id 11 c1 = (Ok (Some (Group.mk (Some 11) "Movies" None (Some 1))), c1).
Proof.
  intros g c1. assert (H : add_custom_group no_fault g sample_conn = (Ok 11, c1)) by reflexivity.
  split; [exact H|].
  exact (proj1 (add_custom_group_round_trip no_fault g sample_conn c1 11 eq_refl H)).
Defined.

(** Unlike [insert_group] (INSERT OR IGNORE), [add_custom_group] is a
    plain INSERT. For a (name, source) that is already stored, it fails
    with an error and leaves the state unchanged. *)
Theorem add_custom_group_duplicate_fails (fault : stmt -> list sql_value -> conn -> option string)
  (group : Group.t) (c : conn) (r : row) (s : Z) :
  Group.source_id group = Some s -> In r (groups (cdb c)) ->
  col r "name" = VText (Group.name group) -> col r "source_id" = VInt s ->
  exists e, add_custom_group fault group c = (Err e, c).
Proof.
  intros Hs Hin Hn Hsr. unfold add_custom_group, bind, exec.
  destruct (fault _ _ c) as [e|]; [eexists; reflexivity|].
  match goal with |- context [execute_write ?st ?ps c] =>
    enough (Es : execute_statement st ps c = Err "UNIQUE constraint failed")
      by (rewrite (execute_write_err _ _ _ _ Es); eexists; reflexivity) end.
  unfold execute_statement. simpl. rewrite Hs.
  destruct (find _ _) as [r'|] eqn:Hf; [reflexivity|].
  exfalso. apply (find_none _ _ Hf) in Hin. revert Hin.
  unfold collides, index_collides. simpl. rewrite Hn, Hsr. simpl.
  rewrite String.eqb_refl, Z.eqb_refl, !orb_true_r. discriminate.
Qed.

Lemma add_custom_group_duplicate_fails_witness :
  exists e, add_custom_group no_fault (Group.mk None "News" None (Some 1)) sample_conn = (Err e, sample_conn).
Proof.
  apply (add_custom_group_duplicate_fails no_fault _ sample_conn (sample_group_row 10 "News" 1) 1);
    [reflexivity | left; reflexivity | reflexivity | reflexivity].
Defined.

(** ** edit_custom_group *)

(** Renaming a group to the name of another group of the same source
    violates [index_group_unique]. [edit_custom_group] then fails, and
    the state is left as it was. *)
Theorem edit_custom_group_name_clash_fails (fault : stmt -> list sql_value -> conn -> option string)
  (group : Group.t) (c : conn) (gid g2 s : Z) (r1 r2 : row) :
  Group.id group = Some gid ->
  In r1 (groups (cdb c)) -> col r1 "id" = VInt gid -> col r1 "source_id" = VInt s ->
  In r2 (groups (cdb c)) -> col r2 "id" = VInt g2 -> g2 <> gid ->
  col r2 "name" = VText (Group.name group) -> col r2 "source_id" = VInt s ->
  exists e, edit_custom_group fault group c = (Err e, c).
Proof.
  intros Hid Hin1 Hid1 Hs1 Hin2 Hid2 Hne Hn2 Hs2.
  unfold edit_custom_group, bind, get_conn.
  destruct (conns_available c); [|eexists; reflexivity]. cbv beta iota.
  unfold exec. destruct (fault _ _ c) as [e|]; [eexists; reflexivity|].
  match goal with |- context [execute_write ?st ?ps c] =>
    enough (Es : execute_statement st ps c = Err "UNIQUE constraint failed")
      by (rewrite (execute_write_err _ _ _ _ Es); eexists; reflexivity) end.
  unfold execute_statement. cbn -[eval_where unique_ok]. rewrite Hid.
  match goal with |- context [map ?f (groups (cdb c))] => set (upd := f) end.
  destruct (unique_ok Tgroups (map upd (groups (cdb c)))) eqn:Hu; [exfalso | reflexivity].
  assert (U1 : upd r1 = set_col (set_col r1 "name" (VText (Group.name group))) "image"
                                (opt_text (Group.image group))).
  { unfold upd. rewrite holds_where_single. simpl. rewrite Hid1. simpl. rewrite Z.eqb_refl. reflexivity. }
  assert (U2 : upd r2 = r2).
  { unfold upd. rewrite holds_where_single. simpl. rewrite Hid2. simpl.
    destruct (Z.eqb_spec g2 gid); [contradiction | reflexivity]. }
  assert (C1 : col (upd r1) "name" = VText (Group.name group))
    by (rewrite U1, col_set_col_ne, col_set_col_eq by discriminate; reflexivity).
  assert (C2 : col (upd r1) "source_id" = VInt s)
    by (rewrite U1, !col_set_col_ne by discriminate; exact Hs1).
  assert (C3 : col (upd r1) "id" = VInt gid)
    by (rewrite U1, !col_set_col_ne by discriminate; exact Hid1).
  pose proof (unique_ok_distinct Tgroups _ (upd r1) (upd r2) Hu
                (in_map upd _ r1 Hin1) (in_map upd _ r2 Hin2)) as Hd.
  rewrite U2 in Hd.
  assert (Hneq : upd r1 <> r2) by (intros E; rewrite <- E, C3 in Hid2; congruence).
  specialize (Hd Hneq). revert Hd. unfold collides, index_collides. simpl.
  rewrite C1, C2, Hn2, Hs2. simpl. rewrite String.eqb_refl, Z.eqb_refl, !orb_true_r. discriminate.
Qed.

Lemma edit_custom_group_name_clash_fails_witness :
  let c := mkConn (mkDb [sample_source_row 1 "Provider"] []
                        [sample_group_row 10 "News" 1; sample_group_row 11 "Sport" 1] []) 0 true true in
  exists e, edit_custom_group no_fault (Group.mk (Some 11) "News" None (Some 1)) c = (Err e, c).
Proof.
  intros c.
  apply (edit_custom_group_name_clash_fails no_fault _ c 11 10 1
           (sample_group_row 11 "Sport" 1) (sample_group_row 10 "News" 1));
    [reflexivity | right; left; reflexivity | reflexivity | reflexivity
    | left; reflexivity | reflexivity | lia | reflexivity | reflexivity].
Defined.

(** ** delete_custom_group *)

(** An UPDATE that keeps every parent key, and gives each child row
    either its old key or a key with a parent, passes the foreign-key
    check. *)
Lemma fk_ok_keep_or_parent (old new : db) :
  (forall p v, has_parent old p v = true -> has_parent new p v = true) ->
  (forall ct k p casc r, In (k, p, casc) (foreign_keys_of ct) -> In r (get_table new ct) ->
     has_parent new p (col r k) = true \/
     exists r0, In r0 (get_table old ct) /\ col r0 "id" = col r "id" /\ col r0 k = col r k) ->
  fk_ok old new = true.
Proof.
  intros Hp Hr. unfold fk_ok. apply forallb_forall. intros ct _.
  apply forallb_forall. intros [[k p] casc] Hfk. apply forallb_forall. intros r Hin.
  unfold fk_row_ok.
  destruct (Hr ct k p casc r Hfk Hin) as [Hh | (r0 & Hin0 & Hid & Hk)]; [rewrite Hh; reflexivity|].
  destruct (has_parent old p (col r0 k)) eqn:E.
  - rewrite Hk in E. rewrite (Hp _ _ E). reflexivity.
  - apply orb_true_iff. right. apply existsb_exists. exists r0. split; [exact Hin0|].
    rewrite E, Hid, Hk, !sql_value_eqb_refl. reflexivity.
Qed.

Lemma execute_write_keep_or_parent (s : stmt) (ps : list sql_value) (c c' : conn) (n : nat) :
  execute_statement s ps c = Ok (n, c') ->
  (forall p v, has_parent (cdb c) p v = true -> has_parent (cdb c') p v = true) ->
  (forall ct k p casc r, In (k, p, casc) (foreign_keys_of ct) -> In r (get_table (cdb c') ct) ->
     has_parent (cdb c') p (col r k) = true \/
     exists r0, In r0 (get_table (cdb c) ct) /\ col r0 "id" = col r "id" /\ col r0 k = col r k) ->
  execute_write s ps c = Ok (n, c').
Proof.
  intros Hs Hp Hr. unfold execute_write. rewrite Hs.
  destruct (foreign_keys c); [|reflexivity].
  cbv zeta. rewrite (cascade_keep _ _ Hp), (fk_ok_keep_or_parent _ _ Hp Hr), with_db_same. reflexivity.
Qed.

(** Only [channel_http_headers] cascades, from [channels]: a statement
    that keeps the [channels] table cascades nothing. *)
Lemma cascade_same_channels (old new : db) : channels new = channels old -> cascade old new = new.
Proof.
  intros Hch. transitivity (mkDb (sources (cascade old new)) (channels (cascade old new))
                                 (groups (cascade old new)) (channel_http_headers (cascade old new)));
    [reflexivity|].
  rewrite cascade_sources, cascade_channels, cascade_groups, (cascade_headers_same _ _ Hch).
  destruct new; reflexivity.
Qed.

Lemma filter_after_negb {A} (p : A -> bool) (l : list A) :
  List.filter p (List.filter (fun x => negb (p x)) l) = [].
Proof.
  apply filter_all_false. intros x Hx. apply filter_In in Hx as [_ Hx].
  destruct (p x); [discriminate | reflexivity].
Qed.

(** The UPDATE of [delete_custom_group]. It succeeds when the channels'
    unique indexes hold and, on a connection that enforces foreign keys,
    [new_id] is [None] or names a group. *)
Lemma exec_regroup_ok (id : Z) (new_id : option Z) (c : conn) :
  unique_ok Tchannels (channels (cdb c)) = true ->
  (foreign_keys c = true -> forall n, new_id = Some n ->
     exists g, In g (groups (cdb c)) /\ col g "id" = VInt n) ->
  exec no_fault (Update Tchannels ["group_id"] [Atom (AEqParam "group_id")]) [opt_int new_id; VInt id] c
  = (Ok (length (List.filter (fun r => holds (sql_eq (col r "group_id") (VInt id))) (channels (cdb c)))),
     with_db c (set_table (cdb c) Tchannels
                  (map (fun r => if holds (sql_eq (col r "group_id") (VInt id))
                                 then set_col r "group_id" (opt_int new_id) else r)
                       (channels (cdb c))))
             (last_insert_rowid c)).
Proof.
  intros Hu Hg. unfold exec, no_fault.
  match goal with |- _ = (Ok ?n, ?c1) =>
    assert (Es : execute_statement (Update Tchannels ["group_id"] [Atom (AEqParam "group_id")])
                   [opt_int new_id; VInt id] c = Ok (n, c1)) end.
  { rewrite execute_update_eq. cbv zeta. rewrite unique_ok_map_cols.
    - cbn [get_table]. rewrite Hu. reflexivity.
    - intros r idx k Hidx Hk. destruct (holds _); [|reflexivity].
      apply col_set_col_ne. simpl in Hidx.
      destruct Hidx as [<-|[<-|[]]]; simpl in Hk;
        repeat (destruct Hk as [<-|Hk]; [discriminate|]); contradiction. }
  destruct (foreign_keys c) eqn:Hf.
  - rewrite (execute_write_keep_or_parent _ _ _ _ _ Es); [reflexivity| |].
    + apply has_parent_ids. intros p r Hr.
      destruct (in_set_table_map (cdb c) Tchannels p
                  (fun r => if holds (sql_eq (col r "group_id") (VInt id))
                            then set_col r "group_id" (opt_int new_id) else r) r Hr)
        as (r' & Hr' & Hor); exists r'; (split; [exact Hr'|]).
      destruct Hor as [-> | ->]; [reflexivity|].
      destruct (holds _); [apply col_set_col_ne; discriminate | reflexivity].
    + intros ct k p casc r Hfk Hr. cbn [cdb with_db] in Hr |- *.
      destruct (in_set_table_map_inv _ _ _ _ _ Hr) as (r0 & Hr0 & [-> | [-> ->]]);
        [right; exists r0; auto|].
      cbv beta. destruct (holds (sql_eq (col r0 "group_id") (VInt id))); [|right; exists r0; auto].
      simpl in Hfk. destruct Hfk as [Hfk|[Hfk|[]]]; injection Hfk as <- <- _.
      * right. exists r0. split; [exact Hr0|]. split; symmetry; apply col_set_col_ne; discriminate.
      * left. rewrite col_set_col_eq. destruct new_id as [n|]; [|reflexivity].
        destruct (Hg eq_refl n eq_refl) as (g & Hin & Hid).
        unfold has_parent. simpl opt_int. rewrite get_set_table_ne by discriminate.
        apply existsb_exists. exists g. split; [exact Hin|]. rewrite Hid. simpl. rewrite Z.eqb_refl. reflexivity.
  - rewrite execute_write_fk_off by exact Hf. rewrite Es. reflexivity.
Qed.

(** The DELETE of [delete_custom_group]. It succeeds when no channel
    points at the group, whatever the connection's foreign keys. *)
Lemma exec_delete_group_ok (id : Z) (c : conn) :
  (forall x, In x (channels (cdb c)) -> col x "group_id" <> VInt id) ->
  exec no_fault (Delete Tgroups [Atom (AEqParam "id")]) [VInt id] c
  = (Ok (length (List.filter (fun r => holds (sql_eq (col r "id") (VInt id))) (groups (cdb c)))),
     with_db c (set_table (cdb c) Tgroups
                  (List.filter (fun r => negb (holds (sql_eq (col r "id") (VInt id)))) (groups (cdb c))))
             (last_insert_rowid c)).
Proof.
  intros Hx. rewrite (exec_delete_eq_ok Tgroups).
  - cbn zeta. destruct (foreign_keys c); [|reflexivity].
    rewrite cascade_same_channels by reflexivity. reflexivity.
  - intros ct k p r Hfk Hr Hh.
    destruct p; try (rewrite has_parent_set_ne by discriminate; exact Hh).
    assert (E : ct = Tchannels /\ k = "group_id"%string) by (destruct ct; simpl in Hfk; intuition congruence).
    destruct E as [-> ->]. cbn [get_table set_table] in Hr.
    unfold has_parent in *. destruct (col r "group_id") as [|z|z] eqn:Ev; [reflexivity| |];
      apply existsb_exists in Hh as (pr & Hin & Hs); apply existsb_exists; exists pr;
      (split; [|exact Hs]); cbn [get_table set_table]; apply filter_In; (split; [exact Hin|]);
      apply negb_true_iff;
      (destruct (holds (sql_eq (col pr "id") (VInt id))) eqn:E; [exfalso|reflexivity]);
      apply holds_sql_eq_same in E as [E _]; apply holds_sql_eq_same in Hs as [Hs _];
      apply (Hx r Hr); congruence.
Qed.

Lemma delete_custom_group_run_update (id : Z) (new_id : option Z) (c : conn) :
  conns_available c = true -> unique_ok Tchannels (channels (cdb c)) = true -> new_id <> Some id ->
  (foreign_keys c = true -> forall n, new_id = Some n ->
     exists g, In g (groups (cdb c)) /\ col g "id" = VInt n) ->
  delete_custom_group no_fault id new_id true c =
  (Ok tt, mkConn (mkDb (sources (cdb c))
                       (map (fun r => if holds (sql_eq (col r "group_id") (VInt id))
                                      then set_col r "group_id" (opt_int new_id) else r)
                            (channels (cdb c)))
                       (List.filter (fun r => negb (holds (sql_eq (col r "id") (VInt id)))) (groups (cdb c)))
                       (channel_http_headers (cdb c)))
                 (last_insert_rowid c) (conns_available c) (foreign_keys c)).
Proof.
  intros Hc Hu Hne Hg. unfold delete_custom_group, bind, get_conn. rewrite Hc. cbv beta iota.
  rewrite exec_regroup_ok by assumption. cbv beta iota.
  rewrite exec_delete_group_ok.
  - unfold ret, with_db. cbn. rewrite Hc. reflexivity.
  - intros x Hx. cbn [cdb with_db set_table channels] in Hx. apply in_map_iff in Hx as (r & <- & Hr).
    destruct (holds (sql_eq (col r "group_id") (VInt id))) eqn:E.
    + rewrite col_set_col_eq. destruct new_id as [n|]; simpl; congruence.
    + intros E'. rewrite E' in E. simpl in E. rewrite Z.eqb_refl in E. discriminate.
Qed.

Lemma delete_custom_group_run_plain (id : Z) (new_id : option Z) (c : conn) :
  conns_available c = true ->
  foreign_keys c = false \/ (forall x, In x (channels (cdb c)) -> col x "group_id" <> VInt id) ->
  delete_custom_group no_fault id new_id false c =
  (Ok tt, mkConn (mkDb (sources (cdb c)) (channels (cdb c))
                       (List.filter (fun r => negb (holds (sql_eq (col r "id") (VInt id)))) (groups (cdb c)))
                       (channel_http_headers (cdb c)))
                 (last_insert_rowid c) (conns_available c) (foreign_keys c)).
Proof.
  intros Hc Hor. unfold delete_custom_group, bind, get_conn. rewrite Hc. cbv beta iota.
  unfold ret at 1. cbv beta iota.
  destruct Hor as [Hf | Hx].
  - unfold exec, no_fault. rewrite execute_write_fk_off by exact Hf.
    rewrite execute_delete_eq. unfold ret, with_db. cbn. rewrite Hc, Hf. reflexivity.
  - rewrite exec_delete_group_ok by exact Hx. unfold ret, with_db. cbn. rewrite Hc. reflexivity.
Qed.

Lemma get_group_by_id_deleted (id : Z) (c : conn) (d : db) (lr : Z) (fk : bool) :
  conns_available c = true ->
  groups d = List.filter (fun r => negb (holds (sql_eq (col r "id") (VInt id)))) (groups (cdb c)) ->
  get_group_by_id id (mkConn d lr (conns_available c) fk) = (Ok None, mkConn d lr (conns_available c) fk).
Proof.
  intros Hc Hg. unfold get_group_by_id, bind, get_conn, query. cbn [conns_available]. rewrite Hc.
  cbv beta iota. rewrite select_eq1. cbn [get_table cdb]. rewrite Hg, filter_after_negb. reflexivity.
Qed.

(** [delete_custom_group id new_id true] first moves the group's
    channels to [new_id], or to no group when [new_id] is [None], then
    deletes the group. It returns [Ok] when the [channels] unique
    indexes hold and, on a connection that enforces foreign keys,
    [new_id] names an existing group. Afterwards the group is gone and
    [group_not_empty id] is false, and every channel that was in the
    group is kept with its new group id. *)
Theorem delete_custom_group_reassigns (id : Z) (new_id : option Z) (c : conn) :
  conns_available c = true -> unique_ok Tchannels (channels (cdb c)) = true ->
  new_id <> Some id ->
  (foreign_keys c = true -> forall n, new_id = Some n ->
     exists g, In g (groups (cdb c)) /\ col g "id" = VInt n) ->
  let c' := snd (delete_custom_group no_fault id new_id true c) in
  fst (delete_custom_group no_fault id new_id true c) = Ok tt /\
  get_group_by_id id c' = (Ok None, c') /\
  group_not_empty id c' = (Ok false, c') /\
  (forall r, In r (channels (cdb c)) -> col r "group_id" = VInt id ->
             In (set_col r "group_id" (opt_int new_id)) (channels (cdb c'))).
Proof.
  intros Hc Hu Hne Hg c'. unfold c'. rewrite delete_custom_group_run_update by assumption. cbn [fst snd].
  split; [reflexivity|]. split; [apply get_group_by_id_deleted; [exact Hc | reflexivity]|]. split.
  - unfold group_not_empty, bind, get_conn, exists_query, bind, query. cbn [conns_available]. rewrite Hc.
    cbv beta iota. rewrite select_eq1. cbn [get_table cdb channels].
    rewrite filter_all_false; [reflexivity|].
    intros x Hx. apply in_map_iff in Hx as [r [<- Hr]].
    destruct (holds (sql_eq (col r "group_id") (VInt id))) eqn:E; [|exact E].
    rewrite col_set_col_eq. destruct new_id as [n|]; [|reflexivity].
    simpl. destruct (Z.eqb_spec n id); [congruence | reflexivity].
  - intros r Hin Hgr. cbn [cdb channels]. apply in_map_iff. exists r. split; [|exact Hin].
    rewrite Hgr. simpl. rewrite Z.eqb_refl. reflexivity.
Qed.

(** Groups 10 and 11 of source 1, channel B in group 10; foreign keys
    enforced. *)
Lemma delete_custom_group_reassigns_witness :
  let c := mkConn (mkDb [sample_source_row 1 "Provider"]
                        [sample_channel_row 1 "A" 1 true None; sample_channel_row 2 "B" 1 false (Some 10)]
                        [sample_group_row 10 "News" 1; sample_group_row 11 "Sport" 1] []) 0 true true in
  conns_available c = true /\ unique_ok Tchannels (channels (cdb c)) = true /\
  Some 11 <> Some 10 /\
  In (sample_channel_row 2 "B" 1 false (Some 11))
     (channels (cdb (snd (delete_custom_group no_fault 10 (Some 11) true c)))).
Proof.
  intros c. split; [reflexivity|]. split; [reflexivity|]. split; [discriminate|].
  refine (proj2 (proj2 (proj2 (delete_custom_group_reassigns 10 (Some 11) c eq_refl eq_refl
                                 ltac:(discriminate) _)))
                (sample_channel_row 2 "B" 1 false (Some 10)) ltac:(simpl; auto) eq_refl).
  intros _ n Hn. injection Hn as <-. exists (sample_group_row 11 "Sport" 1). split; [simpl; auto | reflexivity].
Defined.

(** [delete_custom_group id new_id false] does not touch the
    [channels] table. It deletes the group and returns [Ok] when the
    connection does not enforce foreign keys, or when no channel points
    at the group; channels of the group then keep pointing at the
    deleted id. On a connection that enforces foreign keys, deleting an
    existing group that a channel points at fails with the foreign-key
    error, and the state is left as it was. *)
Theorem delete_custom_group_no_update (id : Z) (new_id : option Z) (c : conn) :
  conns_available c = true ->
  (foreign_keys c = false \/ (forall x, In x (channels (cdb c)) -> col x "group_id" <> VInt id) ->
   let c' := snd (delete_custom_group no_fault id new_id false c) in
   fst (delete_custom_group no_fault id new_id false c) = Ok tt /\
   channels (cdb c') = channels (cdb c) /\
   get_group_by_id id c' = (Ok None, c')) /\
  (foreign_keys c = true ->
   (exists g, In g (groups (cdb c)) /\ col g "id" = VInt id) ->
   (exists x, In x (channels (cdb c)) /\ col x "group_id" = VInt id) ->
   delete_custom_group no_fault id new_id false c = (Err "FOREIGN KEY constraint failed", c)).
Proof.
  intros Hc. split.
  - intros Hor c'. unfold c'. rewrite delete_custom_group_run_plain by assumption. cbn [fst snd].
    split; [reflexivity|]. split; [reflexivity|].
    apply get_group_by_id_deleted; [exact Hc | reflexivity].
  - intros Hf (g & Hg & Hgid) (x & Hx & Hxg).
    unfold delete_custom_group, bind, get_conn. rewrite Hc. cbv beta iota.
    unfold ret at 1. cbv beta iota. unfold exec, no_fault, execute_write.
    rewrite execute_delete_eq, Hf. cbv zeta. cbn [cdb with_db].
    rewrite cascade_same_channels by reflexivity.
    destruct (fk_ok _ _) eqn:E; [exfalso|reflexivity].
    unfold fk_ok in E. rewrite forallb_forall in E.
    specialize (E Tchannels ltac:(simpl; auto)). rewrite forallb_forall in E.
    specialize (E ("group_id"%string, Tgroups, false) ltac:(simpl; auto)). rewrite forallb_forall in E.
    specialize (E x Hx). unfold fk_row_ok in E. rewrite Hxg in E.
    apply orb_true_iff in E as [E|E].
    + unfold has_parent in E. cbn [get_table set_table] in E.
      apply existsb_exists in E as (pr & Hin & Hs). apply filter_In in Hin as [_ Hn].
      rewrite Hs in Hn. discriminate.
    + apply existsb_exists in E as (r0 & _ & Hr0).
      apply andb_true_iff in Hr0 as [Hr0 Hn]. apply andb_true_iff in Hr0 as [_ Hk].
      apply negb_true_iff in Hn.
      destruct (col r0 "group_id") as [|z|z] eqn:Ev; simpl in Hk; try discriminate.
      apply Z.eqb_eq in Hk. subst z.
      unfold has_parent in Hn. cbn [get_table] in Hn.
      rewrite (proj2 (existsb_exists _ _)) in Hn; [discriminate|].
      exists g. split; [exact Hg|]. rewrite Hgid. simpl. rewrite Z.eqb_refl. reflexivity.
Qed.

(** On [sample_conn], which enforces foreign keys, channel B is in group
    10, so the call fails. On the same database without foreign keys it
    succeeds. *)
Lemma delete_custom_group_no_update_witness :
  conns_available sample_conn = true /\
  delete_custom_group no_fault 10 None false sample_conn
  = (Err "FOREIGN KEY constraint failed", sample_conn) /\
  conns_available (mkConn sample_db 0 true false) = true /\
  channels (cdb (snd (delete_custom_group no_fault 10 None false (mkConn sample_db 0 true false))))
  = channels sample_db.
Proof.
  split; [reflexivity|]. split.
  - apply (proj2 (delete_custom_group_no_update 10 None sample_conn eq_refl) eq_refl).
    + exists (sample_group_row 10 "News" 1). split; [simpl; auto | reflexivity].
    + exists (sample_channel_row 2 "B" 1 false (Some 10)). split; [simpl; auto | reflexivity].
  - split; [reflexivity|].
    exact (proj1 (proj2 (proj1 (delete_custom_group_no_update 10 None (mkConn sample_db 0 true false) eq_refl)
                                 (or_introl eq_refl)))).
Defined.

(** ** add_custom_channel on a duplicate *)

(** An INSERT that appends one row passes the foreign-key check when
    each foreign key of the new row has a parent. *)
Lemma execute_write_append (t : table) (b : bool) (cols : list string)
  (u : option (string * list string)) (ps : list sql_value) (c : conn) (r : row) (rid : Z) (n : nat) :
  execute_statement (Insert t b cols u) ps c
  = Ok (n, with_db c (set_table (cdb c) t (get_table (cdb c) t ++ [r])) rid) ->
  (foreign_keys c = true -> forall k p casc, In (k, p, casc) (foreign_keys_of t) ->
     has_parent (cdb c) p (col r k) = true) ->
  execute_write (Insert t b cols u) ps c
  = Ok (n, with_db c (set_table (cdb c) t (get_table (cdb c) t ++ [r])) rid).
Proof.
  intros Es Hp. destruct (foreign_keys c) eqn:Hf; [|rewrite execute_write_fk_off by exact Hf; exact Es].
  assert (Hpp : forall p v, has_parent (cdb c) p v = true ->
                  has_parent (cdb (with_db c (set_table (cdb c) t (get_table (cdb c) t ++ [r])) rid)) p v = true).
  { apply has_parent_ids. intros p r0 Hr0. exists r0. split; [|reflexivity]. cbn [cdb with_db].
    destruct t, p; simpl; solve [exact Hr0 | apply in_or_app; left; exact Hr0]. }
  apply (execute_write_keep_or_parent _ _ _ _ _ Es Hpp).
  intros ct k p casc r0 Hfk Hr0. cbn [cdb with_db] in Hr0 |- *.
  destruct t, ct; cbn [get_table set_table cdb] in Hr0 |- *;
    try (right; exists r0; split; [exact Hr0 | split; reflexivity]);
    (apply in_app_or in Hr0 as [Hr0|[<-|[]]];
     [right; exists r0; split; [exact Hr0 | split; reflexivity] | left; apply Hpp, (Hp eq_refl _ _ casc Hfk)]).
Qed.

(** When the [INSERT OR IGNORE] of [insert_channel] is ignored because
    the channel already exists, [add_custom_channel] still inserts the
    non-empty headers. It takes their [channel_id] from
    [last_insert_rowid], which is the id from an earlier insert on the
    connection and not the existing channel's id. When no headers row
    has that id yet and, on a connection that enforces foreign keys, a
    channel has it, one headers row is appended with that stale id, and
    the channels are unchanged. *)
Theorem add_custom_channel_duplicate_stale_headers (ch : CustomChannel.t)
  (h : ChannelHttpHeaders.t) (c : conn) :
  insert_channel no_fault (CustomChannel.data ch) c = (Ok tt, c) ->
  CustomChannel.headers ch = Some h -> channel_headers_empty h = false ->
  (forall r, In r (channel_http_headers (cdb c)) -> col r "channel_id" <> VInt (last_insert_rowid c)) ->
  (foreign_keys c = true ->
     exists x, In x (channels (cdb c)) /\ col x "id" = VInt (last_insert_rowid c)) ->
  exists c', add_custom_channel no_fault ch c = (Ok tt, c') /\
    channels (cdb c') = channels (cdb c) /\
    exists r, channel_http_headers (cdb c') = channel_http_headers (cdb c) ++ [r] /\
      col r "channel_id" = VInt (last_insert_rowid c) /\
      col r "referrer" = opt_text (ChannelHttpHeaders.referrer h) /\
      col r "user_agent" = opt_text (ChannelHttpHeaders.user_agent h) /\
      col r "http_origin" = opt_text (ChannelHttpHeaders.http_origin h).
Proof.
  intros Hins Hh He Hno Hfk. unfold add_custom_channel, bind. rewrite Hins, Hh, He. cbv beta iota.
  unfold get_last_insert_rowid, insert_channel_headers, bind, exec, no_fault. cbv beta iota.
  match goal with |- context [execute_write (Insert ?t ?b ?cols ?u) ?ps c] =>
    assert (Es : execute_statement (Insert t b cols u) ps c =
       Ok (1%nat, with_db c (set_table (cdb c) t (get_table (cdb c) t ++
                   [insert_row t (next_rowid (get_table (cdb c) t)) cols ps]))
                 (next_rowid (get_table (cdb c) t))))
  end.
  { unfold execute_statement. cbn -[find collides next_rowid insert_row].
    destruct (find _ _) as [r'|] eqn:Hf; [exfalso|reflexivity].
    apply find_some in Hf as [Hin Hcol].
    apply collides_true in Hcol as [idx [Hidx Hk]]. simpl in Hidx.
    destruct Hidx as [<-|[<-|[]]].
    - specialize (Hk "id"%string (or_introl eq_refl)). simpl in Hk.
      symmetry in Hk. pose proof (next_rowid_gt _ _ _ Hin Hk). lia.
    - specialize (Hk "channel_id"%string (or_introl eq_refl)). simpl in Hk.
      apply (Hno r' Hin). rewrite <- Hk. reflexivity. }
  rewrite (execute_write_append _ _ _ _ _ _ _ _ _ Es).
  - cbv beta iota. eexists. split; [reflexivity|]. split; [reflexivity|].
    eexists. split; [reflexivity|]. repeat split; reflexivity.
  - intros Hf k p casc Hk. simpl in Hk. destruct Hk as [Hk|[]]. injection Hk as <- <- _.
    destruct (Hfk Hf) as (x & Hx & Hid).
    match goal with |- has_parent _ _ (col ?r _) = _ =>
      change (col r "channel_id") with (VInt (last_insert_rowid c)) end.
    unfold has_parent. cbn [get_table]. apply existsb_exists. exists x. split; [exact Hx|].
    rewrite Hid. simpl. rewrite Z.eqb_refl. reflexivity.
Qed.

(** The duplicate of channel A, with [last_insert_rowid] 2, the id of
    channel B; foreign keys enforced. *)
Lemma add_custom_channel_duplicate_stale_headers_witness :
  let h := ChannelHttpHeaders.mk None None (Some "http://ref") None None None in
  let ch := CustomChannel.mk
              (Channel.mk None "A" None None (Some "http://A") media_type.LIVESTREAM (Some 1) None None false)
              (Some h) in
  let c := mkConn sample_db 2 true true in
  exists c', add_custom_channel no_fault ch c = (Ok tt, c') /\
    channels (cdb c') = channels (cdb c) /\
    exists r, channel_http_headers (cdb c') = channel_http_headers (cdb c) ++ [r] /\
      col r "channel_id" = VInt 2 /\
      col r "referrer" = opt_text (ChannelHttpHeaders.referrer h) /\
      col r "user_agent" = opt_text (ChannelHttpHeaders.user_agent h) /\
      col r "http_origin" = opt_text (ChannelHttpHeaders.http_origin h).
Proof.
  intros h ch c.
  apply (add_custom_channel_duplicate_stale_headers ch h c);
    [vm_compute; reflexivity | reflexivity | reflexivity | intros r [] |].
  intros _. exists (sample_channel_row 2 "B" 1 false (Some 10)). split; [simpl; auto | reflexivity].
Defined.

(** ** delete_custom_channel *)

Lemma existsb_id_filter_other (l : list row) (v w : sql_value) :
  v <> w ->
  existsb (fun pr => holds (sql_eq (col pr "id") v))
          (List.filter (fun r => negb (holds (sql_eq (col r "id") w))) l)
  = existsb (fun pr => holds (sql_eq (col pr "id") v)) l.
Proof.
  intros Hne. induction l as [|r l IH]; [reflexivity|]. cbn [List.filter existsb].
  destruct (holds (sql_eq (col r "id") w)) eqn:Ew; cbn [negb existsb]; rewrite IH; [|reflexivity].
  destruct (holds (sql_eq (col r "id") v)) eqn:Ev; [|reflexivity]. exfalso.
  apply holds_sql_eq_same in Ew as [Ew _]. apply holds_sql_eq_same in Ev as [Ev _]. congruence.
Qed.

Lemma existsb_id_filter_same (l : list row) (v : sql_value) :
  existsb (fun pr => holds (sql_eq (col pr "id") v))
          (List.filter (fun r => negb (holds (sql_eq (col r "id") v))) l) = false.
Proof.
  apply not_true_is_false. intros E. apply existsb_exists in E as (pr & Hin & Hp).
  apply filter_In in Hin as [_ Hn]. rewrite Hp in Hn. discriminate.
Qed.

(** [delete_custom_channel id] removes the channel rows with that id and
    keeps the sources and groups. What happens to the channel's
    [channel_http_headers] rows depends on the connection: without
    foreign keys they stay; with foreign keys the [ON DELETE CASCADE]
    removes exactly the headers rows of that channel id, when a channel
    of that id existed. *)
Theorem delete_custom_channel_cascade (id : Z) (c : conn) :
  conns_available c = true ->
  let c' := snd (delete_custom_channel no_fault id c) in
  fst (delete_custom_channel no_fault id c) = Ok tt /\
  channels (cdb c') = List.filter (fun r => negb (holds (sql_eq (col r "id") (VInt id)))) (channels (cdb c)) /\
  sources (cdb c') = sources (cdb c) /\ groups (cdb c') = groups (cdb c) /\
  (foreign_keys c = false -> channel_http_headers (cdb c') = channel_http_headers (cdb c)) /\
  (foreign_keys c = true -> (exists x, In x (channels (cdb c)) /\ col x "id" = VInt id) ->
   channel_http_headers (cdb c')
   = List.filter (fun h => negb (holds (sql_eq (col h "channel_id") (VInt id))))
                 (channel_http_headers (cdb c))).
Proof.
  intros Hc c'. unfold c', delete_custom_channel, bind, get_conn. rewrite Hc. cbv beta iota.
  rewrite exec_delete_channels_ok. unfold ret. cbn [fst snd]. cbv zeta.
  destruct (foreign_keys c) eqn:Hf; cbn [cdb with_db];
    rewrite ?cascade_sources, ?cascade_channels, ?cascade_groups;
    (split; [reflexivity|]); (split; [reflexivity|]); (split; [reflexivity|]); (split; [reflexivity|]);
    (split; [intros E; discriminate E || reflexivity|]); [|intros E; discriminate E].
  intros _ (x & Hx & Hxid). unfold cascade, cascade_table. cbn [get_table set_table channel_http_headers].
  apply List.filter_ext. intros h. cbn [foreign_keys_of existsb cascaded]. rewrite orb_false_r.
  f_equal. unfold has_parent. cbn [get_table set_table channels].
  destruct (col h "channel_id") as [|z|z] eqn:Ev; [reflexivity| |].
  - destruct (Z.eqb_spec z id) as [->|Hne].
    + rewrite existsb_id_filter_same.
      replace (existsb _ (channels (cdb c))) with true; [simpl; rewrite Z.eqb_refl; reflexivity|].
      symmetry. apply existsb_exists. exists x. split; [exact Hx|]. rewrite Hxid. simpl.
      rewrite Z.eqb_refl. reflexivity.
    + rewrite existsb_id_filter_other by congruence.
      destruct (existsb _ _); simpl; destruct (Z.eqb_spec z id); first [contradiction | reflexivity].
  - rewrite existsb_id_filter_other by discriminate. destruct (existsb _ _); reflexivity.
Qed.

(** Channel 5 with a headers row: with foreign keys the row goes, without
    them it stays. *)
Lemma delete_custom_channel_cascade_witness :
  let d := mkDb [sample_source_row 1 "Provider"] [sample_channel_row 5 "X" 1 false None] []
                [[("id", VInt 1); ("channel_id", VInt 5)]]%string in
  conns_available (mkConn d 0 true true) = true /\
  channel_http_headers (cdb (snd (delete_custom_channel no_fault 5 (mkConn d 0 true true)))) = [] /\
  channel_http_headers (cdb (snd (delete_custom_channel no_fault 5 (mkConn d 0 true false))))
  = channel_http_headers d.
Proof.
  intros d. split; [reflexivity|]. split.
  - rewrite (proj2 (proj2 (proj2 (proj2 (proj2 (delete_custom_channel_cascade 5 (mkConn d 0 true true)
                                                  eq_refl))))) eq_refl).
    + reflexivity.
    + exists (sample_channel_row 5 "X" 1 false None). split; [simpl; auto | reflexivity].
  - exact (proj1 (proj2 (proj2 (proj2 (proj2 (delete_custom_channel_cascade 5 (mkConn d 0 true false)
                                                eq_refl))))) eq_refl).
Defined.

(** ** update_settings and get_settings *)

Lemma holds_key_text (v : sql_value) (k : string) :
  holds (sql_eq v (VText k)) = true <-> v = VText k.
Proof.
  destruct v as [|z|s]; simpl; split; try discriminate; try (intros H; discriminate H).
  - destruct (String.eqb_spec s k); [intros _; congruence | discriminate].
  - intros H. injection H as ->. rewrite String.eqb_refl. reflexivity.
Qed.

(** The rows of [Settings] holding key [k] all carry value [v], and
    there is at least one. *)
Definition settings_key_is (k v : string) (rs : list row) : Prop :=
  (exists r, In r rs /\ col r "key" = VText k) /\
  (forall r, In r rs -> col r "key" = VText k -> col r "value" = VText v).

Lemma settings_upsert_key_is (k v : string) (rs : list row) :
  settings_key_is k v (settings_upsert k v rs).
Proof.
  unfold settings_upsert. destruct (existsb _ rs) eqn:E.
  - apply existsb_exists in E as [r [Hin Hr]]. apply holds_key_text in Hr. split.
    + exists (set_col r "value" (VText v)). split.
      * apply in_map_iff. exists r. split; [|exact Hin].
        replace (holds (sql_eq (col r "key") (VText k))) with true by (symmetry; apply holds_key_text; exact Hr).
        reflexivity.
      * rewrite col_set_col_ne by discriminate. exact Hr.
    + intros r' Hin' Hk. apply in_map_iff in Hin' as [x [<- Hx]].
      destruct (holds (sql_eq (col x "key") (VText k))) eqn:Ex.
      * apply col_set_col_eq.
      * exfalso. rewrite Hk in Ex. simpl in Ex. rewrite String.eqb_refl in Ex. discriminate.
  - split.
    + eexists. split; [apply in_or_app; right; left; reflexivity | reflexivity].
    + intros r Hin Hk. apply in_app_or in Hin as [Hin|[<-|[]]]; [|reflexivity].
      exfalso. assert (Hx : existsb (fun r => holds (sql_eq (col r "key") (VText k))) rs = true).
      { apply existsb_exists. exists r. split; [exact Hin|]. apply holds_key_text. exact Hk. }
      congruence.
Qed.

(** An upsert of another key leaves the rows of key [k] as they are. *)
Lemma settings_upsert_filter_other (k k' v' : string) (rs : list row) :
  k' <> k ->
  List.filter (fun r => holds (sql_eq (col r "key") (VText k))) (settings_upsert k' v' rs)
  = List.filter (fun r => holds (sql_eq (col r "key") (VText k))) rs.
Proof.
  intros Hne. unfold settings_upsert. destruct (existsb _ rs).
  - induction rs as [|r rs IH]; [reflexivity|]. cbn [map List.filter].
    rewrite IH. destruct (holds (sql_eq (col r "key") (VText k')) ) eqn:E'.
    + apply holds_key_text in E'. rewrite col_set_col_ne by discriminate. rewrite E'. simpl.
      replace (String.eqb k' k) with false by (symmetry; apply String.eqb_neq; exact Hne).
      reflexivity.
    + reflexivity.
  - rewrite List.filter_app. simpl.
    replace (String.eqb k' k) with false by (symmetry; apply String.eqb_neq; exact Hne).
    apply app_nil_r.
Qed.

Lemma settings_key_is_filter (k v : string) (rs rs' : list row) :
  List.filter (fun r => holds (sql_eq (col r "key") (VText k))) rs'
  = List.filter (fun r => holds (sql_eq (col r "key") (VText k))) rs ->
  settings_key_is k v rs -> settings_key_is k v rs'.
Proof.
  intros Hf [[r [Hin Hr]] Hall]. split.
  - assert (Hr' : In r (List.filter (fun r => holds (sql_eq (col r "key") (VText k))) rs)).
    { apply filter_In. split; [exact Hin|]. apply holds_key_text. exact Hr. }
    rewrite <- Hf in Hr'. apply filter_In in Hr' as [Hin' _]. exists r. auto.
  - intros r' Hin' Hk.
    assert (Hr' : In r' (List.filter (fun r => holds (sql_eq (col r "key") (VText k))) rs')).
    { apply filter_In. split; [exact Hin'|]. apply holds_key_text. exact Hk. }
    rewrite Hf in Hr'. apply filter_In in Hr' as [Hin'' _]. auto.
Qed.

Definition settings_fold (l : list (string * string)) (rs : list row) : list row :=
  fold_left (fun acc kv => settings_upsert kv.1 kv.2 acc) l rs.

Lemma settings_fold_filter_other (k : string) (l : list (string * string)) (rs : list row) :
  (forall kv, In kv l -> kv.1 <> k) ->
  List.filter (fun r => holds (sql_eq (col r "key") (VText k))) (settings_fold l rs)
  = List.filter (fun r => holds (sql_eq (col r "key") (VText k))) rs.
Proof.
  revert rs. induction l as [|[k' v'] l IH]; intros rs Hl; [reflexivity|].
  unfold settings_fold. cbn [fold_left]. fold (settings_fold l (settings_upsert k' v' rs)).
  rewrite IH by (intros kv Hkv; apply Hl; right; exact Hkv).
  apply settings_upsert_filter_other. apply (Hl (k', v')). left. reflexivity.
Qed.

Lemma settings_fold_key_is (k v : string) (l : list (string * string)) (rs : list row) :
  NoDup l.*1 -> In (k, v) l -> settings_key_is k v (settings_fold l rs).
Proof.
  revert rs. induction l as [|[k' v'] l IH]; intros rs Hnd Hin; [destruct Hin|].
  unfold settings_fold. cbn [fold_left]. fold (settings_fold l (settings_upsert k' v' rs)).
  cbn [fmap list_fmap fst] in Hnd. apply NoDup_cons in Hnd as [Hnin Hnd].
  destruct Hin as [Heq|Hin].
  - injection Heq as -> ->.
    apply (settings_key_is_filter k v (settings_upsert k v rs)); [|apply settings_upsert_key_is].
    apply settings_fold_filter_other. intros [k2 v2] Hkv Hk. simpl in Hk. subst k2.
    apply Hnin. apply list_elem_of_fmap. exists (k, v2). split; [reflexivity|].
    apply list_elem_of_In. exact Hkv.
  - apply IH; assumption.
Qed.

(** [get_settings]'s fold only sees the rows of key [k] for the entry [k]. *)
Lemma settings_step_fold_filter (k : string) (rs : list row) (a1 a2 : gmap string string) :
  a1 !! k = a2 !! k ->
  fold_left settings_step rs a1 !! k
  = fold_left settings_step (List.filter (fun r => holds (sql_eq (col r "key") (VText k))) rs) a2 !! k.
Proof.
  revert a1 a2. induction rs as [|r rs IH]; intros a1 a2 H; [exact H|].
  cbn [fold_left List.filter]. destruct (holds (sql_eq (col r "key") (VText k))) eqn:E.
  - apply IH. apply holds_key_text in E. unfold settings_step. rewrite E. cbn [get_string].
    destruct (get_string (col r "value")); [rewrite !lookup_insert_eq; reflexivity | exact H].
  - apply IH. unfold settings_step.
    destruct (get_string (col r "key")) as [k'|] eqn:Ek; [|exact H].
    destruct (get_string (col r "value")); [|exact H].
    assert (k' <> k).
    { intros ->. destruct (col r "key") as [| |s0]; try discriminate. injection Ek as ->.
      simpl in E. rewrite String.eqb_refl in E. discriminate. }
    rewrite lookup_insert_ne by congruence. exact H.
Qed.

Lemma settings_step_fold_key_is (k v : string) (rs : list row) (a : gmap string string) :
  settings_key_is k v rs -> fold_left settings_step rs a !! k = Some v.
Proof.
  intros Hk. rewrite (settings_step_fold_filter k rs a a eq_refl).
  destruct Hk as [[r [Hin Hr]] Hall].
  assert (Hne : List.filter (fun r => holds (sql_eq (col r "key") (VText k))) rs <> []).
  { intros He. assert (Hr' : In r (List.filter (fun r => holds (sql_eq (col r "key") (VText k))) rs)).
    { apply filter_In. split; [exact Hin|]. apply holds_key_text. exact Hr. }
    rewrite He in Hr'. destruct Hr'. }
  assert (Hall' : forall x, In x (List.filter (fun r => holds (sql_eq (col r "key") (VText k))) rs) ->
                  col x "key" = VText k /\ col x "value" = VText v).
  { intros x Hx. apply filter_In in Hx as [Hx Hxk]. apply holds_key_text in Hxk. auto. }
  revert a Hne Hall'. generalize (List.filter (fun r => holds (sql_eq (col r "key") (VText k))) rs).
  intros l. induction l as [|x l IH] using rev_ind; intros a Hne Hall'; [congruence|].
  rewrite fold_left_app. cbn [fold_left].
  destruct (Hall' x ltac:(apply in_or_app; right; left; reflexivity)) as [Hxk Hxv].
  unfold settings_step. rewrite Hxk, Hxv. cbn [get_string]. apply lookup_insert_eq.
Qed.

(** [update_settings m] followed by [get_settings] reads back [m] merged
    over the settings stored before: an entry of [m] replaces the stored
    value of its key, and every other stored key keeps its value. *)
Theorem update_settings_then_get (m : gmap string string) (rs : list row) :
  fst (update_settings true m rs) = Ok tt /\
  get_settings true (snd (update_settings true m rs))
  = Ok (m ∪ fold_left settings_step rs ∅).
Proof.
  split; [reflexivity|]. unfold get_settings, update_settings. cbn [fst snd]. f_equal.
  fold (settings_fold (map_to_list m) rs).
  apply map_eq. intros k. destruct (m !! k) as [v|] eqn:Em.
  - rewrite (lookup_union_Some_l _ _ _ _ Em).
    apply settings_step_fold_key_is. apply settings_fold_key_is.
    + apply NoDup_fst_map_to_list.
    + apply list_elem_of_In. apply elem_of_map_to_list. exact Em.
  - rewrite lookup_union_r by exact Em.
    rewrite (settings_step_fold_filter k _ ∅ ∅ eq_refl).
    rewrite settings_fold_filter_other.
    + symmetry. apply settings_step_fold_filter. reflexivity.
    + intros [k' v'] Hin Hk. simpl in Hk. subst k'.
      apply list_elem_of_In, elem_of_map_to_list in Hin. congruence.
Qed.

(** ** group_auto_complete *)

Lemma like_list_percent (s : list ascii) : like_list ["%"%char] s = true.
Proof. induction s as [|a s IH]; [reflexivity|]. simpl in *. rewrite IH. reflexivity. Qed.

Lemma holds_key_int (v : sql_value) (z : Z) :
  holds (sql_eq v (VInt z)) = true -> v = VInt z.
Proof.
  destruct v as [|y|y]; simpl; try discriminate.
  destruct (Z.eqb_spec y z); [congruence | discriminate].
Qed.

Lemma omap_cons_unfold {A B} (f : A -> option B) (x : A) (l : list A) :
  omap f (x :: l) = match f x with Some y => y :: omap f l | None => omap f l end.
Proof. reflexivity. Qed.

Lemma omap_filter_andb {A B} (f : A -> option B) (p q : A -> bool) (l : list A) :
  (forall x, q x = true -> p x = false -> f x = None) ->
  omap f (List.filter (fun x => p x && q x) l) = omap f (List.filter q l).
Proof.
  intros H. induction l as [|x l IH]; [reflexivity|]. cbn [List.filter].
  destruct (q x) eqn:Eq, (p x) eqn:Ep; cbn [andb]; try exact IH.
  - rewrite !omap_cons_unfold, IH. reflexivity.
  - rewrite omap_cons_unfold, (H x Eq Ep). exact IH.
Qed.

Lemma group_auto_complete_run (q : option string) (s : Z) (c : conn) :
  conns_available c = true ->
  group_auto_complete q s c =
  (Ok (omap row_to_id_name
         (List.filter (fun r => holds (sql_like (col r "name") (VText (to_sql_like q)))
                                && holds (sql_eq (col r "source_id") (VInt s))) (groups (cdb c)))), c).
Proof.
  intros Hc. unfold group_auto_complete, bind, get_conn, query, ret. rewrite Hc. cbv beta iota.
  unfold select_rows. cbn -[eval_where List.filter]. do 3 f_equal.
  apply List.filter_ext. intros r. cbn [eval_where eval_cond eval_atom firstn skipn cond_arity atom_arity hd].
  rewrite !holds_and3. cbn [holds]. rewrite andb_true_r. reflexivity.
Qed.

(** [group_auto_complete q source_id] only returns groups of
    [source_id]: every result is read from a [groups] row of that source
    whose [name] matches the pattern. *)
Theorem group_auto_complete_scoped (q : option string) (s : Z) (c : conn) (x : IdName.t) :
  conns_available c = true ->
  (exists xs, group_auto_complete q s c = (Ok xs, c) /\ In x xs) ->
  exists r, In r (groups (cdb c)) /\ col r "source_id" = VInt s /\
            sql_like (col r "name") (VText (to_sql_like q)) = Some true /\
            row_to_id_name r = Some x.
Proof.
  intros Hc [xs [Hq Hin]]. rewrite group_auto_complete_run in Hq by exact Hc.
  injection Hq as <-. apply list_elem_of_In, list_elem_of_omap in Hin as [r [Hr Hx]].
  apply list_elem_of_In, filter_In in Hr as [Hr Hp]. apply andb_prop in Hp as [Hl Hs].
  exists r. split; [exact Hr|]. split; [apply holds_key_int; exact Hs|]. split; [|exact Hx].
  destruct (sql_like _ _) as [[|]|]; [reflexivity | discriminate | discriminate].
Qed.

(** With no query the pattern is [%], which every TEXT name matches:
    [group_auto_complete None source_id] returns every group of that
    source that reads as an [IdName], in table order. *)
Theorem group_auto_complete_none_lists_source (s : Z) (c : conn) :
  conns_available c = true ->
  group_auto_complete None s c =
  (Ok (omap row_to_id_name
         (List.filter (fun r => holds (sql_eq (col r "source_id") (VInt s))) (groups (cdb c)))), c).
Proof.
  intros Hc. rewrite group_auto_complete_run by exact Hc. do 2 f_equal.
  apply (omap_filter_andb row_to_id_name
           (fun r => holds (sql_like (col r "name") (VText (to_sql_like None))))
           (fun r => holds (sql_eq (col r "source_id") (VInt s)))).
  intros r _ Hl. unfold row_to_id_name.
  destruct (get_i64 (col r "id")); [|reflexivity]. cbn [mbind option_bind].
  destruct (col r "name") as [|y|n]; [reflexivity|reflexivity|].
  exfalso. cbn in Hl. rewrite like_list_percent in Hl. discriminate.
Qed.

Lemma group_auto_complete_none_lists_source_witness :
  conns_available sample_conn = true /\
  group_auto_complete None 1 sample_conn = (Ok [IdName.mk 10 "News"], sample_conn).
Proof.
  split; [reflexivity|].
  rewrite (group_auto_complete_none_lists_source 1 sample_conn eq_refl). reflexivity.
Defined.

Lemma group_auto_complete_scoped_witness :
  conns_available sample_conn = true /\
  (exists xs, group_auto_complete (Some "ew") 1 sample_conn = (Ok xs, sample_conn) /\ In (IdName.mk 10 "News") xs) /\
  (exists r, In r (groups (cdb sample_conn)) /\ col r "source_id" = VInt 1 /\
             sql_like (col r "name") (VText (to_sql_like (Some "ew"))) = Some true /\
             row_to_id_name r = Some (IdName.mk 10 "News")).
Proof.
  assert (H : exists xs, group_auto_complete (Some "ew") 1 sample_conn = (Ok xs, sample_conn) /\
                         In (IdName.mk 10 "News") xs)
    by (eexists; split; [reflexivity | left; reflexivity]).
  split; [reflexivity|]. split; [exact H|].
  exact (group_auto_complete_scoped (Some "ew") 1 sample_conn _ eq_refl H).
Defined.

(** ** Sources: set_source_enabled and get_enabled_sources *)

Lemma row_to_source_fields (r : row) (src : Source.t) :
  row_to_source r = Some src ->
  get_opt_i64 (col r "id") = Some (Source.id src) /\ get_bool (col r "enabled") = Some (Source.enabled src).
Proof.
  unfold row_to_source.
  destruct (get_opt_i64 (col r "id")); [|discriminate]. cbn [mbind option_bind].
  destruct (get_string (col r "name")); [|discriminate]. cbn [mbind option_bind].
  destruct (get_opt_string (col r "username")); [|discriminate]. cbn [mbind option_bind].
  destruct (get_opt_string (col r "password")); [|discriminate]. cbn [mbind option_bind].
  destruct (get_opt_string (col r "url")); [|discriminate]. cbn [mbind option_bind].
  destruct (get_u8 (col r "source_type")); [|discriminate]. cbn [mbind option_bind].
  destruct (get_bool (col r "enabled")); [|discriminate]. cbn [mbind option_bind].
  destruct (get_opt_bool (col r "use_tvg_id")); [|discriminate]. cbn [mbind option_bind].
  intros H. injection H as <-. split; reflexivity.
Qed.

Lemma get_enabled_sources_run (c : conn) :
  conns_available c = true ->
  get_enabled_sources c =
  (Ok (omap row_to_source
         (List.filter (fun r => holds (sql_eq (col r "enabled") (VInt 1))) (sources (cdb c)))), c).
Proof.
  intros Hc. unfold get_enabled_sources, bind, get_conn, query, ret. rewrite Hc. cbv beta iota.
  unfold select_rows. cbn -[List.filter]. do 3 f_equal.
  apply List.filter_ext. intros r. rewrite holds_and3, andb_true_r. reflexivity.
Qed.

Lemma set_source_enabled_run (value : bool) (id : Z) (c : conn) :
  conns_available c = true -> unique_ok Tsources (sources (cdb c)) = true ->
  set_source_enabled no_fault value id c =
  (Ok tt, mkConn (mkDb (map (fun r => if holds (sql_eq (col r "id") (VInt id))
                                      then set_col r "enabled" (bool_val value) else r)
                            (sources (cdb c)))
                       (channels (cdb c)) (groups (cdb c)) (channel_http_headers (cdb c)))
                 (last_insert_rowid c) (conns_available c) (foreign_keys c)).
Proof.
  intros Hc Hu. unfold set_source_enabled, bind, get_conn, exec, no_fault. rewrite Hc.
  cbn beta iota.
  rewrite execute_write_update_plain by (discriminate || (intros k' p casc H; simpl in H; contradiction)).
  rewrite execute_update_eq. cbn zeta.
  rewrite unique_ok_map_cols.
  - cbn [get_table]. rewrite Hu. unfold with_db, ret. rewrite Hc. reflexivity.
  - intros r idx k Hidx Hk. destruct (holds _); [|reflexivity].
    apply col_set_col_ne. simpl in Hidx.
    destruct Hidx as [<-|[<-|[]]]; simpl in Hk;
      repeat (destruct Hk as [<-|Hk]; [discriminate|]); contradiction.
Qed.

(** [get_enabled_sources] returns only sources whose [enabled] flag
    reads as true. *)
Theorem get_enabled_sources_only_enabled (c : conn) :
  conns_available c = true ->
  exists xs, get_enabled_sources c = (Ok xs, c) /\
             forall src, In src xs -> Source.enabled src = true.
Proof.
  intros Hc. rewrite get_enabled_sources_run by exact Hc. eexists. split; [reflexivity|].
  intros src Hin. apply list_elem_of_In, list_elem_of_omap in Hin as [r [Hr Hs]].
  apply list_elem_of_In, filter_In in Hr as [_ He]. apply holds_key_int in He.
  apply row_to_source_fields in Hs as [_ Hb]. rewrite He in Hb. injection Hb as <-. reflexivity.
Qed.

Lemma get_enabled_sources_only_enabled_witness :
  let c := mkConn (mkDb [[("id", VInt 1); ("name", VText "S"); ("source_type", VInt 2);
                          ("enabled", VInt 1)]; [("id", VInt 2); ("name", VText "T");
                          ("source_type", VInt 2); ("enabled", VInt 0)]]%string [] [] []) 0 true true in
  conns_available c = true /\
  exists xs, get_enabled_sources c = (Ok xs, c) /\ forall src, In src xs -> Source.enabled src = true.
Proof.
  intros c. split; [reflexivity|]. exact (get_enabled_sources_only_enabled c eq_refl).
Defined.

(** [set_source_enabled false id] succeeds when the [sources] unique
    indexes hold. Afterwards [get_enabled_sources] returns no source with
    that id. *)
Theorem set_source_enabled_false_hides (id : Z) (c : conn) :
  conns_available c = true -> unique_ok Tsources (sources (cdb c)) = true ->
  exists c', set_source_enabled no_fault false id c = (Ok tt, c') /\
  exists xs, get_enabled_sources c' = (Ok xs, c') /\
             forall src, In src xs -> Source.id src <> Some id.
Proof.
  intros Hc Hu. rewrite set_source_enabled_run by assumption. eexists. split; [reflexivity|].
  rewrite get_enabled_sources_run by exact Hc. eexists. split; [reflexivity|].
  intros src Hin Hid. apply list_elem_of_In, list_elem_of_omap in Hin as [r [Hr Hs]].
  apply list_elem_of_In, filter_In in Hr as [Hr He]. cbn [cdb sources] in Hr.
  apply in_map_iff in Hr as [r0 [<- Hr0]].
  apply row_to_source_fields in Hs as [Hi _]. rewrite Hid in Hi.
  revert He Hi. destruct (holds (sql_eq (col r0 "id") (VInt id))) eqn:E; intros He Hi.
  - rewrite col_set_col_eq in He. discriminate.
  - destruct (col r0 "id") as [|z|]; try discriminate. injection Hi as ->.
    simpl in E. rewrite Z.eqb_refl in E. discriminate.
Qed.

Lemma set_source_enabled_false_hides_witness :
  let c := mkConn (mkDb [[("id", VInt 1); ("name", VText "S"); ("source_type", VInt 2);
                          ("enabled", VInt 1)]]%string [] [] []) 0 true true in
  conns_available c = true /\ unique_ok Tsources (sources (cdb c)) = true /\
  exists c', set_source_enabled no_fault false 1 c = (Ok tt, c') /\
  exists xs, get_enabled_sources c' = (Ok xs, c') /\ forall src, In src xs -> Source.id src <> Some 1.
Proof.
  intros c. split; [reflexivity|]. split; [reflexivity|].
  exact (set_source_enabled_false_hides 1 c eq_refl eq_refl).
Defined.

(** [set_source_enabled true id] makes a source row with that id show up
    in [get_enabled_sources], provided the row reads as a [Source] once
    its flag is set. *)
Theorem set_source_enabled_true_shows (id : Z) (c : conn) (r : row) (src : Source.t) :
  conns_available c = true -> unique_ok Tsources (sources (cdb c)) = true ->
  In r (sources (cdb c)) -> col r "id" = VInt id ->
  row_to_source (set_col r "enabled" (VInt 1)) = Some src ->
  exists c', set_source_enabled no_fault true id c = (Ok tt, c') /\
  exists xs, get_enabled_sources c' = (Ok xs, c') /\ In src xs.
Proof.
  intros Hc Hu Hin Hid Hs. rewrite set_source_enabled_run by assumption. eexists. split; [reflexivity|].
  rewrite get_enabled_sources_run by exact Hc. eexists. split; [reflexivity|].
  apply list_elem_of_In, list_elem_of_omap. exists (set_col r "enabled" (VInt 1)). split; [|exact Hs].
  apply list_elem_of_In, filter_In. split.
  - cbn [cdb sources]. apply in_map_iff. exists r. split; [|exact Hin].
    rewrite Hid. simpl. rewrite Z.eqb_refl. reflexivity.
  - rewrite col_set_col_eq. reflexivity.
Qed.

Lemma set_source_enabled_true_shows_witness :
  let r := [("id", VInt 2); ("name", VText "T"); ("source_type", VInt 2); ("enabled", VInt 0)]%string in
  let c := mkConn (mkDb [r] [] [] []) 0 true true in
  exists c', set_source_enabled no_fault true 2 c = (Ok tt, c') /\
  exists xs, get_enabled_sources c' = (Ok xs, c') /\ In (Source.mk (Some 2) "T" 2 None None None true None) xs.
Proof.
  intros r c.
  exact (set_source_enabled_true_shows 2 c r _ eq_refl eq_refl (or_introl eq_refl) eq_refl eq_refl).
Defined.

(** ** Channel headers *)

(** [add_custom_channel] stores headers through [insert_channel_headers],
    whose INSERT has no [ignore_ssl] column. Two custom channels that differ
    only in a set [ignore_ssl] flag give the same result and the same
    database: the flag is dropped. *)
Theorem add_custom_channel_drops_ignore_ssl (fault : stmt -> list sql_value -> conn -> option string)
  (data : Channel.t) (hid cid : option Z) (referrer user_agent http_origin : option string)
  (b1 b2 : bool) (c : conn) :
  add_custom_channel fault
    (CustomChannel.mk data (Some (ChannelHttpHeaders.mk hid cid referrer user_agent http_origin (Some b1)))) c
  = add_custom_channel fault
      (CustomChannel.mk data (Some (ChannelHttpHeaders.mk hid cid referrer user_agent http_origin (Some b2)))) c.
Proof. reflexivity. Qed.

Lemma get_channel_headers_by_id_tables (id : Z) (c1 c2 : conn) :
  conns_available c1 = conns_available c2 ->
  channel_http_headers (cdb c1) = channel_http_headers (cdb c2) ->
  fst (get_channel_headers_by_id id c1) = fst (get_channel_headers_by_id id c2).
Proof.
  intros Ha Hh. unfold get_channel_headers_by_id, bind, get_conn, query. rewrite Ha.
  destruct (conns_available c2); [|reflexivity]. cbv beta iota.
  rewrite !select_eq1. cbn [get_table]. rewrite Hh.
  destruct (List.filter _ _) as [|r rs]; [reflexivity|].
  destruct (row_to_channel_headers r); reflexivity.
Qed.

(** A new custom channel takes rowid [next_rowid] of [channels]. When a
    [channel_http_headers] row for that id is left over, for example from
    a channel deleted on a connection without foreign keys, the INSERT OR
    IGNORE of the new headers is ignored. The new channel then reads the
    old headers through [get_channel_headers_by_id]. On a connection that
    enforces foreign keys the channel's source, and its group if it has
    one, must exist. *)
Theorem add_custom_channel_inherits_stale_headers (ch : CustomChannel.t) (h : ChannelHttpHeaders.t)
  (u : string) (s : Z) (hr : row) (c : conn) :
  conns_available c = true ->
  Channel.url (CustomChannel.data ch) = Some u -> Channel.source_id (CustomChannel.data ch) = Some s ->
  channel_exists (Channel.name (CustomChannel.data ch)) u s c = (Ok false, c) ->
  CustomChannel.headers ch = Some h -> channel_headers_empty h = false ->
  In hr (channel_http_headers (cdb c)) -> col hr "channel_id" = VInt (next_rowid (channels (cdb c))) ->
  (foreign_keys c = true ->
     (exists x, In x (sources (cdb c)) /\ col x "id" = VInt s) /\
     (forall g, Channel.group_id (CustomChannel.data ch) = Some g ->
        exists x, In x (groups (cdb c)) /\ col x "id" = VInt g)) ->
  exists c', add_custom_channel no_fault ch c = (Ok tt, c') /\
             last_insert_rowid c' = next_rowid (channels (cdb c)) /\
             channel_http_headers (cdb c') = channel_http_headers (cdb c) /\
             fst (get_channel_headers_by_id (last_insert_rowid c') c')
             = fst (get_channel_headers_by_id (last_insert_rowid c') c).
Proof.
  intros Hc Hu Hs Hex Hh He Hhr Hcid Hfk.
  assert (Hnone : forall r, In r (channels (cdb c)) ->
                  ~ (col r "name" = VText (Channel.name (CustomChannel.data ch)) /\
                     col r "url" = VText u /\ col r "source_id" = VInt s)).
  { intros r Hin [Hn [Hur Hsr]]. unfold channel_exists, bind, get_conn, exists_query, bind, query in Hex.
    rewrite Hc in Hex. cbv beta iota in Hex. unfold select_rows in Hex. cbn -[List.filter eval_where] in Hex.
    destruct (List.filter _ _) as [|x l] eqn:Ef; [|discriminate].
    pose proof (filter_nil_none _ _ Ef r Hin) as Hr. cbn in Hr.
    rewrite Hn, Hur, Hsr in Hr. simpl in Hr. rewrite !String.eqb_refl, Z.eqb_refl in Hr. discriminate. }
  unfold add_custom_channel, bind, insert_channel, bind, exec, no_fault.
  match goal with |- context [execute_write (Insert ?t ?b ?cols ?up) ?ps c] =>
    assert (Es : execute_statement (Insert t b cols up) ps c =
       Ok (1%nat, with_db c (set_table (cdb c) t (get_table (cdb c) t ++
                   [insert_row t (next_rowid (get_table (cdb c) t)) cols ps]))
                 (next_rowid (get_table (cdb c) t))))
  end.
  { unfold execute_statement. cbn -[find collides next_rowid insert_row].
    destruct (find _ _) as [r'|] eqn:Hf; [exfalso|reflexivity].
    apply find_some in Hf as [Hin Hcol].
    apply collides_true in Hcol as [idx [Hidx Hk]]. simpl in Hidx.
    destruct Hidx as [<-|[<-|[]]].
    - specialize (Hk "id"%string (or_introl eq_refl)). simpl in Hk.
      symmetry in Hk. pose proof (next_rowid_gt _ _ _ Hin Hk). lia.
    - apply (Hnone r' Hin). split; [|split].
      + rewrite <- (Hk "name"%string); [reflexivity | simpl; auto].
      + rewrite <- (Hk "url"%string); [simpl; rewrite Hu; reflexivity | simpl; auto].
      + rewrite <- (Hk "source_id"%string); [simpl; rewrite Hs; reflexivity | simpl; auto]. }
  rewrite (execute_write_append _ _ _ _ _ _ _ _ _ Es).
  - cbv beta iota. rewrite Hh, He. cbv beta iota.
    unfold get_last_insert_rowid, insert_channel_headers, bind, exec, no_fault, ret. cbv beta iota.
    match goal with |- context [execute_write ?st ?ps ?c1] =>
      assert (Es2 : execute_statement st ps c1 = Ok (0%nat, c1)) end.
    { unfold execute_statement. cbn -[find collides next_rowid insert_row].
      destruct (find _ _) as [r'|] eqn:Hf2; [reflexivity|exfalso].
      pose proof (find_none _ _ Hf2 hr Hhr) as Hcol.
      unfold collides, index_collides in Hcol. cbn [unique_indexes existsb forallb] in Hcol.
      rewrite Hcid in Hcol. cbn -[next_rowid] in Hcol. rewrite Z.eqb_refl, orb_true_r in Hcol.
      discriminate. }
    rewrite (execute_write_same _ _ _ _ Es2). cbv beta iota.
    eexists. split; [reflexivity|]. split; [reflexivity|]. split; [reflexivity|].
    apply get_channel_headers_by_id_tables; reflexivity.
  - intros Hf k p casc Hk. destruct (Hfk Hf) as [(x & Hx & Hxid) Hg]. simpl in Hk.
    destruct Hk as [Hk|[Hk|[]]]; injection Hk as <- <- _.
    + match goal with |- has_parent _ _ (col ?r _) = _ =>
        change (col r "source_id") with (opt_int (Channel.source_id (CustomChannel.data ch))) end.
      rewrite Hs. unfold has_parent. cbn [get_table]. apply existsb_exists. exists x.
      split; [exact Hx|]. rewrite Hxid. simpl. rewrite Z.eqb_refl. reflexivity.
    + match goal with |- has_parent _ _ (col ?r _) = _ =>
        change (col r "group_id") with (opt_int (Channel.group_id (CustomChannel.data ch))) end.
      destruct (Channel.group_id (CustomChannel.data ch)) as [g|] eqn:Eg; [|reflexivity].
      destruct (Hg g eq_refl) as (y & Hy & Hyid).
      unfold has_parent. cbn [get_table]. apply existsb_exists. exists y.
      split; [exact Hy|]. rewrite Hyid. simpl. rewrite Z.eqb_refl. reflexivity.
Qed.

(** Without foreign keys: channel 3 is deleted, its headers stay, and
    the next custom channel takes id 3 again. With foreign keys: a
    headers row for id 3 with no channel, and source 1 present. *)
Lemma add_custom_channel_inherits_stale_headers_witness :
  let c0 := mkConn (mkDb [] (sample_channel_row 3 "Old" 1 false None :: channels sample_db) []
                         [[("id", VInt 1); ("channel_id", VInt 3); ("referrer", VText "old")]]%string)
                   3 true false in
  let c := snd (delete_custom_channel no_fault 3 c0) in
  let c2 := mkConn (mkDb [sample_source_row 1 "Provider"] (channels sample_db) [sample_group_row 10 "News" 1]
                         [[("id", VInt 1); ("channel_id", VInt 3); ("referrer", VText "old")]]%string)
                   0 true true in
  let ch := CustomChannel.mk
              (Channel.mk None "C" None None (Some "http://C") media_type.LIVESTREAM (Some 1) None None false)
              (Some (ChannelHttpHeaders.mk None None (Some "new") None None None)) in
  (exists c', add_custom_channel no_fault ch c = (Ok tt, c') /\
              last_insert_rowid c' = next_rowid (channels (cdb c)) /\
              channel_http_headers (cdb c') = channel_http_headers (cdb c) /\
              fst (get_channel_headers_by_id (last_insert_rowid c') c')
              = fst (get_channel_headers_by_id (last_insert_rowid c') c)) /\
  (exists c', add_custom_channel no_fault ch c2 = (Ok tt, c') /\
              last_insert_rowid c' = next_rowid (channels (cdb c2)) /\
              channel_http_headers (cdb c') = channel_http_headers (cdb c2) /\
              fst (get_channel_headers_by_id (last_insert_rowid c') c')
              = fst (get_channel_headers_by_id (last_insert_rowid c') c2)).
Proof.
  intros c0 c c2 ch. split.
  - apply (add_custom_channel_inherits_stale_headers ch
             (ChannelHttpHeaders.mk None None (Some "new") None None None) "http://C" 1
             [("id", VInt 1); ("channel_id", VInt 3); ("referrer", VText "old")]%string c);
      [reflexivity | reflexivity | reflexivity | vm_compute; reflexivity | reflexivity | reflexivity
      | left; reflexivity | vm_compute; reflexivity | intros H; vm_compute in H; discriminate H].
  - apply (add_custom_channel_inherits_stale_headers ch
             (ChannelHttpHeaders.mk None None (Some "new") None None None) "http://C" 1
             [("id", VInt 1); ("channel_id", VInt 3); ("referrer", VText "old")]%string c2);
      [reflexivity | reflexivity | reflexivity | vm_compute; reflexivity | reflexivity | reflexivity
      | left; reflexivity | vm_compute; reflexivity |].
    intros _. split.
    + exists (sample_source_row 1 "Provider"). split; [left; reflexivity | reflexivity].
    + intros g Hg. discriminate Hg.
Defined.
